(** * Kalshi-Sentinel: price watchers, triggers and the stop-loss pipeline

    A shallow embedding of the three watcher managers of the bot

      - [src/stoploss-manager.ts]         (class StopLossManager)
      - [src/alert-manager.ts]            (class AlertManager)
      - [src/websocket-alert-manager.ts]  (startPositionAlert and friends)

    Every manager keeps a JavaScript [Map] from a key string to a [ws]
    WebSocket, installs event handlers on each socket and reacts to ticks.
    Numbers are IEEE 754 binary64 values, as JavaScript has them, so prices
    are primitive floats and the arithmetic below is the arithmetic of the
    program.  The event loop is a step function on an explicit state: one
    step is one callback run to completion or to its first [await]. *)

From Stdlib Require Import ZArith QArith.
From Stdlib Require Uint63.
From Stdlib Require Import List String Ascii Bool Arith Lia.
From Stdlib Require Import PrimFloat SpecFloat FloatOps FloatAxioms.
Import ListNotations.

Close Scope Q_scope.

Set Warnings "-inexact-float".
Open Scope string_scope.

(** ** JavaScript values used by the managers *)

Module Js.

(** Truthiness of a number: [0], [-0] and [NaN] are falsy. *)
Definition truthy (x : float) : bool := negb (is_zero x || is_nan x).

(** Truthiness of a string: only the empty string is falsy. *)
Definition truthy_str (s : string) : bool :=
  match s with
  | EmptyString => false
  | String _ _ => true
  end.

(** [a || b] on numbers. *)
Definition or_num (a b : float) : float := if truthy a then a else b.

(** [a || b] where [a] is an optional string. *)
Definition or_str (a : option string) (b : string) : string :=
  match a with
  | Some s => if truthy_str s then s else b
  | None => b
  end.

(** [s.startsWith(p)]. *)
Definition startsWith (s p : string) : bool := String.prefix p s.

(** [s.toLowerCase()] on ASCII letters. *)
Definition lower_ascii (c : ascii) : ascii :=
  let n := nat_of_ascii c in
  if Nat.leb 65 n && Nat.leb n 90 then ascii_of_nat (n + 32) else c.

Fixpoint toLowerCase (s : string) : string :=
  match s with
  | EmptyString => EmptyString
  | String c r => String (lower_ascii c) (toLowerCase r)
  end.

(** [s.includes(p)]. *)
Fixpoint includes (s p : string) : bool :=
  String.prefix p s ||
  match s with
  | EmptyString => false
  | String _ r => includes r p
  end.

(** The number a decimal numeral denotes in the program: [JSON.parse], a
    number literal and a slash-command option all give the binary64 value
    nearest to the rational written.  For a numerator and a denominator
    below 2^53 that is their quotient in binary64, since both convert
    without rounding and the division rounds once, to nearest. *)
Definition number (q : Q) : float :=
  let d := of_uint63 (Uint63.of_Z (Zpos (Qden q))) in
  match Qnum q with
  | Zneg m => (- (of_uint63 (Uint63.of_Z (Zpos m)) / d))%float
  | n => (of_uint63 (Uint63.of_Z n) / d)%float
  end.

End Js.

(** ** The JavaScript [Map] with string keys

    A [Map] keeps its entries in insertion order; [set] on a present key
    overwrites the value in place, [delete] drops the entry. *)

Module JsMap.

Section Ops.
Context {V : Type}.

Definition t := list (string * V).

Definition empty : t := [].

Fixpoint get (k : string) (m : t) : option V :=
  match m with
  | [] => None
  | (k', v) :: r => if String.eqb k' k then Some v else get k r
  end.

Definition has (k : string) (m : t) : bool :=
  match get k m with
  | Some _ => true
  | None => false
  end.

Fixpoint set (k : string) (v : V) (m : t) : t :=
  match m with
  | [] => [(k, v)]
  | (k', v') :: r =>
      if String.eqb k' k then (k', v) :: r else (k', v') :: set k v r
  end.

Fixpoint delete (k : string) (m : t) : t :=
  match m with
  | [] => []
  | (k', v') :: r =>
      if String.eqb k' k then delete k r else (k', v') :: delete k r
  end.

Definition keys (m : t) : list string := map fst m.

Definition entries (m : t) : list (string * V) := m.

End Ops.

Arguments t V : clear implicits.

End JsMap.

(** ** The [ws] WebSocket object, as far as the managers use it

    The library is not part of the repository.  What the managers rely on:
    a socket is created CONNECTING; [close()] on a socket that is not yet
    CLOSED moves it to CLOSING and returns at once; the ['close'] event is
    emitted later, from the event loop, and only then the socket is CLOSED;
    until then a frame that arrives is still given to the ['message']
    handler.  [closeCalls] counts the calls of [close()] on the socket. *)

Module Ws.

Inductive ReadyState := CONNECTING | OPEN | CLOSING | CLOSED.

Record WebSocket := mkWs {
  readyState : ReadyState;
  closeCalls : nat
}.

Definition fresh : WebSocket := mkWs CONNECTING 0.

Definition close (w : WebSocket) : WebSocket :=
  mkWs (match readyState w with
        | CLOSED => CLOSED
        | _ => CLOSING
        end)
       (S (closeCalls w)).

(** No [close()] has been called on the socket and it has not closed: it
    is CONNECTING or OPEN.  (A CLOSING socket is not [live], yet it still
    hands the frames it receives to its ['message'] handler until the
    ['close'] event.) *)
Definition live (w : WebSocket) : bool :=
  match readyState w with
  | CONNECTING | OPEN => true
  | _ => false
  end.

End Ws.

(** Update of the element at one index of a list; out of range nothing
    changes (socket identifiers are indices handed out by the model). *)
Fixpoint upd {A : Type} (i : nat) (f : A -> A) (l : list A) : list A :=
  match l, i with
  | [], _ => []
  | x :: r, O => f x :: r
  | x :: r, S j => x :: upd j f r
  end.

(** ** Data shared by the three files *)

Inductive Side := yes | no.

Definition side_str (s : Side) : string :=
  match s with
  | yes => "yes"
  | no => "no"
  end.

(** [side.toUpperCase()]. *)
Definition side_upper (s : Side) : string :=
  match s with
  | yes => "YES"
  | no => "NO"
  end.

(** [interface MarketUpdate]: both prices are optional. *)
Record MarketUpdate := mkUpdate {
  market_ticker : string;
  yes_price : option float;
  no_price : option float
}.

(** A frame as the ['message'] handler sees it: [Malformed] when
    [JSON.parse] throws or gives no object (the [catch] of the handler
    ends the turn), else the parsed message, whose [data] may be missing. *)
Record Msg := mkMsg {
  msg_type : string;
  msg_data : option MarketUpdate
}.

Inductive Raw :=
| Malformed
| Parsed (m : Msg).

(** What the handler decides on one frame (the spec's NONE / ARMED); ARMED
    carries the observed price and the tick. *)
Inductive Decision :=
| NONE
| ARMED (currentPrice : float) (data : MarketUpdate).

Definition DiscordClient := nat.

(** What happens while one notification is prepared: whether
    [client.users.fetch(id)] resolves, and whether the calls that build
    the embed complete.  Both come before [user.send] inside the [try] of
    the sender, so when one of them throws the [catch] logs and
    [user.send] is never called. *)
Record Discord := mkDiscord {
  usersFetch : bool;
  embedBuilt : bool
}.

(** Discord lets the sender get as far as [user.send]. *)
Definition reaches_send (d : Discord) : bool := usersFetch d && embedBuilt d.

(** [a >= b] on numbers. *)
Definition geb (a b : float) : bool := (b <=? a)%float.

(** ** Discord embeds

    A field value of an embed; numbers are kept with the formatting the
    template applies to them. *)
Inductive Value :=
| Text (s : string)
| Code (s : string)              (* `s` *)
| Dollar4 (x : float)            (* `$${x.toFixed(4)}` *)
| MinusPercent (x : float)       (* `-${x}%` *)
| Percent2 (x : float)           (* `${x.toFixed(2)}%` *)
| PlusPercent2 (x : float)       (* `+${x.toFixed(2)}%` *)
| Contracts (x : float)          (* `${x}` contracts *)
| Num (x : float).               (* ${x} *)

Record Embed := mkEmbed {
  title : string;
  description : string * string;
  fields : list (string * Value);
  footer : list Value
}.

(** [(price || 0)] for an optional price. *)
Definition price_or_0 (p : option float) : float :=
  match p with
  | Some y => Js.or_num y 0
  | None => 0%float
  end.

(** ** src/stoploss-manager.ts *)

Module StopLoss.

(** [interface StopLossOrder]. *)
Record StopLossOrder := mkStopLossOrder {
  userId : string;
  marketTicker : string;
  side : Side;
  basePrice : float;
  dropPercentage : float;
  apiKey : string;
  privateKey : string
}.

(** The template string [`${userId}-${marketTicker}-${side}`]. *)
Definition stopLossId_of (u t s : string) : string :=
  u ++ "-" ++ t ++ "-" ++ s.

Definition stopLossId (sl : StopLossOrder) : string :=
  stopLossId_of (userId sl) (marketTicker sl) (side_str (side sl)).

(** *** The ['message'] handler up to its [await]

    The body of [ws.on('message', ...)] from [JSON.parse] to the test
    [currentPrice <= triggerPrice && !hasExecuted]. *)

Definition currentPrice_of (s : Side) (data : MarketUpdate) : option float :=
  match s with
  | yes => yes_price data
  | no => no_price data
  end.

Definition triggerPrice (sl : StopLossOrder) : float :=
  (basePrice sl * (1 - dropPercentage sl / 100))%float.

Definition onMessage (sl : StopLossOrder) (hasExecuted : bool) (raw : Raw)
  : Decision :=
  match raw with
  | Malformed => NONE
  | Parsed msg =>
      if negb (String.eqb (msg_type msg) "market_ticker") then NONE
      else
        match msg_data msg with
        | None => NONE
        | Some data =>
            if negb (String.eqb (market_ticker data) (marketTicker sl))
            then NONE
            else
              match currentPrice_of (side sl) data with
              | None => NONE
              | Some currentPrice =>
                  if negb (Js.truthy currentPrice) then NONE
                  else if (currentPrice <=? triggerPrice sl)%float
                          && negb hasExecuted
                  then ARMED currentPrice data
                  else NONE
              end
        end
  end.

(** *** The venue, as [executeSellOrder] sees it *)

(** A value thrown by a request: an [Error] with its message, or anything
    else. *)
Inductive Thrown :=
| ErrorObj (message : string)
| NotAnError.

(** One element of [market_positions]; [position_fp] is the number
    [parseFloat] reads from the field ([NaN] when there is none). *)
Record Position := mkPosition {
  ticker : string;
  position_fp : float
}.

(** The body of [GET /portfolio/positions]: [market_positions] may be
    missing. *)
Record PositionsData := mkPositionsData {
  market_positions : option (list Position)
}.

(** [orderResult.order]. *)
Record Order := mkOrder {
  order_id : string;
  quantity : float;
  status : option string
}.

Record OrderResult := mkOrderResult {
  order : option Order
}.

Record OrderPayload := mkOrderPayload {
  op_ticker : string;
  op_side : Side;
  op_type : string;
  op_quantity : float
}.

(** What the outside answers during one pipeline run: the venue to the
    two requests, and Discord to the notification that ends the run. *)
Record Venue := mkVenue {
  getPositions : Thrown + PositionsData;
  postOrder : OrderPayload -> Thrown + OrderResult;
  discord : Discord
}.

(** *** The notification *)

(** What the pipeline does to the outside world, in order. *)
Inductive Effect :=
| GetPositions (apiKey : string)
| PostOrder (apiKey : string) (payload : OrderPayload)
| SendDM (user : string) (embed : Embed).

Definition is_SendDM (e : Effect) : bool :=
  match e with
  | SendDM _ _ => true
  | _ => false
  end.

Definition is_PostOrder (e : Effect) : bool :=
  match e with
  | PostOrder _ _ => true
  | _ => false
  end.

Definition priceChange (sl : StopLossOrder) (currentPrice : float) : float :=
  ((currentPrice - basePrice sl) / basePrice sl * 100)%float.

(** [sendStopLossDM]: [users.fetch], then the embed is built, then
    [user.send] hands it to Discord.  [SendDM] is the call of [user.send];
    when [users.fetch] or the builder throws, the [catch] of the function
    logs, [user.send] is not called and nothing reaches the caller. *)
Definition sendStopLossDM (discordClient : option DiscordClient)
           (discord : Discord)
           (sl : StopLossOrder) (currentPrice : float)
           (marketData : MarketUpdate)
           (order : option Order) (errorMessage : option string)
  : list Effect :=
  match discordClient with
  | None => []
  | Some _ =>
    if negb (usersFetch discord) then []
    else
      let isError :=
        match errorMessage with
        | Some e => Js.truthy_str e
        | None => false
        end in
      let title :=
        if isError then "❌ Stop Loss Error"
        else match order with
             | Some _ => "✅ Position Closed!"
             | None => "🛑 Stop Loss Triggered!"
             end in
      let base :=
        [ ("📊 Market Ticker", Code (marketTicker sl));
          ("📈 Side Held", Text (side_upper (side sl)));
          ("🔴 Stop Loss %", MinusPercent (dropPercentage sl));
          ("💰 Entry Price", Dollar4 (basePrice sl));
          ("⚡ Trigger Price", Dollar4 (triggerPrice sl));
          ("📉 Current Price", Dollar4 currentPrice);
          ("📊 Price Change", Percent2 (priceChange sl currentPrice));
          ("💵 YES Price", Dollar4 (price_or_0 (yes_price marketData)));
          ("🚫 NO Price", Dollar4 (price_or_0 (no_price marketData))) ] in
      let extra :=
        match order with
        | Some o =>
            [ ("✅ Order Executed", Code (order_id o));
              ("📈 Quantity Sold", Contracts (quantity o));
              ("💵 Order Status", Code (Js.or_str (status o) "PENDING")) ]
        | None =>
            match errorMessage with
            | Some e =>
                if Js.truthy_str e then [ ("❌ Error", Code e) ] else []
            | None => []
            end
        end in
      if negb (embedBuilt discord) then []
      else
        [ SendDM (userId sl)
            (mkEmbed title (marketTicker sl, side_upper (side sl))
                     (base ++ extra)
                     [ Text "Stop loss triggered and position closed" ]) ]
  end.

(** [err instanceof Error ? err.message : 'Unknown error']. *)
Definition reason (err : Thrown) : string :=
  match err with
  | ErrorObj m => m
  | NotAnError => "Unknown error"
  end.

(** [market_positions.find(p => p.ticker === marketTicker)]. *)
Definition findPosition (t : string) (ps : list Position) : option Position :=
  find (fun p => String.eqb (ticker p) t) ps.

(** The value of [positionQuantity] after step 1. *)
Definition positionQuantity (sl : StopLossOrder) (d : PositionsData) : float :=
  match market_positions d with
  | None => 0%float
  | Some ps =>
      match findPosition (marketTicker sl) ps with
      | Some position => Js.or_num (position_fp position) 0
      | None => 0%float
      end
  end.

(** [executeSellOrder], with the answers of the venue given. *)
Definition executeSellOrder (discordClient : option DiscordClient)
           (sl : StopLossOrder) (currentPrice : float)
           (marketData : MarketUpdate) (venue : Venue) : list Effect :=
  match discordClient with
  | None => []
  | Some _ =>
      let dm :=
        sendStopLossDM discordClient (discord venue) sl currentPrice
                       marketData in
      GetPositions (apiKey sl) ::
      match getPositions venue with
      | inl err => dm None (Some (reason err))
      | inr positionsData =>
          let q := positionQuantity sl positionsData in
          if (q <=? 0)%float then dm None (Some "Position not found")
          else
            let orderPayload :=
              mkOrderPayload (marketTicker sl) (side sl) "market" q in
            PostOrder (apiKey sl) orderPayload ::
            match postOrder venue orderPayload with
            | inl err => dm None (Some (reason err))
            | inr orderResult => dm (order orderResult) None
            end
      end
  end.

(** *** The manager and its sockets

    [sockets] holds every socket [startStopLoss] has created, with what
    the closures of that call capture ([stopLoss], [hasExecuted]); a
    socket is named by its index.  [suspended] holds the ['message']
    handlers waiting at [await this.executeSellOrder(...)], [log] what
    the pipelines have done so far. *)

Record Watcher := mkWatcher {
  w_stopLoss : StopLossOrder;
  w_ws : Ws.WebSocket;
  w_hasExecuted : bool
}.

Record Suspended := mkSuspended {
  s_ws : nat;
  s_currentPrice : float;
  s_data : MarketUpdate
}.

Record State := mkState {
  activeStopLosses : JsMap.t nat;
  discordClient : option DiscordClient;
  sockets : list Watcher;
  suspended : list Suspended;
  log : list Effect
}.

Definition init : State := mkState JsMap.empty None [] [] [].

Definition setDiscordClient (client : DiscordClient) (st : State) : State :=
  mkState (activeStopLosses st) (Some client) (sockets st)
          (suspended st) (log st).

Definition with_active (m : JsMap.t nat) (st : State) : State :=
  mkState m (discordClient st) (sockets st) (suspended st) (log st).

Definition with_sockets (l : list Watcher) (st : State) : State :=
  mkState (activeStopLosses st) (discordClient st) l (suspended st) (log st).

(** [ws.close()] on socket [ws]. *)
Definition close (ws : nat) (st : State) : State :=
  with_sockets
    (upd ws (fun w => mkWatcher (w_stopLoss w) (Ws.close (w_ws w))
                                (w_hasExecuted w))
         (sockets st)) st.

(** [this.activeStopLosses.delete(id)]. *)
Definition delete (id : string) (st : State) : State :=
  with_active (JsMap.delete id (activeStopLosses st)) st.

(** [startStopLoss]; [signs] tells whether [crypto] accepts the private
    key (when it throws, the [catch] logs and nothing is registered). *)
Definition startStopLoss (stopLoss : StopLossOrder) (signs : bool)
           (st : State) : State :=
  let id := stopLossId stopLoss in
  let st1 :=
    if JsMap.has id (activeStopLosses st) then
      match JsMap.get id (activeStopLosses st) with
      | Some existingWs => close existingWs st
      | None => st
      end
    else st in
  if signs then
    let ws := List.length (sockets st1) in
    with_active (JsMap.set id ws (activeStopLosses st1))
      (with_sockets (sockets st1 ++ [mkWatcher stopLoss Ws.fresh false])%list st1)
  else st1.

(** [stopStopLoss]. *)
Definition stopStopLoss (userId marketTicker side : string) (st : State)
  : bool * State :=
  let id := stopLossId_of userId marketTicker side in
  match JsMap.get id (activeStopLosses st) with
  | Some ws => (true, delete id (close ws st))
  | None => (false, st)
  end.

(** [getActiveStopLosses]. *)
Definition getActiveStopLosses (userId : string) (st : State) : list string :=
  filter (fun key => Js.startsWith key userId)
         (JsMap.keys (activeStopLosses st)).

(** [stopAllStopLosses]. *)
Definition stopAllStopLosses (userId : string) (st : State) : nat * State :=
  let userStopLosses := getActiveStopLosses userId st in
  (List.length userStopLosses,
   fold_left
     (fun s id =>
        delete id
          match JsMap.get id (activeStopLosses s) with
          | Some ws => close ws s
          | None => s
          end)
     userStopLosses st).

(** *** The event loop *)

Inductive Event :=
| Start (stopLoss : StopLossOrder) (signs : bool)
| Stop (userId marketTicker side : string)
| StopAll (userId : string)
| OnOpen (ws : nat)                    (* 'open' on socket ws *)
| OnMessage (ws : nat) (raw : Raw)     (* 'message' on socket ws *)
| OnClose (ws : nat)                   (* 'close' on socket ws *)
| Resume (ws : nat) (venue : Venue).   (* the awaited pipeline settles *)

Definition set_readyState (ws : nat) (r : Ws.ReadyState) (st : State) : State :=
  with_sockets
    (upd ws (fun w => mkWatcher (w_stopLoss w)
                                (Ws.mkWs r (Ws.closeCalls (w_ws w)))
                                (w_hasExecuted w))
         (sockets st)) st.

Definition set_hasExecuted (ws : nat) (st : State) : State :=
  with_sockets
    (upd ws (fun w => mkWatcher (w_stopLoss w) (w_ws w) true) (sockets st))
    st.

(** The ['message'] handler of socket [ws] up to its [await]. *)
Definition handleMessage (ws : nat) (raw : Raw) (st : State) : State :=
  match nth_error (sockets st) ws with
  | None => st
  | Some w =>
      match onMessage (w_stopLoss w) (w_hasExecuted w) raw with
      | NONE => st
      | ARMED currentPrice data =>
          let st1 := set_hasExecuted ws st in
          mkState (activeStopLosses st1) (discordClient st1) (sockets st1)
                  (suspended st1 ++ [mkSuspended ws currentPrice data])%list
                  (log st1)
      end
  end.

(** The rest of the handler, run when the awaited pipeline settles: the
    pipeline has run against [venue] (what it did is appended to [log]),
    then [ws.close()] and [this.activeStopLosses.delete(stopLossId)]. *)
Definition resume (s : Suspended) (venue : Venue) (st : State) : State :=
  match nth_error (sockets st) (s_ws s) with
  | None => st
  | Some w =>
      let sl := w_stopLoss w in
      let effects :=
        executeSellOrder (discordClient st) sl (s_currentPrice s)
                         (s_data s) venue in
      let st1 :=
        mkState (activeStopLosses st) (discordClient st) (sockets st)
                (suspended st) (log st ++ effects)%list in
      delete (stopLossId sl) (close (s_ws s) st1)
  end.

(** The ['close'] handler. *)
Definition handleClose (ws : nat) (st : State) : State :=
  match nth_error (sockets st) ws with
  | None => st
  | Some w => delete (stopLossId (w_stopLoss w)) st
  end.

(** The first suspended handler of socket [ws], and the others. *)
Fixpoint take_suspended (ws : nat) (l : list Suspended)
  : option (Suspended * list Suspended) :=
  match l with
  | [] => None
  | s :: r =>
      if Nat.eqb (s_ws s) ws then Some (s, r)
      else match take_suspended ws r with
           | Some (x, r') => Some (x, s :: r')
           | None => None
           end
  end.

Definition readyState_of (ws : nat) (st : State) : option Ws.ReadyState :=
  option_map (fun w => Ws.readyState (w_ws w)) (nth_error (sockets st) ws).

(** One turn of the event loop; [None] when the event cannot occur in
    [st]: a frame is handed to the ['message'] handler of a socket that is
    OPEN or CLOSING (after [close()], until the ['close'] event), and
    ['close'] is emitted once.  A socket closed before it opened is
    CLOSING as well; the step allows a frame there too, so the states
    reached here include those of the program. *)
Definition step (e : Event) (st : State) : option State :=
  match e with
  | Start stopLoss signs => Some (startStopLoss stopLoss signs st)
  | Stop u t s => Some (snd (stopStopLoss u t s st))
  | StopAll u => Some (snd (stopAllStopLosses u st))
  | OnOpen ws =>
      match readyState_of ws st with
      | Some Ws.CONNECTING => Some (set_readyState ws Ws.OPEN st)
      | _ => None
      end
  | OnMessage ws raw =>
      match readyState_of ws st with
      | Some Ws.OPEN | Some Ws.CLOSING => Some (handleMessage ws raw st)
      | _ => None
      end
  | OnClose ws =>
      match readyState_of ws st with
      | Some Ws.CLOSED | None => None
      | Some _ => Some (handleClose ws (set_readyState ws Ws.CLOSED st))
      end
  | Resume ws venue =>
      match take_suspended ws (suspended st) with
      | Some (s, rest) =>
          Some (resume s venue
                  (mkState (activeStopLosses st) (discordClient st)
                           (sockets st) rest (log st)))
      | None => None
      end
  end.

Fixpoint run (es : list Event) (st : State) : option State :=
  match es with
  | [] => Some st
  | e :: r =>
      match step e st with
      | Some st' => run r st'
      | None => None
      end
  end.

(** The states the event loop can reach once the client is set. *)
Definition reachable (st : State) : Prop :=
  exists client es, run es (setDiscordClient client init) = Some st.

(** The sockets started for key [id] that are connecting or open (no
    [close()] was called on them) and have not fired yet. *)
Definition armed (id : string) (st : State) : list nat :=
  filter
    (fun ws =>
       match nth_error (sockets st) ws with
       | Some w =>
           String.eqb (stopLossId (w_stopLoss w)) id
           && Ws.live (w_ws w) && negb (w_hasExecuted w)
       | None => false
       end)
    (seq 0 (List.length (sockets st))).

End StopLoss.

(** ** src/alert-manager.ts *)

Module Alert.

(** [interface PriceAlert]. *)
Record PriceAlert := mkPriceAlert {
  userId : string;
  marketTicker : string;
  side : Side;
  basePrice : float;
  percentageThreshold : float;
  apiKey : string;
  privateKey : string
}.

Definition alertId_of (u t s : string) : string :=
  u ++ "-" ++ t ++ "-" ++ s.

Definition alertId (a : PriceAlert) : string :=
  alertId_of (userId a) (marketTicker a) (side_str (side a)).

Definition currentPrice_of (s : Side) (data : MarketUpdate) : option float :=
  match s with
  | yes => yes_price data
  | no => no_price data
  end.

Definition triggerPrice (a : PriceAlert) : float :=
  (basePrice a * (1 + percentageThreshold a / 100))%float.

(** The ['message'] handler up to its [await]: there is no flag here,
    the test is [currentPrice >= triggerPrice] alone. *)
Definition onMessage (a : PriceAlert) (raw : Raw) : Decision :=
  match raw with
  | Malformed => NONE
  | Parsed msg =>
      if negb (String.eqb (msg_type msg) "market_ticker") then NONE
      else
        match msg_data msg with
        | None => NONE
        | Some data =>
            if negb (String.eqb (market_ticker data) (marketTicker a))
            then NONE
            else
              match currentPrice_of (side a) data with
              | None => NONE
              | Some currentPrice =>
                  if negb (Js.truthy currentPrice) then NONE
                  else if geb currentPrice (triggerPrice a)
                  then ARMED currentPrice data
                  else NONE
              end
        end
  end.

(** [response.data.market], or [null] when [fetchMarketDetails] caught
    an error. *)
Record MarketInfo := mkMarketInfo {
  mi_title : option string;
  mi_event_ticker : option string;
  mi_subtitle : option string;
  mi_status : option string
}.

Inductive Effect :=
| FetchMarket (ticker : string)
| SendDM (user : string) (embed : Embed).

Definition is_SendDM (e : Effect) : bool :=
  match e with
  | SendDM _ _ => true
  | _ => false
  end.

Definition info (f : MarketInfo -> option string) (m : option MarketInfo)
           (dflt : string) : string :=
  match m with
  | Some i => Js.or_str (f i) dflt
  | None => dflt
  end.

Definition percentageMove (a : PriceAlert) (currentPrice : float) : float :=
  ((currentPrice - basePrice a) / basePrice a * 100)%float.

(** What the outside answers while one [sendAlert] runs: the venue to
    [fetchMarketDetails] ([None] when that request failed), and Discord. *)
Record Answers := mkAnswers {
  marketInfo : option MarketInfo;
  discord : Discord
}.

(** [sendAlert], with the answers given: [fetchMarketDetails], then
    [users.fetch], then the embed is built, then [user.send].  [SendDM] is
    the call of [user.send]; when [users.fetch] or the builder throws, the
    [catch] of the function logs and [user.send] is not called. *)
Definition sendAlert (discordClient : option DiscordClient)
           (a : PriceAlert) (currentPrice : float)
           (marketData : MarketUpdate) (answers : Answers)
  : list Effect :=
  match discordClient with
  | None => []
  | Some _ =>
      let marketInfo := marketInfo answers in
      FetchMarket (marketTicker a) ::
      if negb (reaches_send (discord answers)) then []
      else
      [ SendDM (userId a)
          (mkEmbed "🚨 Price Alert Triggered!"
             (marketTicker a, info mi_title marketInfo "Market")
             [ ("📊 Market Ticker", Code (marketTicker a));
               ("🎯 Event", Code (info mi_event_ticker marketInfo "N/A"));
               ("📈 Side Watched", Text (side_upper (side a)));
               ("💰 Entry Price", Dollar4 (basePrice a));
               ("⚡ Current Price", Dollar4 currentPrice);
               ("🔥 Movement", PlusPercent2 (percentageMove a currentPrice));
               ("❓ Question", Text (info mi_title marketInfo "N/A"));
               ("📝 Details",
                 Text (info mi_subtitle marketInfo "No details available"));
               ("🔄 Market Status", Code (info mi_status marketInfo "UNKNOWN"));
               ("💵 YES Price", Dollar4 (price_or_0 (yes_price marketData)));
               ("🚫 NO Price", Dollar4 (price_or_0 (no_price marketData))) ]
             [ Text "Alert set at "; Num (percentageThreshold a);
               Text "% threshold • Use /alerts to manage" ]) ]
  end.

Record Watcher := mkWatcher {
  w_alert : PriceAlert;
  w_ws : Ws.WebSocket
}.

Record Suspended := mkSuspended {
  s_ws : nat;
  s_currentPrice : float;
  s_data : MarketUpdate
}.

Record State := mkState {
  activeAlerts : JsMap.t nat;
  discordClient : option DiscordClient;
  sockets : list Watcher;
  suspended : list Suspended;
  log : list Effect
}.

Definition init : State := mkState JsMap.empty None [] [] [].

Definition setDiscordClient (client : DiscordClient) (st : State) : State :=
  mkState (activeAlerts st) (Some client) (sockets st) (suspended st) (log st).

Definition with_active (m : JsMap.t nat) (st : State) : State :=
  mkState m (discordClient st) (sockets st) (suspended st) (log st).

Definition with_sockets (l : list Watcher) (st : State) : State :=
  mkState (activeAlerts st) (discordClient st) l (suspended st) (log st).

Definition close (ws : nat) (st : State) : State :=
  with_sockets
    (upd ws (fun w => mkWatcher (w_alert w) (Ws.close (w_ws w))) (sockets st))
    st.

Definition delete (id : string) (st : State) : State :=
  with_active (JsMap.delete id (activeAlerts st)) st.

(** [startAlert]; [signs] as in [StopLoss.startStopLoss]. *)
Definition startAlert (alert : PriceAlert) (signs : bool) (st : State)
  : State :=
  let id := alertId alert in
  let st1 :=
    if JsMap.has id (activeAlerts st) then
      match JsMap.get id (activeAlerts st) with
      | Some existingWs => close existingWs st
      | None => st
      end
    else st in
  if signs then
    let ws := List.length (sockets st1) in
    with_active (JsMap.set id ws (activeAlerts st1))
      (with_sockets (sockets st1 ++ [mkWatcher alert Ws.fresh])%list st1)
  else st1.

(** [stopAlert]. *)
Definition stopAlert (userId marketTicker side : string) (st : State)
  : bool * State :=
  let id := alertId_of userId marketTicker side in
  match JsMap.get id (activeAlerts st) with
  | Some ws => (true, delete id (close ws st))
  | None => (false, st)
  end.

(** [getActiveAlerts]. *)
Definition getActiveAlerts (userId : string) (st : State) : list string :=
  filter (fun key => Js.startsWith key userId) (JsMap.keys (activeAlerts st)).

(** [stopAllAlerts]. *)
Definition stopAllAlerts (userId : string) (st : State) : nat * State :=
  let userAlerts := getActiveAlerts userId st in
  (List.length userAlerts,
   fold_left
     (fun s id =>
        delete id
          match JsMap.get id (activeAlerts s) with
          | Some ws => close ws s
          | None => s
          end)
     userAlerts st).

Inductive Event :=
| Start (alert : PriceAlert) (signs : bool)
| Stop (userId marketTicker side : string)
| StopAll (userId : string)
| OnOpen (ws : nat)
| OnMessage (ws : nat) (raw : Raw)
| OnClose (ws : nat)
| Resume (ws : nat) (answers : Answers).

Definition set_readyState (ws : nat) (r : Ws.ReadyState) (st : State) : State :=
  with_sockets
    (upd ws (fun w => mkWatcher (w_alert w)
                                (Ws.mkWs r (Ws.closeCalls (w_ws w))))
         (sockets st)) st.

(** The ['message'] handler of socket [ws] up to [await this.sendAlert]. *)
Definition handleMessage (ws : nat) (raw : Raw) (st : State) : State :=
  match nth_error (sockets st) ws with
  | None => st
  | Some w =>
      match onMessage (w_alert w) raw with
      | NONE => st
      | ARMED currentPrice data =>
          mkState (activeAlerts st) (discordClient st) (sockets st)
                  (suspended st ++ [mkSuspended ws currentPrice data])%list
                  (log st)
      end
  end.

(** The rest of the handler: [sendAlert] is done, then [ws.close()] and
    [this.activeAlerts.delete(alertId)]. *)
Definition resume (s : Suspended) (answers : Answers)
           (st : State) : State :=
  match nth_error (sockets st) (s_ws s) with
  | None => st
  | Some w =>
      let a := w_alert w in
      let effects :=
        sendAlert (discordClient st) a (s_currentPrice s) (s_data s)
                  answers in
      let st1 :=
        mkState (activeAlerts st) (discordClient st) (sockets st)
                (suspended st) (log st ++ effects)%list in
      delete (alertId a) (close (s_ws s) st1)
  end.

Definition handleClose (ws : nat) (st : State) : State :=
  match nth_error (sockets st) ws with
  | None => st
  | Some w => delete (alertId (w_alert w)) st
  end.

Fixpoint take_suspended (ws : nat) (l : list Suspended)
  : option (Suspended * list Suspended) :=
  match l with
  | [] => None
  | s :: r =>
      if Nat.eqb (s_ws s) ws then Some (s, r)
      else match take_suspended ws r with
           | Some (x, r') => Some (x, s :: r')
           | None => None
           end
  end.

Definition readyState_of (ws : nat) (st : State) : option Ws.ReadyState :=
  option_map (fun w => Ws.readyState (w_ws w)) (nth_error (sockets st) ws).

Definition step (e : Event) (st : State) : option State :=
  match e with
  | Start alert signs => Some (startAlert alert signs st)
  | Stop u t s => Some (snd (stopAlert u t s st))
  | StopAll u => Some (snd (stopAllAlerts u st))
  | OnOpen ws =>
      match readyState_of ws st with
      | Some Ws.CONNECTING => Some (set_readyState ws Ws.OPEN st)
      | _ => None
      end
  | OnMessage ws raw =>
      match readyState_of ws st with
      | Some Ws.OPEN | Some Ws.CLOSING => Some (handleMessage ws raw st)
      | _ => None
      end
  | OnClose ws =>
      match readyState_of ws st with
      | Some Ws.CLOSED | None => None
      | Some _ => Some (handleClose ws (set_readyState ws Ws.CLOSED st))
      end
  | Resume ws answers =>
      match take_suspended ws (suspended st) with
      | Some (s, rest) =>
          Some (resume s answers
                  (mkState (activeAlerts st) (discordClient st)
                           (sockets st) rest (log st)))
      | None => None
      end
  end.

Fixpoint run (es : list Event) (st : State) : option State :=
  match es with
  | [] => Some st
  | e :: r =>
      match step e st with
      | Some st' => run r st'
      | None => None
      end
  end.

End Alert.

(** ** src/websocket-alert-manager.ts *)

Module PositionAlert.

(** [interface PositionAlert]; [threshold] is a fraction (0.10 = 10%). *)
Record PositionAlert := mkPositionAlert {
  discordId : string;
  marketTicker : string;
  side : Side;
  basePrice : float;
  threshold : float;
  contractsHeld : float;
  apiKey : string;
  privateKey : string
}.

(** The template string [`${discordId}-${marketTicker}`]: no side. *)
Definition alertKey_of (d t : string) : string := d ++ "-" ++ t.

Definition alertKey (a : PositionAlert) : string :=
  alertKey_of (discordId a) (marketTicker a).

Definition currentPrice_of (s : Side) (data : MarketUpdate) : option float :=
  match s with
  | yes => yes_price data
  | no => no_price data
  end.

Definition triggerPrice (a : PositionAlert) : float :=
  (basePrice a * (1 + threshold a))%float.

(** The ['message'] handler up to its first [await].  There is no test
    of [currentPrice] here; a missing price makes
    [currentPrice.toFixed(4)] throw in the log line, and the [catch] of
    the handler ends the turn. *)
Definition onMessage (a : PositionAlert) (hasTriggered : bool) (raw : Raw)
  : Decision :=
  match raw with
  | Malformed => NONE
  | Parsed msg =>
      if negb (String.eqb (msg_type msg) "market_ticker") then NONE
      else
        match msg_data msg with
        | None => NONE
        | Some data =>
            if negb (String.eqb (market_ticker data) (marketTicker a))
            then NONE
            else
              match currentPrice_of (side a) data with
              | None => NONE
              | Some currentPrice =>
                  if geb currentPrice (triggerPrice a) && negb hasTriggered
                  then ARMED currentPrice data
                  else NONE
              end
        end
  end.

Record Watcher := mkWatcher {
  w_alert : PositionAlert;
  w_ws : Ws.WebSocket;
  w_hasTriggered : bool
}.

(** The module-level [activeAlerts] and the sockets created so far. *)
Record State := mkState {
  activeAlerts : JsMap.t nat;
  sockets : list Watcher
}.

Definition init : State := mkState JsMap.empty [].

Definition close (ws : nat) (st : State) : State :=
  mkState (activeAlerts st)
          (upd ws (fun w => mkWatcher (w_alert w) (Ws.close (w_ws w))
                                      (w_hasTriggered w))
               (sockets st)).

Definition delete (key : string) (st : State) : State :=
  mkState (JsMap.delete key (activeAlerts st)) (sockets st).

(** [startPositionAlert]: a key that is present ends the call.  The
    [discordClient] argument is used by the handler only, to send the
    message. *)
Definition startPositionAlert (alert : PositionAlert) (st : State) : State :=
  let key := alertKey alert in
  if JsMap.has key (activeAlerts st) then st
  else
    let ws := List.length (sockets st) in
    mkState (JsMap.set key ws (activeAlerts st))
            (sockets st ++ [mkWatcher alert Ws.fresh false])%list.

(** [stopPositionAlert]. *)
Definition stopPositionAlert (discordId marketTicker : string) (st : State)
  : bool * State :=
  let key := alertKey_of discordId marketTicker in
  match JsMap.get key (activeAlerts st) with
  | Some ws => (true, delete key (close ws st))
  | None => (false, st)
  end.

(** [stopAllAlertsForUser]: the loop over [activeAlerts.entries()]. *)
Definition stopAllAlertsForUser (discordId : string) (st : State)
  : nat * State :=
  fold_left
    (fun (acc : nat * State) (e : string * nat) =>
       let (count, s) := acc in
       let (key, ws) := e in
       if Js.startsWith key discordId
       then (S count, delete key (close ws s))
       else (count, s))
    (JsMap.entries (activeAlerts st)) (0, st).

(** [getActiveAlerts]. *)
Definition getActiveAlerts (st : State) : list string :=
  JsMap.keys (activeAlerts st).

End PositionAlert.

(** ** src/commands/stoploss.ts and src/commands/alert.ts

    The handlers of the two slash commands, as functions of the options of
    the interaction, of what [kalshiUserManager.getKalshiUser] returned and
    of the state of the manager.  A reply is kept as the data it shows. *)

Module Commands.

(** [s.split('-')]. *)
Fixpoint split_dash (s : string) : list string :=
match s with
| EmptyString => [EmptyString]
| String c r =>
    if Ascii.eqb c "-" then EmptyString :: split_dash r
    else match split_dash r with
         | seg :: rest => String c seg :: rest
         | [] => [String c EmptyString]
         end
end.

(** [const [, ticker, side] = id.split('-')]. *)
Definition ticker_and_side (id : string) : option string * option string :=
  let parts := split_dash id in
  (nth_error parts 1, nth_error parts 2).



Inductive Reply :=
| NoAccountLinked
| StopLossSet (ticker : string) (side : Side)
              (dropPercentage basePrice triggerPrice : float)
| AlertSet (ticker : string) (side : Side)
           (percentage basePrice triggerPrice : float)
| NoneActive
| Listing (lines : list (string * string)) (total : nat)
| NotFound (ticker : string) (side : Side)
| Stopped (ticker : string) (side : Side)
| ErrorReply.




Section Handlers.

(** [String.prototype.toUpperCase], and whether [crypto] accepts a private
    key: both are taken as given. *)
Variable toUpperCase : string -> string.
Variable signs : string -> bool.



(** One line of a list: the ticker and the side read off the key; the
    loop throws at [side.toUpperCase()] when the key has fewer than three
    parts. *)
Definition line_of (id : string) : option (string * string) :=
  match ticker_and_side id with
  | (Some ticker, Some side) => Some (ticker, toUpperCase side)
  | _ => None
  end.

Fixpoint lines_of (ids : list string) : option (list (string * string)) :=
  match ids with
  | [] => Some []
  | id :: r =>
      match line_of id, lines_of r with
      | Some l, Some ls => Some (l :: ls)
      | _, _ => None
      end
  end.




(** [handleListAlerts]. *)
Definition handleListAlerts (userId : string) (st : Alert.State) : Reply :=
  let activeAlerts := Alert.getActiveAlerts userId st in
  if Nat.eqb (List.length activeAlerts) 0 then NoneActive
  else
    match lines_of activeAlerts with
    | Some ls => Listing ls (List.length activeAlerts)
    | None => ErrorReply
    end.


End Handlers.

End Commands.

(** No ['-'] occurs in a string. *)
Fixpoint no_dash (s : string) : bool :=
match s with
| EmptyString => true
| String c r => negb (Ascii.eqb c "-") && no_dash r
end.

(** ** websocket-alert-manager.ts: the handler after it has fired *)

(** What [fetchMarketInfo] returns for a market ([null] on any failure);
    the defaults for missing fields are already applied there. *)
Record MarketTickerInfo := mkMarketTickerInfo {
  ti_title : string;
  ti_event_ticker : string;
  ti_status : string
}.

(** The direct message of [startPositionAlert], as the values its template
    shows; the numbers are printed with [toFixed]. *)
Record PositionDM := mkPositionDM {
  dm_user : string;
  dm_market : string;              (* marketInfo?.title || alert.marketTicker *)
  dm_event : string;               (* marketInfo?.event_ticker || 'N/A' *)
  dm_side : string;
  dm_contracts : float;
  dm_entry : float;                (* basePrice.toFixed(4) *)
  dm_threshold_percent : float;    (* (threshold * 100).toFixed(0) *)
  dm_current : float;              (* currentPrice.toFixed(4) *)
  dm_no : float;                   (* data.no_price.toFixed(4) *)
  dm_change : float;               (* priceChangePercent *)
  dm_status : string               (* marketInfo?.status || 'UNKNOWN' *)
}.

(** The inner [try] of the handler: the message is built and sent; when
    the tick has no [no_price], [data.no_price.toFixed(4)] throws, the
    [catch] logs and nothing is sent. *)
Definition position_message (a : PositionAlert.PositionAlert)
           (currentPrice : float) (data : MarketUpdate)
           (marketInfo : option MarketTickerInfo) : option PositionDM :=
  match no_price data with
  | None => None
  | Some n =>
      Some (mkPositionDM
              (PositionAlert.discordId a)
              (match marketInfo with
               | Some i => if Js.truthy_str (ti_title i) then ti_title i
                           else PositionAlert.marketTicker a
               | None => PositionAlert.marketTicker a
               end)
              (match marketInfo with
               | Some i => if Js.truthy_str (ti_event_ticker i)
                           then ti_event_ticker i else "N/A"
               | None => "N/A"
               end)
              (side_upper (PositionAlert.side a))
              (PositionAlert.contractsHeld a)
              (PositionAlert.basePrice a)
              (PositionAlert.threshold a * 100)%float
              currentPrice
              n
              ((currentPrice - PositionAlert.basePrice a)
               / PositionAlert.basePrice a * 100)%float
              (match marketInfo with
               | Some i => if Js.truthy_str (ti_status i) then ti_status i
                           else "UNKNOWN"
               | None => "UNKNOWN"
               end))
  end.

(** The rest of the handler once [fetchMarketInfo] has settled: the inner
    [try], then [ws.close()] and [activeAlerts.delete(alertKey)]. *)
Definition position_resume (ws : nat) (currentPrice : float)
           (data : MarketUpdate) (marketInfo : option MarketTickerInfo)
           (st : PositionAlert.State)
  : PositionAlert.State * option PositionDM :=
  match nth_error (PositionAlert.sockets st) ws with
  | None => (st, None)
  | Some w =>
      let a := PositionAlert.w_alert w in
      (PositionAlert.delete (PositionAlert.alertKey a)
                            (PositionAlert.close ws st),
       position_message a currentPrice data marketInfo)
  end.

(** ** Observations used in the statements *)

(** The terminal states of the pipeline (spec 4.4). *)
Inductive Terminal := FILLED | NO_POSITION | FETCH_FAILED | ORDER_FAILED.

(** The terminal state a run of [executeSellOrder] ends in, read off the
    answers of the venue as the spec's state machine describes them. *)
Definition terminal (sl : StopLoss.StopLossOrder) (venue : StopLoss.Venue)
  : Terminal :=
  match StopLoss.getPositions venue with
  | inl _ => FETCH_FAILED
  | inr d =>
      let q := StopLoss.positionQuantity sl d in
      if (q <=? 0)%float then NO_POSITION
      else
        match StopLoss.postOrder venue
                (StopLoss.mkOrderPayload (StopLoss.marketTicker sl)
                   (StopLoss.side sl) "market" q) with
        | inl _ => ORDER_FAILED
        | inr _ => FILLED
        end
  end.

(** Number of [close()] calls made so far on a socket of a store. *)
Definition closeCalls_at {W : Type} (ws_of : W -> Ws.WebSocket)
           (l : list W) (i : nat) : nat :=
  match nth_error l i with
  | Some w => Ws.closeCalls (ws_of w)
  | None => 0
  end.

(** Socket [i] of a store is CONNECTING or OPEN: it exists, no [close()]
    was called on it and it has not closed. *)
Definition live_at {W : Type} (ws_of : W -> Ws.WebSocket)
           (l : list W) (i : nat) : bool :=
  match nth_error l i with
  | Some w => Ws.live (ws_of w)
  | None => false
  end.

(** A market_ticker frame carrying [data]. *)
Definition tick (data : MarketUpdate) : Raw :=
  Parsed (mkMsg "market_ticker" (Some data)).

(** The watched side has no usable price in a tick: absent, or zero. *)
Definition unusable (p : option float) : bool :=
  match p with
  | None => true
  | Some x => is_zero x
  end.

(** Sample watchers and ticks of the spec's examples: base price 0.50,
    threshold 10, ticker T, YES side. *)
Definition sl_050_10 : StopLoss.StopLossOrder :=
  StopLoss.mkStopLossOrder "1234" "T" yes 0.5 10 "key" "pem".

Definition alert_050_10 : Alert.PriceAlert :=
  Alert.mkPriceAlert "1234" "T" yes 0.5 10 "key" "pem".

Definition position_050_10 : PositionAlert.PositionAlert :=
  PositionAlert.mkPositionAlert "1234" "T" yes 0.5 0.1 3 "key" "pem".

Definition yes_tick (p : float) : MarketUpdate := mkUpdate "T" (Some p) None.

(** The same watchers on the NO side, and a tick for T with both prices. *)
Definition sl_no_050_10 : StopLoss.StopLossOrder :=
  StopLoss.mkStopLossOrder "1234" "T" no 0.5 10 "key" "pem".

Definition alert_no_050_10 : Alert.PriceAlert :=
  Alert.mkPriceAlert "1234" "T" no 0.5 10 "key" "pem".

Definition position_no_050_10 : PositionAlert.PositionAlert :=
  PositionAlert.mkPositionAlert "1234" "T" no 0.5 0.1 3 "key" "pem".

Definition both_tick (y n : float) : MarketUpdate :=
  mkUpdate "T" (Some y) (Some n).

(** The trigger prices as the claims write them, in exact arithmetic on
    the rationals that the decimal numerals denote: b * (1 - d/100) for a
    stop-loss and b * (1 + t/100) for an alert.  The program computes the
    same expressions in binary64 ([StopLoss.triggerPrice],
    [Alert.triggerPrice]). *)
Definition spec_stoploss_trigger (b d : Q) : Q := (b * (1 - d / 100))%Q.

Definition spec_alert_trigger (b t : Q) : Q := (b * (1 + t / 100))%Q.

(** The fetched positions hold no entry for the watcher's ticker, or the
    entry for it has size at most 0 (spec 4.4, step 1).  This is said of
    the list that was fetched: the body has no list, or no element of the
    list carries the ticker, or the first element that carries it ([pos],
    after the elements [before], none of which does) has size at most 0. *)
Inductive no_position (sl : StopLoss.StopLossOrder)
          (d : StopLoss.PositionsData) : Prop :=
| no_list :
    StopLoss.market_positions d = None -> no_position sl d
| no_entry (ps : list StopLoss.Position) :
    StopLoss.market_positions d = Some ps ->
    (forall pos, In pos ps ->
                 StopLoss.ticker pos <> StopLoss.marketTicker sl) ->
    no_position sl d
| empty_entry (before : list StopLoss.Position) (pos : StopLoss.Position)
              (rest : list StopLoss.Position) :
    StopLoss.market_positions d = Some (before ++ pos :: rest)%list ->
    (forall x, In x before ->
               StopLoss.ticker x <> StopLoss.marketTicker sl) ->
    StopLoss.ticker pos = StopLoss.marketTicker sl ->
    (StopLoss.position_fp pos <=? 0)%float = true ->
    no_position sl d.

(** Discord answers: the user is found and the embed accepted; or
    [users.fetch] rejects (an unknown user, a network error). *)
Definition discord_ok : Discord := mkDiscord true true.

Definition discord_down : Discord := mkDiscord false true.

(** A venue that holds no position at all. *)
Definition empty_venue : StopLoss.Venue :=
  StopLoss.mkVenue (inr (StopLoss.mkPositionsData (Some [])))
                   (fun _ => inr (StopLoss.mkOrderResult None))
                   discord_ok.

(** The configuration captured by the closures of socket [ws]. *)
Definition cfg_at (st : StopLoss.State) (ws : nat)
  : option StopLoss.StopLossOrder :=
  option_map StopLoss.w_stopLoss (nth_error (StopLoss.sockets st) ws).

(** The same for the alert manager, and what its registry satisfies in
    every state the event loop reaches: every entry names a socket started
    for that key. *)
Definition alert_cfg_at (st : Alert.State) (ws : nat) : option Alert.PriceAlert :=
  option_map Alert.w_alert (nth_error (Alert.sockets st) ws).

Definition alert_names (st : Alert.State) : Prop :=
  forall k ws,
    JsMap.get k (Alert.activeAlerts st) = Some ws ->
    exists a, alert_cfg_at st ws = Some a /\ Alert.alertId a = k.

(** Number of [close()] calls on socket [ws] of the stop-loss manager. *)
Definition closes (st : StopLoss.State) (ws : nat) : nat :=
  closeCalls_at StopLoss.w_ws (StopLoss.sockets st) ws.

(** What holds of the stop-loss manager in every state the event loop
    reaches: the client is set, the registry has one entry per key, every
    entry names a socket started for that key, and every suspended handler
    belongs to a socket. *)
Record wf (st : StopLoss.State) : Prop := mkWf {
  wf_client : StopLoss.discordClient st <> None;
  wf_nodup : NoDup (JsMap.keys (StopLoss.activeStopLosses st));
  wf_active :
    forall k ws,
      JsMap.get k (StopLoss.activeStopLosses st) = Some ws ->
      exists sl, cfg_at st ws = Some sl /\ StopLoss.stopLossId sl = k;
  wf_suspended :
    forall s, In s (StopLoss.suspended st) ->
              cfg_at st (StopLoss.s_ws s) <> None
}.

(** The reason the pipeline reports when it does not end in FILLED. *)
Definition failure_reason (sl : StopLoss.StopLossOrder)
           (venue : StopLoss.Venue) : option string :=
  match StopLoss.getPositions venue with
  | inl err => Some (StopLoss.reason err)
  | inr d =>
      let q := StopLoss.positionQuantity sl d in
      if (q <=? 0)%float then Some "Position not found"
      else
        match StopLoss.postOrder venue
                (StopLoss.mkOrderPayload (StopLoss.marketTicker sl)
                   (StopLoss.side sl) "market" q) with
        | inl err => Some (StopLoss.reason err)
        | inr _ => None
        end
  end.

(** The state after the events [es], from the state in which the client
    has just been set; [init] when some event cannot occur. *)
Definition after (es : list StopLoss.Event) : StopLoss.State :=
  match StopLoss.run es (StopLoss.setDiscordClient 0 StopLoss.init) with
  | Some st => st
  | None => StopLoss.init
  end.

(** One stop-loss of the sample set, connected, has just fired on a tick
    at 0.45 and waits for its pipeline. *)
Definition fired_trace : list StopLoss.Event :=
  [ StopLoss.Start sl_050_10 true;
    StopLoss.OnOpen 0;
    StopLoss.OnMessage 0 (tick (yes_tick 0.45)) ].

(** A venue that holds 5 contracts of T and refuses the order. *)
Definition refusing_venue : StopLoss.Venue :=
  StopLoss.mkVenue
    (inr (StopLoss.mkPositionsData (Some [StopLoss.mkPosition "T" 5])))
    (fun _ => inl (StopLoss.ErrorObj "Request failed with status code 400"))
    discord_ok.

(** A venue that holds 5 contracts of T and fills the order. *)
Definition filling_venue : StopLoss.Venue :=
  StopLoss.mkVenue
    (inr (StopLoss.mkPositionsData (Some [StopLoss.mkPosition "T" 5])))
    (fun payload =>
       inr (StopLoss.mkOrderResult
              (Some (StopLoss.mkOrder "O123" (StopLoss.op_quantity payload)
                                      (Some "executed")))))
    discord_ok.

(** The same venue when [users.fetch] rejects. *)
Definition filling_venue_discord_down : StopLoss.Venue :=
  StopLoss.mkVenue (StopLoss.getPositions filling_venue)
                   (StopLoss.postOrder filling_venue)
                   discord_down.

(** A venue that holds 5 contracts of another market and, after it, an
    entry for T of size 0. *)
Definition flat_venue : StopLoss.Venue :=
  StopLoss.mkVenue
    (inr (StopLoss.mkPositionsData
            (Some [StopLoss.mkPosition "OTHER" 5; StopLoss.mkPosition "T" 0])))
    (fun _ => inr (StopLoss.mkOrderResult None))
    discord_ok.

(** A venue that holds 7 contracts of another market and, after them, 3
    of T, and fills the order. *)
Definition two_positions_venue : StopLoss.Venue :=
  StopLoss.mkVenue
    (inr (StopLoss.mkPositionsData
            (Some [StopLoss.mkPosition "OTHER" 7; StopLoss.mkPosition "T" 3])))
    (StopLoss.postOrder filling_venue)
    discord_ok.

(** A venue that holds 5 contracts of T and answers the order without a
    status. *)
Definition pending_venue : StopLoss.Venue :=
  StopLoss.mkVenue
    (inr (StopLoss.mkPositionsData (Some [StopLoss.mkPosition "T" 5])))
    (fun _ => inr (StopLoss.mkOrderResult
                     (Some (StopLoss.mkOrder "O123" 5 None))))
    discord_ok.

(** The same stop-loss is started three times; the ['close'] event of the
    first socket arrives between the second and the third start. *)
Definition restart_trace : list StopLoss.Event :=
  [ StopLoss.Start sl_050_10 true; StopLoss.OnOpen 0;
    StopLoss.Start sl_050_10 true; StopLoss.OnOpen 1;
    StopLoss.OnClose 0;
    StopLoss.Start sl_050_10 true; StopLoss.OnOpen 2 ].

(** The same stop-loss is started twice and the ['close'] event of the
    first socket arrives; then stop is called for the key, a tick at 0.45
    reaches the second socket and its pipeline settles. *)
Definition orphan_trace : list StopLoss.Event :=
  [ StopLoss.Start sl_050_10 true; StopLoss.OnOpen 0;
    StopLoss.Start sl_050_10 true; StopLoss.OnOpen 1;
    StopLoss.OnClose 0 ].

Definition orphan_stop_tick : list StopLoss.Event :=
  (orphan_trace ++
   [ StopLoss.Stop "1234" "T" "yes";
     StopLoss.OnMessage 1 (tick (yes_tick 0.45));
     StopLoss.Resume 1 filling_venue ])%list.

(** A stop-loss is started and connected, then stopped; a tick at 0.45
    arrives on the closing socket and the pipeline settles. *)
Definition stop_then_tick : list StopLoss.Event :=
  [ StopLoss.Start sl_050_10 true; StopLoss.OnOpen 0;
    StopLoss.Stop "1234" "T" "yes";
    StopLoss.OnMessage 0 (tick (yes_tick 0.45));
    StopLoss.Resume 0 filling_venue ].

(** Then one tick at 0.45 reaches both open sockets and both pipelines
    settle. *)
Definition restart_then_tick : list StopLoss.Event :=
  (restart_trace ++
   [ StopLoss.OnMessage 1 (tick (yes_tick 0.45));
     StopLoss.OnMessage 2 (tick (yes_tick 0.45));
     StopLoss.Resume 1 filling_venue;
     StopLoss.Resume 2 filling_venue ])%list.

(** The same three starts in the alert manager. *)
Definition restart_trace_alert : list Alert.Event :=
  [ Alert.Start alert_050_10 true; Alert.OnOpen 0;
    Alert.Start alert_050_10 true; Alert.OnOpen 1;
    Alert.OnClose 0;
    Alert.Start alert_050_10 true; Alert.OnOpen 2 ].

(** Two starts and the ['close'] event of the first socket, in the alert
    manager. *)
Definition orphan_trace_alert : list Alert.Event :=
  [ Alert.Start alert_050_10 true; Alert.OnOpen 0;
    Alert.Start alert_050_10 true; Alert.OnOpen 1;
    Alert.OnClose 0 ].

(** An alert is started and connected, two ticks at or above the trigger
    price arrive one after the other, then both [sendAlert] calls settle. *)
Definition two_ticks_trace : list Alert.Event :=
  [ Alert.Start alert_050_10 true; Alert.OnOpen 0;
    Alert.OnMessage 0 (tick (yes_tick 0.55));
    Alert.OnMessage 0 (tick (yes_tick 0.56));
    Alert.Resume 0 (Alert.mkAnswers None discord_ok);
    Alert.Resume 0 (Alert.mkAnswers None discord_ok) ].

(** The state of the alert manager after the events [es], from the state
    in which the client has just been set. *)
Definition after_alert (es : list Alert.Event) : Alert.State :=
  match Alert.run es (Alert.setDiscordClient 0 Alert.init) with
  | Some st => st
  | None => Alert.init
  end.

(** The same two ticks for the stop-loss of the sample set. *)
Definition two_ticks_stoploss : list StopLoss.Event :=
  [ StopLoss.Start sl_050_10 true; StopLoss.OnOpen 0;
    StopLoss.OnMessage 0 (tick (yes_tick 0.45));
    StopLoss.OnMessage 0 (tick (yes_tick 0.44)) ].

(** The bodies of the stop-all loops, over what they use of a manager:
    its registry, [close()] on a socket and [delete] of a key.  The loops
    of [stopAllStopLosses] and [stopAllAlerts] stop one key at a time, the
    loop of [stopAllAlertsForUser] walks the entries and counts. *)
Definition stop_one {State : Type} (active : State -> JsMap.t nat)
           (close : nat -> State -> State) (delete : string -> State -> State)
           (s : State) (id : string) : State :=
  delete id
    match JsMap.get id (active s) with
    | Some ws => close ws s
    | None => s
    end.

Definition stop_entry {State : Type}
           (close : nat -> State -> State) (delete : string -> State -> State)
           (discordId : string) (acc : nat * State) (e : string * nat)
  : nat * State :=
  let (count, s) := acc in
  let (key, ws) := e in
  if Js.startsWith key discordId
  then (S count, delete key (close ws s))
  else (count, s).

(** The flag [hasExecuted] of socket [ws], and the number of handlers of
    that socket waiting for their pipeline. *)
Definition hasExecuted_at (st : StopLoss.State) (ws : nat) : bool :=
  match nth_error (StopLoss.sockets st) ws with
  | Some w => StopLoss.w_hasExecuted w
  | None => false
  end.

Definition pending_of (ws : nat) (st : StopLoss.State) : nat :=
  List.length (filter (fun s => Nat.eqb (StopLoss.s_ws s) ws)
                      (StopLoss.suspended st)).

(** Socket [ws] has fired and at most [n] of its pipelines are waiting. *)
Definition fired_and_bounded (ws n : nat) (st : StopLoss.State) : Prop :=
  hasExecuted_at st ws = true /\ pending_of ws st <= n.

(** A second stop-loss, of user 9, on the same ticker. *)
Definition sl_user9 : StopLoss.StopLossOrder :=
  StopLoss.mkStopLossOrder "9" "T" no 0.5 20 "key9" "pem9".

(** A frame that is not a market_ticker update for ticker [t]: it does not
    parse, has another type, carries no data, or names another ticker. *)
Definition foreign (t : string) (raw : Raw) : bool :=
  match raw with
  | Malformed => true
  | Parsed msg =>
      negb (String.eqb (msg_type msg) "market_ticker")
      || match msg_data msg with
         | None => true
         | Some data => negb (String.eqb (market_ticker data) t)
         end
  end.

(** The state after the events [es] when [setDiscordClient] was never
    called. *)
Definition after_unset (es : list StopLoss.Event) : StopLoss.State :=
  match StopLoss.run es StopLoss.init with
  | Some st => st
  | None => StopLoss.init
  end.



(** * Proofs *)

(** ** Numbers *)

Lemma SFcompare_refl_not_nan f :
  f <> S754_nan -> SFcompare f f = Some Eq.
Proof.
  destruct f as [s | s | | s m e]; simpl; intros Hn; try congruence.
  - destruct s; reflexivity.
  - rewrite BinInt.Z.compare_refl, BinPos.Pos.compare_cont_refl.
    destruct s; reflexivity.
Qed.

(** [NaN <= y] is false. *)
Lemma leb_nan_l x y : is_nan x = true -> (x <=? y)%float = false.
Proof.
  unfold is_nan. rewrite eqb_spec, leb_spec. unfold SFeqb, SFleb.
  destruct (Prim2SF x) as [s | s | | s m e] eqn:E; try reflexivity;
    rewrite SFcompare_refl_not_nan by congruence; discriminate.
Qed.

(** [x >= NaN] is false. *)
Lemma leb_nan_r x y : is_nan y = true -> (x <=? y)%float = false.
Proof.
  unfold is_nan. rewrite eqb_spec, leb_spec. unfold SFeqb, SFleb.
  destruct (Prim2SF y) as [s | s | | s m e] eqn:E;
    try (rewrite SFcompare_refl_not_nan by congruence; discriminate).
  intros _. destruct (Prim2SF x); reflexivity.
Qed.

Lemma truthy_not_zero p :
  is_zero p = false -> Js.truthy p = negb (is_nan p).
Proof. unfold Js.truthy. intros ->. reflexivity. Qed.

(** ** The JavaScript [Map] *)

Section JsMapFacts.
Context {V : Type}.
Implicit Types (m : JsMap.t V) (k : string) (v : V).

Lemma get_set_same k v m : JsMap.get k (JsMap.set k v m) = Some v.
Proof.
  induction m as [| [k' v'] r IH]; simpl.
  - now rewrite String.eqb_refl.
  - destruct (String.eqb k' k) eqn:E; simpl; rewrite E; auto.
Qed.

Lemma get_set_other k k' v m :
  k <> k' -> JsMap.get k' (JsMap.set k v m) = JsMap.get k' m.
Proof.
  intros Hne. induction m as [| [k0 v0] r IH]; simpl.
  - destruct (String.eqb_spec k k'); congruence.
  - destruct (String.eqb_spec k0 k) as [-> | Hk]; simpl.
    + destruct (String.eqb_spec k k'); congruence.
    + now rewrite IH.
Qed.

Lemma get_delete_same k m : JsMap.get k (JsMap.delete k m) = None.
Proof.
  induction m as [| [k' v'] r IH]; simpl; auto.
  destruct (String.eqb k' k) eqn:E; simpl; rewrite ?E; auto.
Qed.

Lemma get_delete_other k k' m :
  k <> k' -> JsMap.get k' (JsMap.delete k m) = JsMap.get k' m.
Proof.
  intros Hne. induction m as [| [k0 v0] r IH]; simpl; auto.
  destruct (String.eqb_spec k0 k) as [-> | Hk]; simpl.
  - rewrite IH. destruct (String.eqb_spec k k'); congruence.
  - now rewrite IH.
Qed.

Lemma in_keys_get k m :
  In k (JsMap.keys m) <-> JsMap.get k m <> None.
Proof.
  induction m as [| [k' v'] r IH]; simpl.
  - split; [tauto | congruence].
  - destruct (String.eqb_spec k' k) as [-> | Hk].
    + split; [discriminate | auto].
    + rewrite <- IH. split; [intros [H | H]; congruence || auto | auto].
Qed.

Lemma keys_set_present k v m :
  JsMap.get k m <> None -> JsMap.keys (JsMap.set k v m) = JsMap.keys m.
Proof.
  induction m as [| [k' v'] r IH]; simpl; [congruence |].
  destruct (String.eqb_spec k' k) as [-> | Hk]; simpl; intros H.
  - reflexivity.
  - f_equal. apply IH, H.
Qed.

Lemma keys_set_absent k v m :
  JsMap.get k m = None -> JsMap.keys (JsMap.set k v m) = (JsMap.keys m ++ [k])%list.
Proof.
  induction m as [| [k' v'] r IH]; simpl; [reflexivity |].
  destruct (String.eqb_spec k' k) as [-> | Hk]; simpl; intros H.
  - discriminate.
  - f_equal. apply IH, H.
Qed.

Lemma in_keys_delete x k m :
  In x (JsMap.keys (JsMap.delete k m)) <-> x <> k /\ In x (JsMap.keys m).
Proof.
  induction m as [| [k' v'] r IH]; simpl; [tauto |].
  destruct (String.eqb_spec k' k) as [-> | Hk]; simpl; rewrite IH.
  - split; [tauto | intros [Hx [H | H]]; [congruence | tauto]].
  - split; [intros [H | H]; [subst; tauto | tauto] | tauto].
Qed.

Lemma NoDup_keys_delete k m :
  NoDup (JsMap.keys m) -> NoDup (JsMap.keys (JsMap.delete k m)).
Proof.
  induction m as [| [k' v'] r IH]; simpl; intros H; [constructor |].
  inversion H as [| ? ? Hin Hnd]; subst.
  destruct (String.eqb k' k); simpl; auto.
  constructor; auto. rewrite in_keys_delete. tauto.
Qed.

Lemma NoDup_keys_set k v m :
  NoDup (JsMap.keys m) -> NoDup (JsMap.keys (JsMap.set k v m)).
Proof.
  intros H. destruct (JsMap.get k m) eqn:E.
  - rewrite keys_set_present by congruence. exact H.
  - rewrite keys_set_absent by exact E.
    apply NoDup_app; repeat split; auto.
    + constructor; [simpl; tauto | constructor].
    + intros x Hx [-> | []]. apply in_keys_get in Hx. congruence.
Qed.

Lemma has_get k m :
  JsMap.has k m = true <-> JsMap.get k m <> None.
Proof. unfold JsMap.has. destruct (JsMap.get k m); split; congruence. Qed.

End JsMapFacts.

(** ** Lists updated at one index *)

Lemma upd_length {A} i (f : A -> A) l : List.length (upd i f l) = List.length l.
Proof.
  revert i. induction l as [| x r IH]; intros [| j]; simpl; auto.
Qed.

Lemma nth_error_upd_same {A} i (f : A -> A) l :
  nth_error (upd i f l) i = option_map f (nth_error l i).
Proof.
  revert i. induction l as [| x r IH]; intros [| j]; simpl; auto.
Qed.

Lemma nth_error_upd_other {A} i j (f : A -> A) l :
  i <> j -> nth_error (upd i f l) j = nth_error l j.
Proof.
  revert i j. induction l as [| x r IH]; intros [| i] [| j] H; simpl; auto.
  congruence.
Qed.

(** ** The trigger evaluators *)

Ltac open_tick Ht Hp :=
  cbn [tick msg_type msg_data]; rewrite ?String.eqb_refl; cbn [negb];
  rewrite Ht, String.eqb_refl; cbn [negb]; rewrite Hp.

(** [0 >= t] is false for a positive [t], whatever the sign of the zero. *)
Lemma zero_below_positive t p :
  (0 <? t)%float = true -> is_zero p = true -> (t <=? p)%float = false.
Proof.
  unfold is_zero. rewrite ltb_spec, eqb_spec, leb_spec.
  replace (Prim2SF 0) with (S754_zero false) by reflexivity.
  unfold SFltb, SFeqb, SFleb.
  destruct (Prim2SF t) as [st | st | | st mt et];
    destruct (Prim2SF p) as [sp | sp | | sp mp ep]; cbn;
      try discriminate; try reflexivity;
        destruct st; try discriminate; try reflexivity;
          destruct sp; cbn; try discriminate; reflexivity.
Qed.

(** C3, as stated, fails.  With base price 0.50 and drop percentage 90 the
    trigger price of the claim is 0.5 * (1 - 90/100) = 0.05, so a tick at
    0.05 is at the trigger price, and the handler decides NONE: the program
    computes 1 - 90/100 in binary64 and gets a trigger price just below
    the number that 0.05 denotes. *)
Lemma C3_exact_equality_not_armed :
  let b := (1 # 2)%Q in
  let d := (90 # 1)%Q in
  let p := (5 # 100)%Q in
  let sl := StopLoss.mkStopLossOrder "1234" "T" yes (Js.number b) (Js.number d)
                                     "key" "pem" in
  let data := mkUpdate "T" (Some (Js.number p)) None in
  (p == spec_stoploss_trigger b d)%Q
  /\ (p <= spec_stoploss_trigger b d)%Q
  /\ yes_price data = Some (Js.number p)
  /\ is_zero (Js.number p) = false
  /\ StopLoss.onMessage sl false (tick data) = NONE.
Proof.
  cbv zeta. split; [reflexivity |].
  split; [vm_compute; discriminate |].
  split; [reflexivity |]. split; vm_compute; reflexivity.
Qed.

(** C3 (amended). Stop-loss: for a watcher that has not fired, with base
    price b and drop percentage d, and a market_ticker tick for its ticker
    whose watched-side price p (yes_price for a YES watcher, no_price for a
    NO watcher) is present and nonzero, the handler decides ARMED exactly
    when p <= b * (1 - d / 100) with the right-hand side computed in
    binary64, as the program computes it; equality with that computed
    trigger price triggers.  With b = 0.50 and d = 10 the computed trigger
    price is the number 0.45 denotes: 0.45 triggers, 0.450001 does not. *)
Theorem C3_stoploss_armed_iff :
  forall (sl : StopLoss.StopLossOrder) (data : MarketUpdate) (p : float),
    market_ticker data = StopLoss.marketTicker sl ->
    (StopLoss.side sl = yes /\ yes_price data = Some p)
    \/ (StopLoss.side sl = no /\ no_price data = Some p) ->
    is_zero p = false ->
    (StopLoss.onMessage sl false (tick data) = ARMED p data
     <-> (p <=? StopLoss.basePrice sl
                * (1 - StopLoss.dropPercentage sl / 100))%float = true)
    /\ (StopLoss.basePrice sl = 0.5%float ->
        StopLoss.dropPercentage sl = 10%float ->
        (StopLoss.basePrice sl * (1 - StopLoss.dropPercentage sl / 100))%float
        = Js.number (45 # 100)
        /\ (p = Js.number (45 # 100) ->
            StopLoss.onMessage sl false (tick data) = ARMED p data)
        /\ (p = Js.number (450001 # 1000000) ->
            StopLoss.onMessage sl false (tick data) = NONE)).
Proof.
  intros sl data p Ht Hside Hz.
  assert (Hp : StopLoss.currentPrice_of (StopLoss.side sl) data = Some p).
  { destruct Hside as [[-> H] | [-> H]]; exact H. }
  assert (Hdec : StopLoss.onMessage sl false (tick data)
                 = if negb (is_nan p) && (p <=? StopLoss.triggerPrice sl)%float
                   then ARMED p data else NONE).
  { unfold StopLoss.onMessage. open_tick Ht Hp.
    rewrite (truthy_not_zero p Hz).
    destruct (is_nan p); cbn [negb andb]; [reflexivity |].
    rewrite andb_true_r. reflexivity. }
  split.
  - rewrite Hdec. fold (StopLoss.triggerPrice sl).
    destruct (is_nan p) eqn:En; cbn [negb andb].
    + rewrite (leb_nan_l p _ En). split; discriminate.
    + destruct (p <=? StopLoss.triggerPrice sl)%float; split; congruence.
  - intros Hb Hd. rewrite Hdec. unfold StopLoss.triggerPrice.
    rewrite Hb, Hd. split; [reflexivity |].
    split; intros ->; reflexivity.
Qed.

Lemma C3_stoploss_armed_iff_witness :
  StopLoss.onMessage sl_050_10 false (tick (yes_tick 0.45)) = ARMED 0.45 (yes_tick 0.45)
  /\ StopLoss.onMessage sl_050_10 false (tick (yes_tick 0.450001)) = NONE
  /\ StopLoss.onMessage sl_no_050_10 false (tick (both_tick 0.9 0.45))
     = ARMED 0.45 (both_tick 0.9 0.45).
Proof.
  split; [| split].
  - apply (proj1 (proj2 (proj2 (C3_stoploss_armed_iff sl_050_10 (yes_tick 0.45) 0.45
                    eq_refl (or_introl (conj eq_refl eq_refl)) eq_refl)
                    eq_refl eq_refl))); reflexivity.
  - apply (proj2 (proj2 (proj2 (C3_stoploss_armed_iff sl_050_10
                    (yes_tick 0.450001) 0.450001
                    eq_refl (or_introl (conj eq_refl eq_refl)) eq_refl)
                    eq_refl eq_refl))); reflexivity.
  - apply (proj1 (C3_stoploss_armed_iff sl_no_050_10 (both_tick 0.9 0.45) 0.45
                    eq_refl (or_intror (conj eq_refl eq_refl)) eq_refl));
      reflexivity.
Defined.

(** C4, as stated, fails.  With base price 0.50 and threshold 14 the
    trigger price of the claim is 0.5 * (1 + 14/100) = 0.57, so a tick at
    0.57 is at the trigger price, and the handler of AlertManager decides
    NONE: the program computes 1 + 14/100 in binary64 and gets a trigger
    price just above the number that 0.57 denotes. *)
Lemma C4_exact_equality_not_armed :
  let b := (1 # 2)%Q in
  let t := (14 # 1)%Q in
  let p := (57 # 100)%Q in
  let a := Alert.mkPriceAlert "1234" "T" yes (Js.number b) (Js.number t)
                              "key" "pem" in
  let data := mkUpdate "T" (Some (Js.number p)) None in
  (p == spec_alert_trigger b t)%Q
  /\ (spec_alert_trigger b t <= p)%Q
  /\ yes_price data = Some (Js.number p)
  /\ Alert.onMessage a (tick data) = NONE.
Proof.
  cbv zeta. split; [reflexivity |].
  split; [vm_compute; discriminate |].
  split; [reflexivity |]. vm_compute; reflexivity.
Qed.

(** C4 (amended). AlertManager: for a market_ticker tick for the alert's
    ticker whose watched-side price p (yes_price for a YES alert, no_price
    for a NO alert) is present, and is not zero or meets a positive trigger
    price, the handler decides ARMED exactly when p >= b * (1 + t / 100)
    with the right-hand side computed in binary64, as the program computes
    it; equality with that computed trigger price triggers.  With b = 0.50
    and t = 10 the computed trigger price is the number 0.55 denotes: 0.55
    triggers, 0.549999 does not.  startPositionAlert: the threshold is a
    fraction, and for a present price p the handler of a watcher that has
    not fired decides ARMED exactly when p >= b * (1 + threshold), computed
    in binary64. *)
Theorem C4_alert_armed_iff :
  forall (a : Alert.PriceAlert) (pa : PositionAlert.PositionAlert)
         (data : MarketUpdate) (p : float),
    (market_ticker data = Alert.marketTicker a ->
     (Alert.side a = yes /\ yes_price data = Some p)
     \/ (Alert.side a = no /\ no_price data = Some p) ->
     is_zero p = false
     \/ (0 <? Alert.basePrice a
              * (1 + Alert.percentageThreshold a / 100))%float = true ->
     (Alert.onMessage a (tick data) = ARMED p data
      <-> geb p (Alert.basePrice a
                 * (1 + Alert.percentageThreshold a / 100)) = true)
     /\ (Alert.basePrice a = 0.5%float ->
         Alert.percentageThreshold a = 10%float ->
         (Alert.basePrice a * (1 + Alert.percentageThreshold a / 100))%float
         = Js.number (55 # 100)
         /\ (p = Js.number (55 # 100) ->
             Alert.onMessage a (tick data) = ARMED p data)
         /\ (p = Js.number (549999 # 1000000) ->
             Alert.onMessage a (tick data) = NONE)))
    /\ (market_ticker data = PositionAlert.marketTicker pa ->
        (PositionAlert.side pa = yes /\ yes_price data = Some p)
        \/ (PositionAlert.side pa = no /\ no_price data = Some p) ->
        (PositionAlert.onMessage pa false (tick data) = ARMED p data
         <-> geb p (PositionAlert.basePrice pa
                    * (1 + PositionAlert.threshold pa)) = true)).
Proof.
  intros a pa data p. split.
  - intros Ht Hside Hz.
    assert (Hp : Alert.currentPrice_of (Alert.side a) data = Some p).
    { destruct Hside as [[-> H] | [-> H]]; exact H. }
    assert (Hdec : Alert.onMessage a (tick data)
                   = if Js.truthy p && geb p (Alert.triggerPrice a)
                     then ARMED p data else NONE).
    { unfold Alert.onMessage. open_tick Ht Hp.
      destruct (Js.truthy p); reflexivity. }
    assert (Hgeb : geb p (Alert.triggerPrice a) = true -> Js.truthy p = true).
    { intros Hg. unfold Js.truthy.
      destruct (is_nan p) eqn:En.
      - unfold geb in Hg. rewrite (leb_nan_r _ p En) in Hg. discriminate.
      - rewrite orb_false_r. destruct (is_zero p) eqn:Ez; [| reflexivity].
        destruct Hz as [Hz | Hpos]; [discriminate |].
        unfold geb in Hg. fold (Alert.triggerPrice a) in Hpos.
        rewrite (zero_below_positive _ p Hpos Ez) in Hg. discriminate. }
    split.
    + rewrite Hdec. fold (Alert.triggerPrice a).
      destruct (geb p (Alert.triggerPrice a)) eqn:Eg.
      * rewrite (Hgeb eq_refl). split; reflexivity.
      * rewrite andb_false_r. split; discriminate.
    + intros Hb Hd. rewrite Hdec. unfold Alert.triggerPrice.
      rewrite Hb, Hd. split; [reflexivity |].
      split; intros ->; reflexivity.
  - intros Ht Hside.
    assert (Hp : PositionAlert.currentPrice_of (PositionAlert.side pa) data
                 = Some p).
    { destruct Hside as [[-> H] | [-> H]]; exact H. }
    unfold PositionAlert.onMessage. open_tick Ht Hp.
    fold (PositionAlert.triggerPrice pa). rewrite andb_true_r.
    destruct (geb p (PositionAlert.triggerPrice pa)); split; congruence.
Qed.

Lemma C4_alert_armed_iff_witness :
  Alert.onMessage alert_050_10 (tick (yes_tick 0.55)) = ARMED 0.55 (yes_tick 0.55)
  /\ Alert.onMessage alert_050_10 (tick (yes_tick 0.549999)) = NONE
  /\ Alert.onMessage alert_no_050_10 (tick (both_tick 0.1 0.55))
     = ARMED 0.55 (both_tick 0.1 0.55)
  /\ PositionAlert.onMessage position_050_10 false (tick (yes_tick 0.55))
     = ARMED 0.55 (yes_tick 0.55)
  /\ PositionAlert.onMessage position_no_050_10 false (tick (both_tick 0.1 0.55))
     = ARMED 0.55 (both_tick 0.1 0.55).
Proof.
  split; [| split; [| split; [| split]]].
  - apply (proj1 (proj2 (proj2 (proj1 (C4_alert_armed_iff alert_050_10
                           position_050_10 (yes_tick 0.55) 0.55)
                           eq_refl (or_introl (conj eq_refl eq_refl))
                           (or_introl eq_refl))
                 eq_refl eq_refl))); reflexivity.
  - apply (proj2 (proj2 (proj2 (proj1 (C4_alert_armed_iff alert_050_10
                           position_050_10 (yes_tick 0.549999) 0.549999)
                           eq_refl (or_introl (conj eq_refl eq_refl))
                           (or_intror eq_refl))
                 eq_refl eq_refl))); reflexivity.
  - apply (proj1 (proj1 (C4_alert_armed_iff alert_no_050_10 position_050_10
                           (both_tick 0.1 0.55) 0.55)
                           eq_refl (or_intror (conj eq_refl eq_refl))
                           (or_introl eq_refl)));
      reflexivity.
  - apply (proj2 (C4_alert_armed_iff alert_050_10 position_050_10
                    (yes_tick 0.55) 0.55) eq_refl
                 (or_introl (conj eq_refl eq_refl))); reflexivity.
  - apply (proj2 (C4_alert_armed_iff alert_050_10 position_no_050_10
                    (both_tick 0.1 0.55) 0.55) eq_refl
                 (or_intror (conj eq_refl eq_refl))); reflexivity.
Defined.

(** C5. StopLossManager and AlertManager: a tick in which the price of the
    watched side is absent or zero is ignored: the handler decides NONE
    whatever the watcher's configuration and flag, and the turn of the
    event loop leaves the state as it was (no pipeline is started, nothing
    is sent). *)
Theorem C5_unusable_price_ignored :
  forall (msg : Msg) (data : MarketUpdate),
    msg_data msg = Some data ->
    (forall sl hasExecuted,
        unusable (StopLoss.currentPrice_of (StopLoss.side sl) data) = true ->
        StopLoss.onMessage sl hasExecuted (Parsed msg) = NONE)
    /\ (forall st ws w,
           nth_error (StopLoss.sockets st) ws = Some w ->
           unusable (StopLoss.currentPrice_of
                       (StopLoss.side (StopLoss.w_stopLoss w)) data) = true ->
           StopLoss.handleMessage ws (Parsed msg) st = st)
    /\ (forall a,
           unusable (Alert.currentPrice_of (Alert.side a) data) = true ->
           Alert.onMessage a (Parsed msg) = NONE)
    /\ (forall st ws w,
           nth_error (Alert.sockets st) ws = Some w ->
           unusable (Alert.currentPrice_of
                       (Alert.side (Alert.w_alert w)) data) = true ->
           Alert.handleMessage ws (Parsed msg) st = st).
Proof.
  intros msg data Hd.
  assert (SL : forall sl h,
             unusable (StopLoss.currentPrice_of (StopLoss.side sl) data) = true ->
             StopLoss.onMessage sl h (Parsed msg) = NONE).
  { intros sl h Hu. unfold StopLoss.onMessage. rewrite Hd.
    destruct (negb (msg_type msg =? "market_ticker")); [reflexivity |].
    destruct (negb (market_ticker data =? StopLoss.marketTicker sl));
      [reflexivity |].
    destruct (StopLoss.currentPrice_of (StopLoss.side sl) data) as [p |];
      [| reflexivity].
    cbn [unusable] in Hu. unfold Js.truthy. rewrite Hu. reflexivity. }
  assert (AL : forall a,
             unusable (Alert.currentPrice_of (Alert.side a) data) = true ->
             Alert.onMessage a (Parsed msg) = NONE).
  { intros a Hu. unfold Alert.onMessage. rewrite Hd.
    destruct (negb (msg_type msg =? "market_ticker")); [reflexivity |].
    destruct (negb (market_ticker data =? Alert.marketTicker a));
      [reflexivity |].
    destruct (Alert.currentPrice_of (Alert.side a) data) as [p |];
      [| reflexivity].
    cbn [unusable] in Hu. unfold Js.truthy. rewrite Hu. reflexivity. }
  repeat split.
  - exact SL.
  - intros st ws w Hw Hu. unfold StopLoss.handleMessage.
    rewrite Hw, (SL _ _ Hu). reflexivity.
  - exact AL.
  - intros st ws w Hw Hu. unfold Alert.handleMessage.
    rewrite Hw, (AL _ Hu). reflexivity.
Qed.

Lemma C5_unusable_price_ignored_witness :
  StopLoss.onMessage sl_050_10 false (tick (mkUpdate "T" None (Some 0.3%float))) = NONE
  /\ StopLoss.onMessage sl_050_10 false (tick (yes_tick 0)) = NONE
  /\ Alert.onMessage alert_050_10 (tick (yes_tick 0)) = NONE.
Proof.
  split; [| split].
  - apply (proj1 (C5_unusable_price_ignored
                    (mkMsg "market_ticker" (Some (mkUpdate "T" None (Some 0.3%float))))
                    (mkUpdate "T" None (Some 0.3%float)) eq_refl)).
    reflexivity.
  - apply (proj1 (C5_unusable_price_ignored
                    (mkMsg "market_ticker" (Some (yes_tick 0)))
                    (yes_tick 0) eq_refl)).
    reflexivity.
  - apply (proj1 (proj2 (proj2 (C5_unusable_price_ignored
                    (mkMsg "market_ticker" (Some (yes_tick 0)))
                    (yes_tick 0) eq_refl)))).
    reflexivity.
Defined.

(** ** The execution pipeline *)

Lemma or_num_le_0 x :
  (x <=? 0)%float = true -> (Js.or_num x 0 <=? 0)%float = true.
Proof.
  intros H. unfold Js.or_num. destruct (Js.truthy x); [exact H | reflexivity].
Qed.

Lemma findPosition_none t ps :
  (forall pos, In pos ps -> StopLoss.ticker pos <> t) ->
  StopLoss.findPosition t ps = None.
Proof.
  unfold StopLoss.findPosition. induction ps as [| x r IH]; intros H.
  - reflexivity.
  - cbn. destruct (String.eqb_spec (StopLoss.ticker x) t) as [E | _].
    + exfalso. apply (H x); [left; reflexivity | exact E].
    + apply IH. intros pos Hin. apply H. right. exact Hin.
Qed.

Lemma findPosition_first t before pos rest :
  (forall x, In x before -> StopLoss.ticker x <> t) ->
  StopLoss.ticker pos = t ->
  StopLoss.findPosition t (before ++ pos :: rest)%list = Some pos.
Proof.
  unfold StopLoss.findPosition. intros H E.
  induction before as [| x r IH]; cbn.
  - rewrite E, String.eqb_refl. reflexivity.
  - destruct (String.eqb_spec (StopLoss.ticker x) t) as [Ex | _].
    + exfalso. apply (H x); [left; reflexivity | exact Ex].
    + apply IH. intros y Hin. apply H. right. exact Hin.
Qed.

Lemma no_position_quantity sl d :
  no_position sl d ->
  (StopLoss.positionQuantity sl d <=? 0)%float = true.
Proof.
  unfold StopLoss.positionQuantity.
  intros [E | ps E H | before pos rest E H Ht Hq]; rewrite E.
  - reflexivity.
  - rewrite (findPosition_none _ _ H). reflexivity.
  - rewrite (findPosition_first _ _ _ _ H Ht). apply or_num_le_0. exact Hq.
Qed.

Lemma sendStopLossDM_silent dc dis sl p d o e :
  reaches_send dis = false -> StopLoss.sendStopLossDM dc dis sl p d o e = [].
Proof.
  unfold reaches_send, StopLoss.sendStopLossDM. intros H.
  destruct dc; [| reflexivity].
  destruct (usersFetch dis); [| reflexivity].
  cbn in H. rewrite H. reflexivity.
Qed.

(** C6, as stated, fails: when [users.fetch] rejects, a run that found no
    position sends no notification at all (and submits no order). *)
Lemma C6_no_notification_when_discord_fails :
  let venue :=
    StopLoss.mkVenue (inr (StopLoss.mkPositionsData (Some [])))
                     (fun _ => inr (StopLoss.mkOrderResult None))
                     discord_down in
  let run :=
    StopLoss.executeSellOrder (Some 0) sl_050_10 0.45 (yes_tick 0.45) venue in
  (forall pos, In pos [] -> StopLoss.ticker pos <> StopLoss.marketTicker sl_050_10)
  /\ terminal sl_050_10 venue = NO_POSITION
  /\ run = [StopLoss.GetPositions "key"]
  /\ filter StopLoss.is_SendDM run = [].
Proof.
  cbv zeta. split; [intros pos [] |].
  split; [reflexivity |]. split; reflexivity.
Qed.

(** C6 (amended). A run of the pipeline that fetched the positions and
    found no entry for the watcher's ticker, or a first entry of size at
    most 0, ends in NO_POSITION and submits no order.  When Discord lets
    the sender reach user.send (users.fetch resolves, the embed is
    accepted), the run sends, after the fetch, one notification to the
    owner whose error field is the message "Position not found" (the
    phrase "position not found" up to letter case); otherwise the failure
    is caught and the run sends nothing. *)
Theorem C6_no_position_no_order :
  forall (dc : option DiscordClient) (sl : StopLoss.StopLossOrder)
         (currentPrice : float) (marketData : MarketUpdate)
         (venue : StopLoss.Venue) (d : StopLoss.PositionsData),
    let run := StopLoss.executeSellOrder dc sl currentPrice marketData venue in
    In (StopLoss.GetPositions (StopLoss.apiKey sl)) run ->
    StopLoss.getPositions venue = inr d ->
    no_position sl d ->
    terminal sl venue = NO_POSITION
    /\ filter StopLoss.is_PostOrder run = []
    /\ (reaches_send (StopLoss.discord venue) = true ->
        exists embed message,
          run = [ StopLoss.GetPositions (StopLoss.apiKey sl);
                  StopLoss.SendDM (StopLoss.userId sl) embed ]
          /\ In ("❌ Error", Code message) (fields embed)
          /\ message = "Position not found"
          /\ Js.includes (Js.toLowerCase message) "position not found" = true)
    /\ (reaches_send (StopLoss.discord venue) = false ->
        run = [ StopLoss.GetPositions (StopLoss.apiKey sl) ]).
Proof.
  intros dc sl cp md venue d run Hfetch Hget Hno.
  pose proof (no_position_quantity sl d Hno) as Hq.
  subst run. unfold terminal. rewrite Hget, Hq.
  destruct dc as [c |]; [| destruct Hfetch].
  unfold StopLoss.executeSellOrder. rewrite Hget, Hq.
  split; [reflexivity |].
  destruct (reaches_send (StopLoss.discord venue)) eqn:Er.
  - unfold reaches_send in Er. apply andb_prop in Er. destruct Er as [Eu Eb].
    unfold StopLoss.sendStopLossDM. rewrite Eu, Eb. cbn [negb].
    split; [reflexivity |]. split; [| discriminate].
    intros _. eexists; exists "Position not found".
    split; [reflexivity |].
    split; [| split; reflexivity].
    cbn [fields]. apply in_or_app. right. left. reflexivity.
  - rewrite (sendStopLossDM_silent _ _ _ _ _ _ _ Er).
    split; [reflexivity |]. split; [discriminate | reflexivity].
Qed.

Lemma C6_no_position_no_order_witness :
  let run :=
    StopLoss.executeSellOrder (Some 0) sl_050_10 0.45 (yes_tick 0.45)
                              flat_venue in
  filter StopLoss.is_PostOrder run = []
  /\ exists embed,
      run = [ StopLoss.GetPositions "key"; StopLoss.SendDM "1234" embed ]
      /\ In ("❌ Error", Code "Position not found") (fields embed).
Proof.
  cbv zeta.
  destruct (C6_no_position_no_order (Some 0) sl_050_10 0.45 (yes_tick 0.45)
              flat_venue
              (StopLoss.mkPositionsData
                 (Some [StopLoss.mkPosition "OTHER" 5; StopLoss.mkPosition "T" 0])))
    as [_ [Hno [Hsent _]]].
  - left. reflexivity.
  - reflexivity.
  - apply (empty_entry _ _ [StopLoss.mkPosition "OTHER" 5]
                       (StopLoss.mkPosition "T" 0) []).
    + reflexivity.
    + intros x [<- | []]. discriminate.
    + reflexivity.
    + reflexivity.
  - split; [exact Hno |].
    destruct (Hsent eq_refl) as [embed [message [Hrun [Hin [Hm _]]]]].
    exists embed. split; [exact Hrun |]. rewrite <- Hm. exact Hin.
Defined.

(** ** The stop-loss manager: what every reachable state satisfies *)

Lemma wf_ext st st' :
  wf st ->
  StopLoss.activeStopLosses st' = StopLoss.activeStopLosses st ->
  StopLoss.discordClient st' = StopLoss.discordClient st ->
  incl (StopLoss.suspended st') (StopLoss.suspended st) ->
  (forall ws, cfg_at st' ws = cfg_at st ws) ->
  wf st'.
Proof.
  intros [Hc Hn Ha Hs] Ea Ec Es Ecfg. constructor.
  - now rewrite Ec.
  - now rewrite Ea.
  - intros k ws. rewrite Ea, Ecfg. apply Ha.
  - intros x Hx. rewrite Ecfg. apply Hs, Es, Hx.
Qed.

Lemma cfg_at_upd st i f :
  (forall w, StopLoss.w_stopLoss (f w) = StopLoss.w_stopLoss w) ->
  forall j,
    cfg_at (StopLoss.with_sockets (upd i f (StopLoss.sockets st)) st) j
    = cfg_at st j.
Proof.
  intros Hf j. unfold cfg_at. cbn [StopLoss.with_sockets StopLoss.sockets].
  destruct (Nat.eq_dec i j) as [-> | Hij].
  - rewrite nth_error_upd_same.
    destruct (nth_error (StopLoss.sockets st) j); cbn; [now rewrite Hf | auto].
  - now rewrite nth_error_upd_other.
Qed.

Lemma cfg_at_close st ws j : cfg_at (StopLoss.close ws st) j = cfg_at st j.
Proof. apply cfg_at_upd. reflexivity. Qed.

Lemma wf_close st ws : wf st -> wf (StopLoss.close ws st).
Proof.
  intros H. apply (wf_ext st); auto using incl_refl.
  intros j. apply cfg_at_close.
Qed.

Lemma wf_set_readyState st ws r : wf st -> wf (StopLoss.set_readyState ws r st).
Proof.
  intros H. apply (wf_ext st); auto using incl_refl.
  apply cfg_at_upd. reflexivity.
Qed.

Lemma wf_delete st id : wf st -> wf (StopLoss.delete id st).
Proof.
  intros [Hc Hn Ha Hs]. constructor; cbn; auto.
  - now apply NoDup_keys_delete.
  - intros k ws Hk. destruct (String.eqb_spec id k) as [-> | Hne].
    + rewrite get_delete_same in Hk. discriminate.
    + rewrite get_delete_other in Hk by exact Hne. apply Ha, Hk.
Qed.

Lemma cfg_at_lt st ws : cfg_at st ws <> None -> ws < List.length (StopLoss.sockets st).
Proof.
  unfold cfg_at. intros H. apply nth_error_Some.
  destruct (nth_error (StopLoss.sockets st) ws); cbn in H; congruence.
Qed.

Lemma wf_startStopLoss st sl signs :
  wf st -> wf (StopLoss.startStopLoss sl signs st).
Proof.
  intros H. unfold StopLoss.startStopLoss.
  set (st1 := if JsMap.has _ _ then _ else st).
  assert (H1 : wf st1).
  { subst st1. destruct (JsMap.has _ _); [| exact H].
    destruct (JsMap.get _ _); [apply wf_close |]; exact H. }
  clearbody st1. destruct signs; [| exact H1].
  destruct H1 as [Hc Hn Ha Hs].
  assert (Hold : forall j, cfg_at st1 j <> None ->
                 cfg_at (StopLoss.with_active
                           (JsMap.set (StopLoss.stopLossId sl)
                              (List.length (StopLoss.sockets st1))
                              (StopLoss.activeStopLosses st1))
                           (StopLoss.with_sockets
                              (StopLoss.sockets st1
                               ++ [StopLoss.mkWatcher sl Ws.fresh false]) st1)) j
                 = cfg_at st1 j).
  { intros j Hj. unfold cfg_at. cbn.
    rewrite nth_error_app1 by (apply cfg_at_lt, Hj). reflexivity. }
  constructor; cbn.
  - exact Hc.
  - now apply NoDup_keys_set.
  - intros k ws Hk.
    destruct (String.eqb_spec (StopLoss.stopLossId sl) k) as [<- | Hne].
    + rewrite get_set_same in Hk. injection Hk as <-.
      exists sl. split; [| reflexivity].
      unfold cfg_at. cbn. rewrite nth_error_app2 by lia.
      rewrite Nat.sub_diag. reflexivity.
    + rewrite get_set_other in Hk by exact Hne.
      destruct (Ha k ws Hk) as [sl' [E1 E2]].
      exists sl'. split; [| exact E2].
      rewrite <- E1. apply Hold. congruence.
  - intros x Hx. specialize (Hs x Hx).
    fold (StopLoss.with_sockets
            (StopLoss.sockets st1 ++ [StopLoss.mkWatcher sl Ws.fresh false]) st1).
    intros E. apply Hs. rewrite <- E. symmetry.
    exact (Hold _ Hs).
Qed.

Lemma wf_stopStopLoss st u t s : wf st -> wf (snd (StopLoss.stopStopLoss u t s st)).
Proof.
  intros H. unfold StopLoss.stopStopLoss.
  destruct (JsMap.get _ _); cbn; [apply wf_delete, wf_close |]; exact H.
Qed.

Lemma wf_stop_fold l :
  forall st,
    wf st ->
    wf (fold_left
          (fun s id =>
             StopLoss.delete id
               match JsMap.get id (StopLoss.activeStopLosses s) with
               | Some ws => StopLoss.close ws s
               | None => s
               end) l st).
Proof.
  induction l as [| id r IH]; intros st H; cbn; [exact H |].
  apply IH, wf_delete. destruct (JsMap.get _ _); [apply wf_close |]; exact H.
Qed.

Lemma take_suspended_spec ws l s rest :
  StopLoss.take_suspended ws l = Some (s, rest) ->
  StopLoss.s_ws s = ws /\ In s l /\ incl rest l.
Proof.
  revert s rest. induction l as [| x r IH]; cbn; intros s rest H; [discriminate |].
  destruct (Nat.eqb_spec (StopLoss.s_ws x) ws) as [E | E].
  - injection H as <- <-. repeat split; auto. apply incl_tl, incl_refl.
  - destruct (StopLoss.take_suspended ws r) as [[y r'] |]; [| discriminate].
    injection H as <- <-. destruct (IH y r' eq_refl) as [E1 [E2 E3]].
    repeat split; auto.
    intros z [<- | Hz]; [now left | right; now apply E3].
Qed.

Lemma wf_handleMessage st ws raw : wf st -> wf (StopLoss.handleMessage ws raw st).
Proof.
  intros H. unfold StopLoss.handleMessage.
  destruct (nth_error (StopLoss.sockets st) ws) as [w |] eqn:Ew; [| exact H].
  destruct (StopLoss.onMessage _ _ _) as [| p d]; [exact H |].
  assert (Hcfg : forall j, cfg_at (StopLoss.set_hasExecuted ws st) j = cfg_at st j)
    by (apply cfg_at_upd; reflexivity).
  destruct H as [Hc Hn Ha Hs]. constructor; cbn; auto.
  - intros k ws' Hk. destruct (Ha k ws' Hk) as [sl [E1 E2]].
    exists sl. split; [| exact E2]. rewrite <- E1. apply Hcfg.
  - intros x Hx. apply in_app_or in Hx.
    change (cfg_at (StopLoss.set_hasExecuted ws st) (StopLoss.s_ws x) <> None).
    rewrite Hcfg. destruct Hx as [Hx | [<- | []]]; [now apply Hs |].
    unfold cfg_at. cbn. rewrite Ew. discriminate.
Qed.

Lemma wf_with_log st l :
  wf st ->
  wf (StopLoss.mkState (StopLoss.activeStopLosses st) (StopLoss.discordClient st)
                       (StopLoss.sockets st) (StopLoss.suspended st) l).
Proof. intros H. apply (wf_ext st); auto using incl_refl. Qed.

Lemma wf_resume st s venue : wf st -> wf (StopLoss.resume s venue st).
Proof.
  intros H. unfold StopLoss.resume.
  destruct (nth_error _ _); [| exact H].
  apply wf_delete, wf_close, wf_with_log, H.
Qed.

Lemma wf_handleClose st ws : wf st -> wf (StopLoss.handleClose ws st).
Proof.
  intros H. unfold StopLoss.handleClose.
  destruct (nth_error _ _); [apply wf_delete |]; exact H.
Qed.

Lemma wf_step e st st' : wf st -> StopLoss.step e st = Some st' -> wf st'.
Proof.
  intros H. destruct e; cbn.
  - intros [= <-]. now apply wf_startStopLoss.
  - intros [= <-]. now apply wf_stopStopLoss.
  - intros [= <-]. now apply wf_stop_fold.
  - destruct (StopLoss.readyState_of ws st) as [[] |]; try discriminate.
    intros [= <-]. now apply wf_set_readyState.
  - destruct (StopLoss.readyState_of ws st) as [[] |]; try discriminate;
      intros [= <-]; now apply wf_handleMessage.
  - destruct (StopLoss.readyState_of ws st) as [[] |]; try discriminate;
      intros [= <-]; now apply wf_handleClose, wf_set_readyState.
  - destruct (StopLoss.take_suspended ws (StopLoss.suspended st))
      as [[s rest] |] eqn:E; [| discriminate].
    intros [= <-]. apply wf_resume.
    destruct (take_suspended_spec _ _ _ _ E) as [_ [_ Hi]].
    apply (wf_ext st); auto.
Qed.

Lemma wf_run es : forall st st', wf st -> StopLoss.run es st = Some st' -> wf st'.
Proof.
  induction es as [| e r IH]; cbn; intros st st' H.
  - now intros [= <-].
  - destruct (StopLoss.step e st) as [st1 |] eqn:E; [| discriminate].
    apply IH. exact (wf_step _ _ _ H E).
Qed.

Lemma wf_reachable st : StopLoss.reachable st -> wf st.
Proof.
  intros [client [es H]].
apply (wf_run es (StopLoss.setDiscordClient client StopLoss.init) st);
  [| exact H].
  constructor; cbn; [discriminate | constructor | discriminate | tauto].
Qed.

(** ** The pipeline sends at most one notification and the watcher goes *)

Lemma closes_close_same st ws :
  cfg_at st ws <> None -> closes (StopLoss.close ws st) ws = S (closes st ws).
Proof.
  unfold cfg_at, closes, closeCalls_at. cbn. rewrite nth_error_upd_same.
  destruct (nth_error (StopLoss.sockets st) ws); cbn; congruence.
Qed.

Lemma closes_close_other st ws j :
  ws <> j -> closes (StopLoss.close ws st) j = closes st j.
Proof.
  intros H. unfold closes, closeCalls_at. cbn.
  now rewrite nth_error_upd_other.
Qed.

Lemma sendStopLossDM_sends c dis sl p d o e :
  reaches_send dis = true ->
  exists embed,
    StopLoss.sendStopLossDM (Some c) dis sl p d o e
    = [StopLoss.SendDM (StopLoss.userId sl) embed]
    /\ (forall r, o = None -> e = Some r -> r <> "" ->
                  In ("❌ Error", Code r) (fields embed))
    /\ (forall ord, o = Some ord ->
                    In ("✅ Order Executed", Code (StopLoss.order_id ord))
                       (fields embed)).
Proof.
  unfold reaches_send. intros Hd. apply andb_prop in Hd. destruct Hd as [Eu Eb].
  unfold StopLoss.sendStopLossDM. rewrite Eu, Eb. cbn [negb].
  eexists. split; [reflexivity |].
  cbn [fields]. split.
  - intros r -> -> Hr. apply in_or_app. right.
    destruct r; [congruence | left; reflexivity].
  - intros ord ->. apply in_or_app. right. left. reflexivity.
Qed.

Lemma executeSellOrder_notifies c sl p d venue :
  reaches_send (StopLoss.discord venue) = true ->
  exists embed,
    filter StopLoss.is_SendDM (StopLoss.executeSellOrder (Some c) sl p d venue)
    = [StopLoss.SendDM (StopLoss.userId sl) embed]
    /\ (forall r, failure_reason sl venue = Some r -> r <> "" ->
                  In ("❌ Error", Code r) (fields embed)).
Proof.
  intros Hd. unfold StopLoss.executeSellOrder, failure_reason.
  destruct (StopLoss.getPositions venue) as [err | pd].
  - destruct (sendStopLossDM_sends c _ sl p d None
                (Some (StopLoss.reason err)) Hd)
      as [embed [E [He _]]].
    exists embed. rewrite E. split; [reflexivity |].
    intros r [= <-] Hr. now apply He.
  - destruct (StopLoss.positionQuantity sl pd <=? 0)%float.
    + destruct (sendStopLossDM_sends c _ sl p d None
                  (Some "Position not found") Hd)
        as [embed [E [He _]]].
      exists embed. rewrite E. split; [reflexivity |].
      intros r [= <-] Hr. now apply He.
    + destruct (StopLoss.postOrder venue _) as [err | res].
      * destruct (sendStopLossDM_sends c _ sl p d None
                    (Some (StopLoss.reason err)) Hd)
          as [embed [E [He _]]].
        exists embed. rewrite E. split; [reflexivity |].
        intros r [= <-] Hr. now apply He.
      * destruct (sendStopLossDM_sends c _ sl p d (StopLoss.order res) None Hd)
          as [embed [E _]].
        exists embed. rewrite E. split; [reflexivity | discriminate].
Qed.

Lemma executeSellOrder_silent dc sl p d venue :
  reaches_send (StopLoss.discord venue) = false ->
  filter StopLoss.is_SendDM (StopLoss.executeSellOrder dc sl p d venue) = [].
Proof.
  intros Hd. unfold StopLoss.executeSellOrder.
  destruct dc as [c |]; [| reflexivity].
  destruct (StopLoss.getPositions venue) as [err | pd]; cbn [filter StopLoss.is_SendDM].
  - now rewrite sendStopLossDM_silent.
  - destruct (StopLoss.positionQuantity sl pd <=? 0)%float.
    + now rewrite sendStopLossDM_silent.
    + cbn [filter StopLoss.is_SendDM].
      destruct (StopLoss.postOrder venue _); now rewrite sendStopLossDM_silent.
Qed.

(** C7, as stated, fails: when [users.fetch] rejects, the pipeline of a
    fired watcher sells the position (FILLED) and sends no notification;
    the watcher is removed all the same. *)
Lemma C7_no_notification_when_discord_fails :
  StopLoss.reachable (after fired_trace)
  /\ terminal sl_050_10 filling_venue_discord_down = FILLED
  /\ exists st',
      StopLoss.step (StopLoss.Resume 0 filling_venue_discord_down)
                    (after fired_trace) = Some st'
      /\ StopLoss.log (after fired_trace) = []
      /\ StopLoss.log st'
         = [ StopLoss.GetPositions "key";
             StopLoss.PostOrder "key" (StopLoss.mkOrderPayload "T" yes "market" 5) ]
      /\ filter StopLoss.is_SendDM (StopLoss.log st') = []
      /\ JsMap.get (StopLoss.stopLossId sl_050_10)
                   (StopLoss.activeStopLosses st') = None.
Proof.
  split; [exists 0, fired_trace; vm_compute; reflexivity |].
  split; [vm_compute; reflexivity |].
  eexists. split; [vm_compute; reflexivity |].
  repeat split.
Qed.

(** C7 (amended). In every state the event loop reaches, when the pipeline
    of a fired watcher settles, whatever the venue answered (FILLED,
    NO_POSITION, FETCH_FAILED or ORDER_FAILED), the socket has been closed
    and the watcher's key is no longer in the registry, and the run has
    added at most one notification: exactly one, addressed to the owner,
    when Discord lets the sender reach user.send (users.fetch resolves,
    the embed is accepted), and none otherwise.  When the run did not end
    in FILLED (an order-submission failure in particular) and the reason
    is not the empty string, that notification carries the reason in its
    error field. *)
Theorem C7_one_notification_watcher_removed :
  forall (st st' : StopLoss.State) (ws : nat) (venue : StopLoss.Venue),
    StopLoss.reachable st ->
    StopLoss.step (StopLoss.Resume ws venue) st = Some st' ->
    exists sl effects,
      cfg_at st ws = Some sl
      /\ StopLoss.log st' = (StopLoss.log st ++ effects)%list
      /\ JsMap.get (StopLoss.stopLossId sl) (StopLoss.activeStopLosses st') = None
      /\ closes st' ws = S (closes st ws)
      /\ List.length (filter StopLoss.is_SendDM effects) <= 1
      /\ (reaches_send (StopLoss.discord venue) = true ->
          exists embed,
            filter StopLoss.is_SendDM effects
            = [StopLoss.SendDM (StopLoss.userId sl) embed]
            /\ (forall r, failure_reason sl venue = Some r -> r <> "" ->
                          In ("❌ Error", Code r) (fields embed)))
      /\ (reaches_send (StopLoss.discord venue) = false ->
          filter StopLoss.is_SendDM effects = [])
      /\ (terminal sl venue = ORDER_FAILED ->
          exists r, failure_reason sl venue = Some r).
Proof.
  intros st st' ws venue Hr Hstep.
  pose proof (wf_reachable st Hr) as [Hc _ _ Hs].
  cbn in Hstep.
  destruct (StopLoss.take_suspended ws (StopLoss.suspended st))
    as [[s rest] |] eqn:Et; [| discriminate].
  destruct (take_suspended_spec _ _ _ _ Et) as [Ews [Hin _]].
  specialize (Hs s Hin). rewrite Ews in Hs.
  injection Hstep as <-. unfold StopLoss.resume. cbn [StopLoss.sockets].
  rewrite Ews. unfold cfg_at in Hs |- *.
  destruct (nth_error (StopLoss.sockets st) ws) as [w |] eqn:Ew;
    [| cbn in Hs; congruence].
  destruct (StopLoss.discordClient st) as [c |] eqn:Ec; [| congruence].
  cbn [StopLoss.discordClient StopLoss.log StopLoss.activeStopLosses].
  exists (StopLoss.w_stopLoss w),
    (StopLoss.executeSellOrder (Some c) (StopLoss.w_stopLoss w)
       (StopLoss.s_currentPrice s) (StopLoss.s_data s) venue).
  split; [reflexivity |]. split; [reflexivity |].
  split; [cbn; apply get_delete_same |].
  split.
  { unfold closes, closeCalls_at. cbn. rewrite nth_error_upd_same, Ew.
    reflexivity. }
  split.
  { destruct (reaches_send (StopLoss.discord venue)) eqn:Er.
    - destruct (executeSellOrder_notifies c (StopLoss.w_stopLoss w)
                  (StopLoss.s_currentPrice s) (StopLoss.s_data s) venue Er)
        as [embed [Ef _]].
      rewrite Ef. cbn. lia.
    - rewrite (executeSellOrder_silent _ _ _ _ _ Er). cbn. lia. }
  split; [apply executeSellOrder_notifies |].
  split; [apply executeSellOrder_silent |].
  unfold terminal, failure_reason.
  destruct (StopLoss.getPositions venue); [discriminate |].
  destruct (_ <=? 0)%float; [discriminate |].
  destruct (StopLoss.postOrder venue _); [eauto | discriminate].
Qed.

Lemma C7_one_notification_watcher_removed_witness :
  exists sl effects embed,
    cfg_at (after fired_trace) 0 = Some sl
    /\ StopLoss.log (StopLoss.resume
                       (StopLoss.mkSuspended 0 0.45 (yes_tick 0.45))
                       refusing_venue
                       (StopLoss.mkState
                          (StopLoss.activeStopLosses (after fired_trace))
                          (Some 0) (StopLoss.sockets (after fired_trace))
                          [] []))
       = (StopLoss.log (after fired_trace) ++ effects)%list
    /\ filter StopLoss.is_SendDM effects
       = [StopLoss.SendDM (StopLoss.userId sl) embed]
    /\ In ("❌ Error", Code "Request failed with status code 400")
          (fields embed).
Proof.
  destruct (C7_one_notification_watcher_removed
              (after fired_trace) _ 0 refusing_venue
              (ex_intro _ 0 (ex_intro _ fired_trace eq_refl)) eq_refl)
    as [sl [effects [H1 [H2 [_ [_ [_ [H6 _]]]]]]]].
  destruct (H6 eq_refl) as [embed [H3 H7]].
  exists sl, effects, embed.
  split; [exact H1 |]. split; [exact H2 |]. split; [exact H3 |].
  apply H7; [| discriminate].
  injection H1 as <-. reflexivity.
Defined.

(** ** Stopping watchers: facts shared by the managers

    The three files close sockets and delete keys in the same way; the
    facts about their loops are proved once, over what the loops use. *)

Lemma prefix_app (p s r : string) :
  String.prefix p s = true -> String.prefix p (s ++ r) = true.
Proof.
  revert s. induction p as [| c p IH]; intros s H.
  - destruct s; cbn; [destruct r |]; reflexivity.
  - destruct s as [| d s]; cbn in H |- *; [discriminate |].
    destruct (Ascii.ascii_dec c d); [now apply IH | discriminate].
Qed.

Section StopLoops.
Variable State : Type.
Variable active : State -> JsMap.t nat.
Variable calls : State -> nat -> nat.
Variable present : State -> nat -> Prop.
Variable close : nat -> State -> State.
Variable delete : string -> State -> State.
Hypothesis active_close : forall ws s, active (close ws s) = active s.
Hypothesis active_delete :
  forall id s, active (delete id s) = JsMap.delete id (active s).
Hypothesis calls_close_same :
  forall ws s, present s ws -> calls (close ws s) ws = S (calls s ws).
Hypothesis calls_close_le : forall ws s j, calls s j <= calls (close ws s) j.
Hypothesis calls_delete : forall id s j, calls (delete id s) j = calls s j.
Hypothesis present_close : forall ws s j, present s j -> present (close ws s) j.
Hypothesis present_delete : forall id s j, present s j -> present (delete id s) j.

Lemma active_stop_one s id :
  active (stop_one active close delete s id) = JsMap.delete id (active s).
Proof.
  unfold stop_one. rewrite active_delete.
  destruct (JsMap.get id (active s)); now rewrite ?active_close.
Qed.

Lemma calls_stop_one_le s id j : calls s j <= calls (stop_one active close delete s id) j.
Proof.
  unfold stop_one. rewrite calls_delete.
  destruct (JsMap.get id (active s)); [apply calls_close_le | lia].
Qed.

Lemma present_stop_one s id j : present s j -> present (stop_one active close delete s id) j.
Proof.
  intros H. unfold stop_one. apply present_delete.
  destruct (JsMap.get id (active s)); [now apply present_close | exact H].
Qed.

Lemma calls_fold_le l : forall s j, calls s j <= calls (fold_left (stop_one active close delete) l s) j.
Proof.
  induction l as [| a r IH]; intros s j; cbn; [lia |].
  etransitivity; [apply (calls_stop_one_le s a) | apply IH].
Qed.

Lemma fold_keeps_absent l :
  forall s id,
    JsMap.get id (active s) = None ->
    JsMap.get id (active (fold_left (stop_one active close delete) l s)) = None.
Proof.
  induction l as [| a r IH]; intros s id H; cbn; [exact H |].
  apply IH. rewrite active_stop_one.
  destruct (String.eqb_spec a id) as [-> | Hne];
    [apply get_delete_same | now rewrite get_delete_other].
Qed.

(** Every key the loop visits is gone afterwards. *)
Lemma fold_removes l :
  forall s id,
    In id l -> JsMap.get id (active (fold_left (stop_one active close delete) l s)) = None.
Proof.
  induction l as [| a r IH]; intros s id Hin; [destruct Hin |]. cbn.
  destruct (String.eqb_spec a id) as [-> | Hne].
  - apply fold_keeps_absent. rewrite active_stop_one. apply get_delete_same.
  - destruct Hin as [-> | Hin]; [congruence | now apply IH].
Qed.

(** The socket registered under a visited key gets a [close()] call. *)
Lemma fold_closes l :
  forall s id ws,
    In id l -> JsMap.get id (active s) = Some ws -> present s ws ->
    S (calls s ws) <= calls (fold_left (stop_one active close delete) l s) ws.
Proof.
  induction l as [| a r IH]; intros s id ws Hin Hget Hp; [destruct Hin |]. cbn.
  destruct (String.eqb_spec a id) as [-> | Hne].
  - etransitivity; [| apply calls_fold_le].
    unfold stop_one. rewrite Hget, calls_delete, calls_close_same by exact Hp.
    lia.
  - destruct Hin as [-> | Hin]; [congruence |].
    etransitivity; [| apply (IH (stop_one active close delete s a) id ws Hin)].
    + pose proof (calls_stop_one_le s a ws). lia.
    + rewrite active_stop_one. now rewrite get_delete_other.
    + now apply present_stop_one.
Qed.

Lemma calls_stop_entry_le u acc e j :
  calls (snd acc) j <= calls (snd ((stop_entry close delete u) acc e)) j.
Proof.
  destruct acc as [c s], e as [k ws]. cbn.
  destruct (Js.startsWith k u); cbn; [| lia].
  rewrite calls_delete. apply calls_close_le.
Qed.

Lemma present_stop_entry u acc e j :
  present (snd acc) j -> present (snd ((stop_entry close delete u) acc e)) j.
Proof.
  destruct acc as [c s], e as [k ws]. cbn.
  destruct (Js.startsWith k u); cbn; auto.
Qed.

Lemma calls_entries_le u l :
  forall acc j, calls (snd acc) j <= calls (snd (fold_left (stop_entry close delete u) l acc)) j.
Proof.
  induction l as [| a r IH]; intros acc j; cbn; [lia |].
  etransitivity; [apply (calls_stop_entry_le u acc a) | apply IH].
Qed.

Lemma entries_keep_absent u l :
  forall acc id,
    JsMap.get id (active (snd acc)) = None ->
    JsMap.get id (active (snd (fold_left (stop_entry close delete u) l acc))) = None.
Proof.
  induction l as [| [k ws] r IH]; intros [c s] id H; cbn in *; [exact H |].
  apply IH. destruct (Js.startsWith k u); cbn; [| exact H].
  rewrite active_delete, active_close.
  destruct (String.eqb_spec k id) as [-> | Hne];
    [apply get_delete_same | now rewrite get_delete_other].
Qed.

Lemma entries_remove_and_close u l :
  forall acc id ws,
    In (id, ws) l -> Js.startsWith id u = true -> present (snd acc) ws ->
    JsMap.get id (active (snd (fold_left (stop_entry close delete u) l acc))) = None
    /\ S (calls (snd acc) ws)
       <= calls (snd (fold_left (stop_entry close delete u) l acc)) ws.
Proof.
  induction l as [| [k w] r IH]; intros [c s] id ws Hin Hu Hp; [destruct Hin |].
  cbn [fold_left]. destruct Hin as [[= -> ->] | Hin].
  - split.
    + apply entries_keep_absent. cbn. rewrite Hu. cbn.
      rewrite active_delete. apply get_delete_same.
    + etransitivity; [| apply calls_entries_le].
      cbn. rewrite Hu. cbn. rewrite calls_delete, calls_close_same by exact Hp.
      lia.
  - destruct (IH ((stop_entry close delete u) (c, s) (k, w)) id ws Hin Hu) as [H1 H2].
    + now apply (present_stop_entry u (c, s) (k, w)).
    + split; [exact H1 |].
      pose proof (calls_stop_entry_le u (c, s) (k, w) ws). cbn in *. lia.
Qed.

Lemma fold_preserves (P : State -> Prop) l :
  (forall ws s, P s -> P (close ws s)) ->
  (forall id s, P s -> P (delete id s)) ->
  forall s, P s -> P (fold_left (stop_one active close delete) l s).
Proof.
  intros Hc Hd. induction l as [| a r IH]; intros s H; cbn; [exact H |].
  apply IH. unfold stop_one. apply Hd.
  destruct (JsMap.get a (active s)); [now apply Hc | exact H].
Qed.

Lemma fold_nodup l :
  forall s,
    NoDup (JsMap.keys (active s)) ->
    NoDup (JsMap.keys (active (fold_left (stop_one active close delete) l s))).
Proof.
  induction l as [| a r IH]; intros s H; cbn; [exact H |].
  apply IH. rewrite active_stop_one. now apply NoDup_keys_delete.
Qed.

Lemma entries_nodup u l :
  forall acc,
    NoDup (JsMap.keys (active (snd acc))) ->
    NoDup (JsMap.keys
             (active (snd (fold_left (stop_entry close delete u) l acc)))).
Proof.
  induction l as [| [k ws] r IH]; intros [c s] H; cbn in *; [exact H |].
  apply IH. destruct (Js.startsWith k u); cbn; [| exact H].
  rewrite active_delete, active_close. now apply NoDup_keys_delete.
Qed.

End StopLoops.

Lemma get_In {V} k (v : V) m : JsMap.get k m = Some v -> In (k, v) m.
Proof.
  induction m as [| [k' v'] r IH]; cbn; [discriminate |].
  destruct (String.eqb_spec k' k) as [-> | Hne].
  - intros [= ->]. now left.
  - intros H. right. now apply IH.
Qed.

Lemma closeCalls_upd_close_le {W} (ws_of : W -> Ws.WebSocket) (f : W -> W) l i j :
  (forall w, Ws.closeCalls (ws_of (f w)) = S (Ws.closeCalls (ws_of w))) ->
  closeCalls_at ws_of l j <= closeCalls_at ws_of (upd i f l) j.
Proof.
  intros Hf. unfold closeCalls_at.
  destruct (Nat.eq_dec i j) as [-> | Hij].
  - rewrite nth_error_upd_same. destruct (nth_error l j); cbn; [| lia].
    rewrite Hf. lia.
  - rewrite nth_error_upd_other by exact Hij. lia.
Qed.

Lemma closeCalls_upd_close_same {W} (ws_of : W -> Ws.WebSocket) (f : W -> W) l i :
  (forall w, Ws.closeCalls (ws_of (f w)) = S (Ws.closeCalls (ws_of w))) ->
  nth_error l i <> None ->
  closeCalls_at ws_of (upd i f l) i = S (closeCalls_at ws_of l i).
Proof.
  intros Hf. unfold closeCalls_at. rewrite nth_error_upd_same.
  destruct (nth_error l i); cbn; [now rewrite Hf | congruence].
Qed.

Lemma present_upd {W} (f : W -> W) (l : list W) i j :
  nth_error l j <> None -> nth_error (upd i f l) j <> None.
Proof.
  destruct (Nat.eq_dec i j) as [-> | Hij].
  - rewrite nth_error_upd_same. destruct (nth_error l j); cbn; congruence.
  - now rewrite nth_error_upd_other.
Qed.

Lemma in_filter_startsWith (u u' rest : string) (ks : list string) :
  String.prefix u u' = true ->
  In (u' ++ rest) ks ->
  In (u' ++ rest) (filter (fun key => Js.startsWith key u) ks).
Proof.
  intros Hp Hin. apply filter_In. split; [exact Hin |].
  unfold Js.startsWith. now apply prefix_app.
Qed.

(** ** stop, list and stop-all *)

(** C8 fails in StopLossManager and in AlertManager.  After two starts of
    the same watcher and the ['close'] event of the first socket, the
    registry is empty although the second socket is open, has not fired
    and was never closed: stop for its key returns false, makes no
    [close()] call and changes nothing, and the user's list is empty.  The
    watcher stays active: a tick at the trigger price after the stop fires
    it and the position is sold.  (Nor does a stop that returns true
    disarm the handler: on the last trace a frame handed over by the
    closing socket after the stop still sells the position.) *)
Theorem C8_stop_misses_active_watcher :
  StopLoss.reachable (after orphan_trace)
  /\ StopLoss.armed (StopLoss.stopLossId sl_050_10) (after orphan_trace) = [1]
  /\ StopLoss.readyState_of 1 (after orphan_trace) = Some Ws.OPEN
  /\ StopLoss.getActiveStopLosses "1234" (after orphan_trace) = []
  /\ StopLoss.stopStopLoss "1234" "T" "yes" (after orphan_trace)
     = (false, after orphan_trace)
  /\ closes (after orphan_trace) 1 = 0
  /\ StopLoss.reachable (after orphan_stop_tick)
  /\ filter StopLoss.is_PostOrder (StopLoss.log (after orphan_stop_tick))
     = [ StopLoss.PostOrder "key" (StopLoss.mkOrderPayload "T" yes "market" 5) ]
  /\ Alert.run orphan_trace_alert (Alert.setDiscordClient 0 Alert.init)
     = Some (after_alert orphan_trace_alert)
  /\ Alert.readyState_of 1 (after_alert orphan_trace_alert) = Some Ws.OPEN
  /\ Alert.getActiveAlerts "1234" (after_alert orphan_trace_alert) = []
  /\ Alert.stopAlert "1234" "T" "yes" (after_alert orphan_trace_alert)
     = (false, after_alert orphan_trace_alert)
  /\ fst (StopLoss.stopStopLoss "1234" "T" "yes"
            (after [StopLoss.Start sl_050_10 true; StopLoss.OnOpen 0])) = true
  /\ StopLoss.reachable (after stop_then_tick)
  /\ filter StopLoss.is_PostOrder (StopLoss.log (after stop_then_tick))
     = [ StopLoss.PostOrder "key" (StopLoss.mkOrderPayload "T" yes "market" 5) ].
Proof.
  split; [exists 0, orphan_trace; vm_compute; reflexivity |].
  do 5 (split; [vm_compute; reflexivity |]).
  split; [exists 0, orphan_stop_tick; vm_compute; reflexivity |].
  do 6 (split; [vm_compute; reflexivity |]).
  split; [exists 0, stop_then_tick; vm_compute; reflexivity |].
  vm_compute; reflexivity.
Qed.

(** stop on a registered key.  StopLossManager and AlertManager: when the
    key is registered for a socket, stop returns true, makes exactly one
    [close()] call on that socket (which is then CLOSING, or CLOSED if it
    was so before) and touches no other socket, the key is gone from the
    user's list, and a second stop on the same key returns false and
    changes nothing; when the key is not registered, stop returns false
    and changes nothing. *)
Theorem stop_registered_once :
  forall (u t s : string),
    (forall st ws w,
        JsMap.get (StopLoss.stopLossId_of u t s) (StopLoss.activeStopLosses st)
        = Some ws ->
        nth_error (StopLoss.sockets st) ws = Some w ->
        exists st',
          StopLoss.stopStopLoss u t s st = (true, st')
          /\ closeCalls_at StopLoss.w_ws (StopLoss.sockets st') ws
             = S (Ws.closeCalls (StopLoss.w_ws w))
          /\ nth_error (StopLoss.sockets st') ws
             = Some (StopLoss.mkWatcher (StopLoss.w_stopLoss w)
                       (Ws.close (StopLoss.w_ws w)) (StopLoss.w_hasExecuted w))
          /\ (forall j, j <> ws ->
                        nth_error (StopLoss.sockets st') j
                        = nth_error (StopLoss.sockets st) j)
          /\ ~ In (StopLoss.stopLossId_of u t s)
                  (StopLoss.getActiveStopLosses u st')
          /\ StopLoss.stopStopLoss u t s st' = (false, st'))
    /\ (forall st,
           JsMap.get (StopLoss.stopLossId_of u t s) (StopLoss.activeStopLosses st)
           = None ->
           StopLoss.stopStopLoss u t s st = (false, st))
    /\ (forall st ws w,
           JsMap.get (Alert.alertId_of u t s) (Alert.activeAlerts st) = Some ws ->
           nth_error (Alert.sockets st) ws = Some w ->
           exists st',
             Alert.stopAlert u t s st = (true, st')
             /\ closeCalls_at Alert.w_ws (Alert.sockets st') ws
                = S (Ws.closeCalls (Alert.w_ws w))
             /\ nth_error (Alert.sockets st') ws
                = Some (Alert.mkWatcher (Alert.w_alert w)
                                        (Ws.close (Alert.w_ws w)))
             /\ (forall j, j <> ws ->
                           nth_error (Alert.sockets st') j
                           = nth_error (Alert.sockets st) j)
             /\ ~ In (Alert.alertId_of u t s) (Alert.getActiveAlerts u st')
             /\ Alert.stopAlert u t s st' = (false, st'))
    /\ (forall st,
           JsMap.get (Alert.alertId_of u t s) (Alert.activeAlerts st) = None ->
           Alert.stopAlert u t s st = (false, st)).
Proof.
  intros u t s. split; [| split; [| split]].
  - intros st ws w Hget Hw. unfold StopLoss.stopStopLoss. rewrite Hget.
    eexists. split; [reflexivity |]. cbn.
    unfold closeCalls_at. rewrite nth_error_upd_same, Hw. cbn.
    split; [reflexivity |]. split; [reflexivity |].
    split.
    { intros j Hj. apply nth_error_upd_other. congruence. }
    split.
    { unfold StopLoss.getActiveStopLosses. cbn. intros Hin.
      apply filter_In in Hin. destruct Hin as [Hin _].
      apply in_keys_delete in Hin. tauto. }
    rewrite get_delete_same. reflexivity.
  - intros st Hget. unfold StopLoss.stopStopLoss. now rewrite Hget.
  - intros st ws w Hget Hw. unfold Alert.stopAlert. rewrite Hget.
    eexists. split; [reflexivity |]. cbn.
    unfold closeCalls_at. rewrite nth_error_upd_same, Hw. cbn.
    split; [reflexivity |]. split; [reflexivity |].
    split.
    { intros j Hj. apply nth_error_upd_other. congruence. }
    split.
    { unfold Alert.getActiveAlerts. cbn. intros Hin.
      apply filter_In in Hin. destruct Hin as [Hin _].
      apply in_keys_delete in Hin. tauto. }
    rewrite get_delete_same. reflexivity.
  - intros st Hget. unfold Alert.stopAlert. now rewrite Hget.
Qed.

Lemma stop_registered_once_witness :
  StopLoss.stopStopLoss "1234" "T" "yes" (after [StopLoss.Start sl_050_10 true])
  = (true, snd (StopLoss.stopStopLoss "1234" "T" "yes"
                  (after [StopLoss.Start sl_050_10 true])))
  /\ StopLoss.stopStopLoss "1234" "T" "yes"
       (snd (StopLoss.stopStopLoss "1234" "T" "yes"
               (after [StopLoss.Start sl_050_10 true])))
     = (false, snd (StopLoss.stopStopLoss "1234" "T" "yes"
                      (after [StopLoss.Start sl_050_10 true]))).
Proof.
  destruct (proj1 (stop_registered_once "1234" "T" "yes")
              (after [StopLoss.Start sl_050_10 true]) 0
              (StopLoss.mkWatcher sl_050_10 Ws.fresh false) eq_refl eq_refl)
    as [st' [H1 [_ [_ [_ [_ H2]]]]]].
  rewrite H1. cbn [snd]. split; [reflexivity | exact H2].
Defined.

(** C10. Listing and stop-all select by [key.startsWith(userId)]: whenever
    [u] is a prefix of another user id [u'] (as "123" is of "1234"), a
    watcher registered by [u'] is listed for [u], and stop-all for [u]
    calls [close()] on its socket and removes its key; this holds in
    StopLossManager, in AlertManager and (for stop-all) in
    stopAllAlertsForUser. *)
Theorem C10_prefix_reaches_other_user :
  forall (u u' t s : string),
    String.prefix u u' = true ->
    (forall st ws w,
        JsMap.get (StopLoss.stopLossId_of u' t s) (StopLoss.activeStopLosses st)
        = Some ws ->
        nth_error (StopLoss.sockets st) ws = Some w ->
        In (StopLoss.stopLossId_of u' t s) (StopLoss.getActiveStopLosses u st)
        /\ JsMap.get (StopLoss.stopLossId_of u' t s)
             (StopLoss.activeStopLosses (snd (StopLoss.stopAllStopLosses u st)))
           = None
        /\ S (Ws.closeCalls (StopLoss.w_ws w))
           <= closeCalls_at StopLoss.w_ws
                (StopLoss.sockets (snd (StopLoss.stopAllStopLosses u st))) ws)
    /\ (forall st ws w,
           JsMap.get (Alert.alertId_of u' t s) (Alert.activeAlerts st) = Some ws ->
           nth_error (Alert.sockets st) ws = Some w ->
           In (Alert.alertId_of u' t s) (Alert.getActiveAlerts u st)
           /\ JsMap.get (Alert.alertId_of u' t s)
                (Alert.activeAlerts (snd (Alert.stopAllAlerts u st)))
              = None
           /\ S (Ws.closeCalls (Alert.w_ws w))
              <= closeCalls_at Alert.w_ws
                   (Alert.sockets (snd (Alert.stopAllAlerts u st))) ws)
    /\ (forall st ws w,
           JsMap.get (PositionAlert.alertKey_of u' t)
                     (PositionAlert.activeAlerts st) = Some ws ->
           nth_error (PositionAlert.sockets st) ws = Some w ->
           JsMap.get (PositionAlert.alertKey_of u' t)
             (PositionAlert.activeAlerts
                (snd (PositionAlert.stopAllAlertsForUser u st)))
           = None
           /\ S (Ws.closeCalls (PositionAlert.w_ws w))
              <= closeCalls_at PositionAlert.w_ws
                   (PositionAlert.sockets
                      (snd (PositionAlert.stopAllAlertsForUser u st))) ws).
Proof.
  intros u u' t s Hp. split; [| split].
  - intros st ws w Hget Hw.
    assert (Hin : In (StopLoss.stopLossId_of u' t s)
                     (StopLoss.getActiveStopLosses u st)).
    { apply in_filter_startsWith; [exact Hp |].
      apply in_keys_get. unfold StopLoss.stopLossId_of in Hget. congruence. }
    split; [exact Hin |]. cbn [StopLoss.stopAllStopLosses snd]. split.
    + apply (fold_removes StopLoss.State StopLoss.activeStopLosses
               StopLoss.close StopLoss.delete); auto.
    + replace (Ws.closeCalls (StopLoss.w_ws w))
        with (closeCalls_at StopLoss.w_ws (StopLoss.sockets st) ws)
        by (unfold closeCalls_at; now rewrite Hw).
      apply (fold_closes StopLoss.State StopLoss.activeStopLosses
               (fun x => closeCalls_at StopLoss.w_ws (StopLoss.sockets x))
               (fun x j => nth_error (StopLoss.sockets x) j <> None)
               StopLoss.close StopLoss.delete)
        with (id := StopLoss.stopLossId_of u' t s); auto.
      * intros i x Hx. now apply closeCalls_upd_close_same.
      * intros i x j. now apply closeCalls_upd_close_le.
      * intros i x j. apply present_upd.
      * congruence.
  - intros st ws w Hget Hw.
    assert (Hin : In (Alert.alertId_of u' t s) (Alert.getActiveAlerts u st)).
    { apply in_filter_startsWith; [exact Hp |].
      apply in_keys_get. unfold Alert.alertId_of in Hget. congruence. }
    split; [exact Hin |]. cbn [Alert.stopAllAlerts snd]. split.
    + apply (fold_removes Alert.State Alert.activeAlerts
               Alert.close Alert.delete); auto.
    + replace (Ws.closeCalls (Alert.w_ws w))
        with (closeCalls_at Alert.w_ws (Alert.sockets st) ws)
        by (unfold closeCalls_at; now rewrite Hw).
      apply (fold_closes Alert.State Alert.activeAlerts
               (fun x => closeCalls_at Alert.w_ws (Alert.sockets x))
               (fun x j => nth_error (Alert.sockets x) j <> None)
               Alert.close Alert.delete)
        with (id := Alert.alertId_of u' t s); auto.
      * intros i x Hx. now apply closeCalls_upd_close_same.
      * intros i x j. now apply closeCalls_upd_close_le.
      * intros i x j. apply present_upd.
      * congruence.
  - intros st ws w Hget Hw.
    replace (Ws.closeCalls (PositionAlert.w_ws w))
      with (closeCalls_at PositionAlert.w_ws (PositionAlert.sockets st) ws)
      by (unfold closeCalls_at; now rewrite Hw).
    apply (entries_remove_and_close PositionAlert.State
             PositionAlert.activeAlerts
             (fun x => closeCalls_at PositionAlert.w_ws (PositionAlert.sockets x))
             (fun x j => nth_error (PositionAlert.sockets x) j <> None)
             PositionAlert.close PositionAlert.delete)
      with (acc := (0, st)); auto.
    + intros i x Hx. now apply closeCalls_upd_close_same.
    + intros i x j. now apply closeCalls_upd_close_le.
    + intros i x j. apply present_upd.
    + now apply get_In.
    + unfold Js.startsWith, PositionAlert.alertKey_of. now apply prefix_app.
    + cbn. congruence.
Qed.

Lemma C10_prefix_reaches_other_user_witness :
  StopLoss.getActiveStopLosses "123" (after [StopLoss.Start sl_050_10 true])
  = ["1234-T-yes"]
  /\ JsMap.get "1234-T-yes"
       (StopLoss.activeStopLosses
          (snd (StopLoss.stopAllStopLosses "123"
                  (after [StopLoss.Start sl_050_10 true]))))
     = None
  /\ 1 <= closeCalls_at StopLoss.w_ws
            (StopLoss.sockets
               (snd (StopLoss.stopAllStopLosses "123"
                       (after [StopLoss.Start sl_050_10 true])))) 0.
Proof.
  destruct (proj1 (C10_prefix_reaches_other_user "123" "1234" "T" "yes" eq_refl)
              (after [StopLoss.Start sl_050_10 true]) 0
              (StopLoss.mkWatcher sl_050_10 Ws.fresh false) eq_refl eq_refl)
    as [_ [H2 H3]].
  split; [reflexivity |]. split; [exact H2 | exact H3].
Defined.

(** ** Single fire *)

(** Once [hasExecuted] is set, the stop-loss handler ignores every frame. *)
Lemma stoploss_onMessage_after_fire sl raw :
  StopLoss.onMessage sl true raw = NONE.
Proof.
  unfold StopLoss.onMessage. destruct raw as [| msg]; [reflexivity |].
  destruct (negb _); [reflexivity |].
  destruct (msg_data msg) as [data |]; [| reflexivity].
  destruct (negb _); [reflexivity |].
  destruct (StopLoss.currentPrice_of _ _); [| reflexivity].
  destruct (negb _); [reflexivity |].
  now rewrite andb_false_r.
Qed.

(** Stop-loss: of two frames handled in a row on one socket, the first of
    which fires, only the first starts a pipeline. *)
Lemma stoploss_two_ticks_one_run st ws w raw1 raw2 p d :
  nth_error (StopLoss.sockets st) ws = Some w ->
  StopLoss.onMessage (StopLoss.w_stopLoss w) (StopLoss.w_hasExecuted w) raw1
  = ARMED p d ->
  StopLoss.suspended
    (StopLoss.handleMessage ws raw2 (StopLoss.handleMessage ws raw1 st))
  = (StopLoss.suspended st ++ [StopLoss.mkSuspended ws p d])%list.
Proof.
  intros Hw Hfire. unfold StopLoss.handleMessage at 2. rewrite Hw, Hfire.
  unfold StopLoss.handleMessage. cbn [StopLoss.sockets StopLoss.set_hasExecuted
                                       StopLoss.with_sockets].
  rewrite nth_error_upd_same, Hw. cbn [option_map StopLoss.w_stopLoss
                                         StopLoss.w_hasExecuted].
  rewrite stoploss_onMessage_after_fire. reflexivity.
Qed.

Lemma fired_upd st ws n i f :
  (forall w, StopLoss.w_hasExecuted w = true ->
             StopLoss.w_hasExecuted (f w) = true) ->
  fired_and_bounded ws n st ->
  fired_and_bounded ws n
    (StopLoss.with_sockets (upd i f (StopLoss.sockets st)) st).
Proof.
  intros Hf [H1 H2]. split; [| exact H2].
  unfold hasExecuted_at in *. cbn.
  destruct (Nat.eq_dec i ws) as [-> | Hne].
  - rewrite nth_error_upd_same.
    destruct (nth_error (StopLoss.sockets st) ws); cbn; [now apply Hf | exact H1].
  - now rewrite nth_error_upd_other.
Qed.

Lemma fired_close st ws n i :
  fired_and_bounded ws n st -> fired_and_bounded ws n (StopLoss.close i st).
Proof. apply fired_upd. auto. Qed.

Lemma fired_delete st ws n id :
  fired_and_bounded ws n st -> fired_and_bounded ws n (StopLoss.delete id st).
Proof. auto. Qed.

Lemma fired_start st ws n sl signs :
  fired_and_bounded ws n st ->
  fired_and_bounded ws n (StopLoss.startStopLoss sl signs st).
Proof.
  intros H. unfold StopLoss.startStopLoss.
  set (st1 := if JsMap.has _ _ then _ else st).
  assert (H1 : fired_and_bounded ws n st1).
  { subst st1. destruct (JsMap.has _ _); [| exact H].
    destruct (JsMap.get _ _); [now apply fired_close | exact H]. }
  clearbody st1. destruct signs; [| exact H1].
  destruct H1 as [Hx Hy]. split; [| exact Hy].
  unfold hasExecuted_at in *. cbn.
  destruct (nth_error (StopLoss.sockets st1) ws) eqn:E; [| discriminate].
  rewrite nth_error_app1 by (apply nth_error_Some; congruence).
  now rewrite E.
Qed.

Lemma pending_take ws i l s rest :
  StopLoss.take_suspended i l = Some (s, rest) ->
  List.length (filter (fun x => Nat.eqb (StopLoss.s_ws x) ws) rest)
  <= List.length (filter (fun x => Nat.eqb (StopLoss.s_ws x) ws) l).
Proof.
  revert s rest. induction l as [| x r IH]; cbn; intros s rest H; [discriminate |].
  destruct (Nat.eqb (StopLoss.s_ws x) i).
  - injection H as <- <-. destruct (Nat.eqb (StopLoss.s_ws x) ws); cbn; lia.
  - destruct (StopLoss.take_suspended i r) as [[y r'] |]; [| discriminate].
    injection H as <- <-. specialize (IH y r' eq_refl). cbn.
    destruct (Nat.eqb (StopLoss.s_ws x) ws); cbn; lia.
Qed.

Lemma fired_handleMessage st ws n i raw :
  fired_and_bounded ws n st ->
  fired_and_bounded ws n (StopLoss.handleMessage i raw st).
Proof.
  intros H. unfold StopLoss.handleMessage.
  destruct (nth_error (StopLoss.sockets st) i) as [w |] eqn:Ew; [| exact H].
  destruct (StopLoss.onMessage _ _ _) as [| p d] eqn:Ed; [exact H |].
  assert (Hne : i <> ws).
  { intros ->. destruct H as [Hx _]. unfold hasExecuted_at in Hx.
    rewrite Ew in Hx. rewrite Hx, stoploss_onMessage_after_fire in Ed.
    discriminate. }
  destruct (fired_upd st ws n i
              (fun w0 => StopLoss.mkWatcher (StopLoss.w_stopLoss w0)
                           (StopLoss.w_ws w0) true)
              ltac:(auto) H) as [Hx Hy].
  split; [exact Hx |].
  unfold pending_of in *. cbn in *. rewrite filter_app, length_app. cbn.
  destruct (Nat.eqb_spec i ws); [congruence | cbn; lia].
Qed.

Lemma fired_step e st st' ws n :
  fired_and_bounded ws n st ->
  StopLoss.step e st = Some st' ->
  fired_and_bounded ws n st'.
Proof.
  intros H. destruct e as [sl signs | u t s | u | i | i raw | i | i venue]; cbn.
  - intros [= <-]. now apply fired_start.
  - intros [= <-]. unfold StopLoss.stopStopLoss.
    destruct (JsMap.get _ _); cbn; [apply fired_delete, fired_close |]; exact H.
  - intros [= <-].
    apply (fold_preserves StopLoss.State StopLoss.activeStopLosses
             StopLoss.close StopLoss.delete (fired_and_bounded ws n));
      auto using fired_close, fired_delete.
  - destruct (StopLoss.readyState_of i st) as [[] |]; try discriminate.
    intros [= <-]. apply fired_upd; auto.
  - destruct (StopLoss.readyState_of i st) as [[] |]; try discriminate;
      intros [= <-]; now apply fired_handleMessage.
  - destruct (StopLoss.readyState_of i st) as [[] |]; try discriminate;
      intros [= <-]; unfold StopLoss.handleClose; cbn;
      destruct (nth_error _ _); try apply fired_delete;
      apply (fired_upd st ws n i); auto.
  - destruct (StopLoss.take_suspended i (StopLoss.suspended st))
      as [[x rest] |] eqn:E; [| discriminate].
    intros [= <-]. unfold StopLoss.resume. cbn [StopLoss.sockets].
    assert (H0 : fired_and_bounded ws n
                   (StopLoss.mkState (StopLoss.activeStopLosses st)
                      (StopLoss.discordClient st) (StopLoss.sockets st)
                      rest (StopLoss.log st))).
    { destruct H as [Hx Hy]. split; [exact Hx |].
      pose proof (pending_take ws _ _ _ _ E). unfold pending_of in *. cbn. lia. }
    destruct (nth_error (StopLoss.sockets st) (StopLoss.s_ws x)); [| exact H0].
    apply fired_delete, fired_close.
    destruct H0 as [Hx Hy]. split; [exact Hx | exact Hy].
Qed.

Lemma fired_run es :
  forall st st' ws n,
    fired_and_bounded ws n st ->
    StopLoss.run es st = Some st' ->
    fired_and_bounded ws n st'.
Proof.
  induction es as [| e r IH]; cbn; intros st st' ws n G Hrun.
  - injection Hrun as <-. exact G.
  - destruct (StopLoss.step e st) as [st1 |] eqn:E; [| discriminate].
    apply (IH st1 st' ws n); [| exact Hrun]. exact (fired_step _ _ _ _ _ G E).
Qed.

(** Stop-loss, over whole runs: once socket [ws] has fired, no sequence
    of events makes it fire again: its flag stays set and the number of
    its waiting pipelines never grows. *)
Lemma stoploss_fires_once es st st' ws :
  hasExecuted_at st ws = true ->
  StopLoss.run es st = Some st' ->
  hasExecuted_at st' ws = true /\ pending_of ws st' <= pending_of ws st.
Proof.
  intros H Hrun.
  apply (fired_run es st st' ws (pending_of ws st)); [| exact Hrun].
  split; [exact H | lia].
Qed.

(** C2 fails in AlertManager (the handler has no flag): two ticks at or
    above the trigger price, handled one after the other while the first
    [sendAlert] is still awaited, produce two notifications.  The same two
    ticks on the stop-loss of the same size start one pipeline. *)
Theorem C2_alert_fires_twice :
  Alert.run two_ticks_trace (Alert.setDiscordClient 0 Alert.init)
  = Some (after_alert two_ticks_trace)
  /\ List.length (filter Alert.is_SendDM (Alert.log (after_alert two_ticks_trace)))
     = 2
  /\ List.length (StopLoss.suspended (after two_ticks_stoploss)) = 1.
Proof.
  split; [vm_compute; reflexivity |]. split; vm_compute; reflexivity.
Qed.

(** ** Superseding *)

(** C1, as stated, fails in startPositionAlert: a second start on a
    registered key returns at once; the prior socket gets no [close()]
    call and stays registered, and no new socket is created. *)
Lemma C1_position_alert_not_superseded :
  let st1 := PositionAlert.startPositionAlert position_050_10 PositionAlert.init in
  let st2 := PositionAlert.startPositionAlert position_050_10 st1 in
  JsMap.get (PositionAlert.alertKey position_050_10)
            (PositionAlert.activeAlerts st1) = Some 0
  /\ closeCalls_at PositionAlert.w_ws (PositionAlert.sockets st2) 0 = 0
  /\ live_at PositionAlert.w_ws (PositionAlert.sockets st2) 0 = true
  /\ JsMap.get (PositionAlert.alertKey position_050_10)
               (PositionAlert.activeAlerts st2) = Some 0
  /\ List.length (PositionAlert.sockets st2) = 1.
Proof. vm_compute. repeat split. Qed.

(** C9 fails in StopLossManager and in AlertManager: the ['close'] handler
    of a superseded socket deletes the key, which by then belongs to its
    successor; the next start finds no entry, closes nothing, and sockets
    1 and 2 are then open for the same key, neither closed nor fired.  One
    tick at the trigger price reaches both stop-loss sockets and two sell
    orders are submitted. *)
Theorem C9_two_open_streams_one_key :
  StopLoss.reachable (after restart_trace)
  /\ StopLoss.armed (StopLoss.stopLossId sl_050_10) (after restart_trace) = [1; 2]
  /\ StopLoss.readyState_of 1 (after restart_trace) = Some Ws.OPEN
  /\ StopLoss.readyState_of 2 (after restart_trace) = Some Ws.OPEN
  /\ closes (after restart_trace) 1 = 0
  /\ StopLoss.activeStopLosses (after restart_trace) = [("1234-T-yes", 2)]
  /\ StopLoss.reachable (after restart_then_tick)
  /\ List.length (filter StopLoss.is_PostOrder
                         (StopLoss.log (after restart_then_tick))) = 2
  /\ Alert.run restart_trace_alert (Alert.setDiscordClient 0 Alert.init)
     = Some (after_alert restart_trace_alert)
  /\ map (fun w => (Alert.alertId (Alert.w_alert w), Alert.w_ws w))
         (Alert.sockets (after_alert restart_trace_alert))
     = [ ("1234-T-yes", Ws.mkWs Ws.CLOSED 1);
         ("1234-T-yes", Ws.mkWs Ws.OPEN 0);
         ("1234-T-yes", Ws.mkWs Ws.OPEN 0) ].
Proof.
  split; [exists 0, restart_trace; vm_compute; reflexivity |].
  do 5 (split; [vm_compute; reflexivity |]).
  split; [exists 0, restart_then_tick; vm_compute; reflexivity |].
  do 2 (split; [vm_compute; reflexivity |]).
  vm_compute; reflexivity.
Qed.

Lemma has_of_get {V} k (v : V) m : JsMap.get k m = Some v -> JsMap.has k m = true.
Proof. unfold JsMap.has. now intros ->. Qed.

Lemma nth_error_upd_snoc {A} (f : A -> A) (l : list A) (x w : A) i :
  nth_error l i = Some w ->
  nth_error (upd i f l ++ [x]) i = Some (f w)
  /\ nth_error (upd i f l ++ [x]) (List.length l) = Some x.
Proof.
  intros H. split.
  - rewrite nth_error_app1.
    + now rewrite nth_error_upd_same, H.
    + rewrite upd_length. apply nth_error_Some. congruence.
  - rewrite nth_error_app2 by (rewrite upd_length; lia).
    rewrite upd_length, Nat.sub_diag. reflexivity.
Qed.

Lemma alert_start_nodup st a signs :
  NoDup (JsMap.keys (Alert.activeAlerts st)) ->
  NoDup (JsMap.keys (Alert.activeAlerts (Alert.startAlert a signs st))).
Proof.
  intros H. unfold Alert.startAlert.
  set (st1 := if JsMap.has _ _ then _ else st).
  assert (E : Alert.activeAlerts st1 = Alert.activeAlerts st).
  { subst st1. destruct (JsMap.has _ _); [| reflexivity].
    destruct (JsMap.get _ _); reflexivity. }
  destruct signs; cbn; rewrite E; [now apply NoDup_keys_set | exact H].
Qed.

Lemma alert_step_nodup e st st' :
  NoDup (JsMap.keys (Alert.activeAlerts st)) ->
  Alert.step e st = Some st' ->
  NoDup (JsMap.keys (Alert.activeAlerts st')).
Proof.
  intros H. destruct e; cbn.
  - intros [= <-]. now apply alert_start_nodup.
  - intros [= <-]. unfold Alert.stopAlert.
    destruct (JsMap.get _ _); cbn; [now apply NoDup_keys_delete | exact H].
  - intros [= <-].
    apply (fold_nodup Alert.State Alert.activeAlerts Alert.close Alert.delete);
      auto.
  - destruct (Alert.readyState_of ws st) as [[] |]; try discriminate.
    now intros [= <-].
  - destruct (Alert.readyState_of ws st) as [[] |]; try discriminate;
      intros [= <-]; unfold Alert.handleMessage;
      (destruct (nth_error _ _); [| exact H]);
      destruct (Alert.onMessage _ _); exact H.
  - destruct (Alert.readyState_of ws st) as [[] |]; try discriminate;
      intros [= <-]; unfold Alert.handleClose; cbn;
      destruct (nth_error _ _); cbn;
      first [exact H | apply NoDup_keys_delete; exact H].
  - destruct (Alert.take_suspended ws (Alert.suspended st)) as [[x rest] |];
      [| discriminate].
    intros [= <-]. unfold Alert.resume. cbn.
    destruct (nth_error _ _); cbn;
      first [exact H | apply NoDup_keys_delete; exact H].
Qed.

Lemma alert_run_nodup es :
  forall st st',
    NoDup (JsMap.keys (Alert.activeAlerts st)) ->
    Alert.run es st = Some st' ->
    NoDup (JsMap.keys (Alert.activeAlerts st')).
Proof.
  induction es as [| e r IH]; cbn; intros st st' H.
  - now intros [= <-].
  - destruct (Alert.step e st) as [st1 |] eqn:E; [| discriminate].
    apply IH. exact (alert_step_nodup _ _ _ H E).
Qed.

(** *** The registry of the alert manager names sockets of the key *)

Lemma alert_names_ext st st' :
  alert_names st ->
  Alert.activeAlerts st' = Alert.activeAlerts st ->
  (forall ws, alert_cfg_at st' ws = alert_cfg_at st ws) ->
  alert_names st'.
Proof.
  intros H Ea Ecfg k ws. rewrite Ea, Ecfg. apply H.
Qed.

Lemma alert_cfg_at_upd st i f :
  (forall w, Alert.w_alert (f w) = Alert.w_alert w) ->
  forall j,
    alert_cfg_at (Alert.with_sockets (upd i f (Alert.sockets st)) st) j
    = alert_cfg_at st j.
Proof.
  intros Hf j. unfold alert_cfg_at. cbn [Alert.with_sockets Alert.sockets].
  destruct (Nat.eq_dec i j) as [-> | Hij].
  - rewrite nth_error_upd_same.
    destruct (nth_error (Alert.sockets st) j); cbn; [now rewrite Hf | auto].
  - now rewrite nth_error_upd_other.
Qed.

Lemma alert_names_close st ws : alert_names st -> alert_names (Alert.close ws st).
Proof.
  intros H. apply (alert_names_ext st); auto.
  apply alert_cfg_at_upd. reflexivity.
Qed.

Lemma alert_names_set_readyState st ws r :
  alert_names st -> alert_names (Alert.set_readyState ws r st).
Proof.
  intros H. apply (alert_names_ext st); auto.
  apply alert_cfg_at_upd. reflexivity.
Qed.

Lemma alert_names_delete st id : alert_names st -> alert_names (Alert.delete id st).
Proof.
  intros H k ws Hk. cbn in Hk.
  destruct (String.eqb_spec id k) as [-> | Hne].
  - rewrite get_delete_same in Hk. discriminate.
  - rewrite get_delete_other in Hk by exact Hne. apply H, Hk.
Qed.

Lemma alert_names_start st a signs :
  alert_names st -> alert_names (Alert.startAlert a signs st).
Proof.
  intros H. unfold Alert.startAlert.
  set (st1 := if JsMap.has _ _ then _ else st).
  assert (H1 : alert_names st1).
  { subst st1. destruct (JsMap.has _ _); [| exact H].
    destruct (JsMap.get _ _); [apply alert_names_close |]; exact H. }
  clearbody st1. destruct signs; [| exact H1].
  intros k ws Hk. cbn in Hk. unfold alert_cfg_at. cbn.
  destruct (String.eqb_spec (Alert.alertId a) k) as [<- | Hne].
  - rewrite get_set_same in Hk. injection Hk as <-.
    exists a. split; [| reflexivity].
    rewrite nth_error_app2 by lia. rewrite Nat.sub_diag. reflexivity.
  - rewrite get_set_other in Hk by exact Hne.
    destruct (H1 k ws Hk) as [a' [E1 E2]].
    exists a'. split; [| exact E2].
    rewrite <- E1. unfold alert_cfg_at.
    rewrite nth_error_app1; [reflexivity |].
    apply nth_error_Some. unfold alert_cfg_at in E1.
    destruct (nth_error (Alert.sockets st1) ws); cbn in E1; congruence.
Qed.

Lemma alert_names_step e st st' :
  alert_names st -> Alert.step e st = Some st' -> alert_names st'.
Proof.
  intros H. destruct e; cbn.
  - intros [= <-]. now apply alert_names_start.
  - intros [= <-]. unfold Alert.stopAlert.
    destruct (JsMap.get _ _); cbn;
      [apply alert_names_delete, alert_names_close |]; exact H.
  - intros [= <-].
    apply (fold_preserves Alert.State Alert.activeAlerts Alert.close
             Alert.delete alert_names);
      auto using alert_names_close, alert_names_delete.
  - destruct (Alert.readyState_of ws st) as [[] |]; try discriminate.
    intros [= <-]. now apply alert_names_set_readyState.
  - destruct (Alert.readyState_of ws st) as [[] |]; try discriminate;
      intros [= <-]; unfold Alert.handleMessage;
      (destruct (nth_error _ _); [| exact H]);
      destruct (Alert.onMessage _ _); exact H.
  - destruct (Alert.readyState_of ws st) as [[] |]; try discriminate;
      intros [= <-]; unfold Alert.handleClose;
      cbn [Alert.set_readyState Alert.with_sockets Alert.sockets];
      destruct (nth_error _ _);
      try apply alert_names_delete; now apply alert_names_set_readyState.
  - destruct (Alert.take_suspended ws (Alert.suspended st)) as [[x rest] |];
      [| discriminate].
    intros [= <-]. unfold Alert.resume. cbn [Alert.sockets].
    destruct (nth_error _ _); [| exact H].
    apply alert_names_delete, alert_names_close. exact H.
Qed.

Lemma alert_names_run es :
  forall st st',
    alert_names st -> Alert.run es st = Some st' -> alert_names st'.
Proof.
  induction es as [| e r IH]; cbn; intros st st' H.
  - now intros [= <-].
  - destruct (Alert.step e st) as [st1 |] eqn:E; [| discriminate].
    apply IH. exact (alert_names_step _ _ _ H E).
Qed.

(** C1 (amended). In every state the event loops of StopLossManager and
    AlertManager reach, the registry holds one entry per key, and the
    socket it names is one that was started for that key.  A start on a
    registered key (with a private key that signs) makes one [close()]
    call on the registered socket, which is left as it was otherwise,
    creates a fresh socket and stores it under the same key in place of
    the old entry: the list of keys is unchanged.  In startPositionAlert
    the key is discordId-marketTicker and a start on a registered key
    changes nothing. *)
Theorem C1_one_registered_watcher_per_key :
  (forall st, StopLoss.reachable st ->
      NoDup (JsMap.keys (StopLoss.activeStopLosses st))
      /\ forall k ws,
          JsMap.get k (StopLoss.activeStopLosses st) = Some ws ->
          exists w, nth_error (StopLoss.sockets st) ws = Some w
                    /\ StopLoss.stopLossId (StopLoss.w_stopLoss w) = k)
  /\ (forall client es st,
         Alert.run es (Alert.setDiscordClient client Alert.init) = Some st ->
         NoDup (JsMap.keys (Alert.activeAlerts st))
         /\ forall k ws,
             JsMap.get k (Alert.activeAlerts st) = Some ws ->
             exists w, nth_error (Alert.sockets st) ws = Some w
                       /\ Alert.alertId (Alert.w_alert w) = k)
  /\ (forall st sl old w,
         JsMap.get (StopLoss.stopLossId sl) (StopLoss.activeStopLosses st)
         = Some old ->
         nth_error (StopLoss.sockets st) old = Some w ->
         let st' := StopLoss.startStopLoss sl true st in
         let new := List.length (StopLoss.sockets st) in
         closeCalls_at StopLoss.w_ws (StopLoss.sockets st') old
         = S (Ws.closeCalls (StopLoss.w_ws w))
         /\ nth_error (StopLoss.sockets st') old
            = Some (StopLoss.mkWatcher (StopLoss.w_stopLoss w)
                      (Ws.close (StopLoss.w_ws w)) (StopLoss.w_hasExecuted w))
         /\ nth_error (StopLoss.sockets st') new
            = Some (StopLoss.mkWatcher sl Ws.fresh false)
         /\ JsMap.get (StopLoss.stopLossId sl) (StopLoss.activeStopLosses st')
            = Some new
         /\ JsMap.keys (StopLoss.activeStopLosses st')
            = JsMap.keys (StopLoss.activeStopLosses st))
  /\ (forall st a old w,
         JsMap.get (Alert.alertId a) (Alert.activeAlerts st) = Some old ->
         nth_error (Alert.sockets st) old = Some w ->
         let st' := Alert.startAlert a true st in
         let new := List.length (Alert.sockets st) in
         closeCalls_at Alert.w_ws (Alert.sockets st') old
         = S (Ws.closeCalls (Alert.w_ws w))
         /\ nth_error (Alert.sockets st') old
            = Some (Alert.mkWatcher (Alert.w_alert w) (Ws.close (Alert.w_ws w)))
         /\ nth_error (Alert.sockets st') new = Some (Alert.mkWatcher a Ws.fresh)
         /\ JsMap.get (Alert.alertId a) (Alert.activeAlerts st') = Some new
         /\ JsMap.keys (Alert.activeAlerts st') = JsMap.keys (Alert.activeAlerts st))
  /\ (forall st a,
         JsMap.has (PositionAlert.alertKey a) (PositionAlert.activeAlerts st)
         = true ->
         PositionAlert.startPositionAlert a st = st).
Proof.
  split.
  { intros st H. pose proof (wf_reachable st H) as [_ Hn Ha _].
    split; [exact Hn |]. intros k ws Hk.
    destruct (Ha k ws Hk) as [sl [E1 E2]]. unfold cfg_at in E1.
    destruct (nth_error (StopLoss.sockets st) ws) as [w |]; [| discriminate].
    exists w. split; [reflexivity |]. cbn in E1. congruence. }
  split.
  { intros client es st H. split.
    - apply (alert_run_nodup es (Alert.setDiscordClient client Alert.init) st);
        [constructor | exact H].
    - intros k ws Hk.
      assert (Hn : alert_names st).
      { apply (alert_names_run es (Alert.setDiscordClient client Alert.init) st);
          [| exact H].
        intros k' ws' Hk'. discriminate. }
      destruct (Hn k ws Hk) as [a [E1 E2]]. unfold alert_cfg_at in E1.
      destruct (nth_error (Alert.sockets st) ws) as [w |]; [| discriminate].
      exists w. split; [reflexivity |]. cbn in E1. congruence. }
  split.
  { intros st sl old w Hget Hw st' new. subst st' new.
    unfold StopLoss.startStopLoss. rewrite (has_of_get _ _ _ Hget), Hget. cbn.
    destruct (nth_error_upd_snoc
                (fun w0 => StopLoss.mkWatcher (StopLoss.w_stopLoss w0)
                             (Ws.close (StopLoss.w_ws w0))
                             (StopLoss.w_hasExecuted w0))
                (StopLoss.sockets st)
                (StopLoss.mkWatcher sl Ws.fresh false) w old Hw) as [E1 E2].
    unfold closeCalls_at. rewrite upd_length, E1, E2. cbn.
    split; [reflexivity |]. split; [reflexivity |].
    split; [reflexivity |]. split; [apply get_set_same |].
    apply keys_set_present. congruence. }
  split.
  { intros st a old w Hget Hw st' new. subst st' new.
    unfold Alert.startAlert. rewrite (has_of_get _ _ _ Hget), Hget. cbn.
    destruct (nth_error_upd_snoc
                (fun w0 => Alert.mkWatcher (Alert.w_alert w0)
                             (Ws.close (Alert.w_ws w0)))
                (Alert.sockets st) (Alert.mkWatcher a Ws.fresh) w old Hw)
      as [E1 E2].
    unfold closeCalls_at. rewrite upd_length, E1, E2. cbn.
    split; [reflexivity |]. split; [reflexivity |].
    split; [reflexivity |]. split; [apply get_set_same |].
    apply keys_set_present. congruence. }
  intros st a H. unfold PositionAlert.startPositionAlert. now rewrite H.
Qed.

Lemma C1_one_registered_watcher_per_key_witness :
  (exists w, nth_error (StopLoss.sockets (after restart_trace)) 2 = Some w
             /\ StopLoss.stopLossId (StopLoss.w_stopLoss w) = "1234-T-yes")
  /\ JsMap.get (StopLoss.stopLossId sl_050_10)
       (StopLoss.activeStopLosses
          (StopLoss.startStopLoss sl_050_10 true
             (after [StopLoss.Start sl_050_10 true])))
     = Some 1
  /\ PositionAlert.startPositionAlert position_050_10
       (PositionAlert.startPositionAlert position_050_10 PositionAlert.init)
     = PositionAlert.startPositionAlert position_050_10 PositionAlert.init.
Proof.
  pose proof C1_one_registered_watcher_per_key as [H1 [_ [H3 [_ H5]]]].
  split; [| split].
  - apply (H1 (after restart_trace)).
    + exists 0, restart_trace. vm_compute. reflexivity.
    + vm_compute. reflexivity.
  - apply (H3 (after [StopLoss.Start sl_050_10 true]) sl_050_10 0
              (StopLoss.mkWatcher sl_050_10 Ws.fresh false));
      vm_compute; reflexivity.
  - apply H5. vm_compute. reflexivity.
Defined.

(** * Further properties of the managers *)

(** ** stop and stop-all *)

Lemma filter_none {A} (f : A -> bool) (l : list A) :
  (forall x, In x l -> f x = false) -> filter f l = [].
Proof.
  induction l as [| a r IH]; intros H; cbn; [reflexivity |].
  rewrite (H a (or_introl eq_refl)). apply IH. intros x Hx. apply H. now right.
Qed.

Section StopAllFacts.
Variable State : Type.
Variable active : State -> JsMap.t nat.
Variable close : nat -> State -> State.
Variable delete : string -> State -> State.
Hypothesis active_close : forall ws s, active (close ws s) = active s.
Hypothesis active_delete :
  forall id s, active (delete id s) = JsMap.delete id (active s).

Lemma active_stop_one' s id :
  active (stop_one active close delete s id) = JsMap.delete id (active s).
Proof.
  unfold stop_one. rewrite active_delete.
  destruct (JsMap.get id (active s)); now rewrite ?active_close.
Qed.

(** The keys left by the loop are the keys it did not visit. *)
Lemma keys_after_fold l :
  forall s k,
    In k (JsMap.keys (active (fold_left (stop_one active close delete) l s)))
    <-> In k (JsMap.keys (active s)) /\ ~ In k l.
Proof.
  induction l as [| a r IH]; intros s k; cbn; [tauto |].
  rewrite IH, active_stop_one', in_keys_delete. intuition congruence.
Qed.

Lemma keys_after_entries u l :
  forall acc k,
    In k (JsMap.keys (active (snd (fold_left (stop_entry close delete u) l acc))))
    <-> In k (JsMap.keys (active (snd acc)))
        /\ ~ (In k (map fst l) /\ Js.startsWith k u = true).
Proof.
  induction l as [| [key ws] r IH]; intros [c s] k; cbn [fold_left map fst].
  - cbn. tauto.
  - rewrite IH. cbn [stop_entry]. destruct (Js.startsWith key u) eqn:E; cbn [snd].
    + rewrite active_delete, active_close, in_keys_delete. cbn [In].
      split.
      * intros [[Hne Hin] Hno]. split; [exact Hin |].
        intros [[-> | Hr] Hs]; [congruence | tauto].
      * intros [Hin Hno]. split; [split; [| exact Hin] |].
        -- intros ->. apply Hno. split; [now left | exact E].
        -- intros [Hr Hs]. apply Hno. split; [now right | exact Hs].
    + cbn [In]. split.
      * intros [Hin Hno]. split; [exact Hin |].
        intros [[-> | Hr] Hs]; [congruence | tauto].
      * intros [Hin Hno]. split; [exact Hin |].
        intros [Hr Hs]. apply Hno. split; [now right | exact Hs].
Qed.

Lemma count_entries u l :
  forall acc,
    fst (fold_left (stop_entry close delete u) l acc)
    = fst acc + List.length (filter (fun key => Js.startsWith key u) (map fst l)).
Proof.
  induction l as [| [key ws] r IH]; intros [c s]; cbn [fold_left map fst filter].
  - cbn. lia.
  - rewrite IH. cbn [stop_entry].
    destruct (Js.startsWith key u); cbn; lia.
Qed.

End StopAllFacts.

(** After stop-all for [u] no key that starts with [u] is registered, so
    the user's list is empty, and the number returned is the number of
    keys that were listed; in all three files. *)
Theorem stop_all_empties_list :
  forall (u : string),
    (forall st,
        fst (StopLoss.stopAllStopLosses u st)
        = List.length (StopLoss.getActiveStopLosses u st)
        /\ StopLoss.getActiveStopLosses u (snd (StopLoss.stopAllStopLosses u st))
           = [])
    /\ (forall st,
           fst (Alert.stopAllAlerts u st)
           = List.length (Alert.getActiveAlerts u st)
           /\ Alert.getActiveAlerts u (snd (Alert.stopAllAlerts u st)) = [])
    /\ (forall st,
           fst (PositionAlert.stopAllAlertsForUser u st)
           = List.length (filter (fun key => Js.startsWith key u)
                                 (PositionAlert.getActiveAlerts st))
           /\ filter (fun key => Js.startsWith key u)
                     (PositionAlert.getActiveAlerts
                        (snd (PositionAlert.stopAllAlertsForUser u st)))
              = []).
Proof.
  intros u. split; [| split].
  - intros st. split; [reflexivity |].
    unfold StopLoss.getActiveStopLosses at 1. apply filter_none.
    intros k Hk. cbn [StopLoss.stopAllStopLosses snd] in Hk.
    apply (keys_after_fold StopLoss.State StopLoss.activeStopLosses
             StopLoss.close StopLoss.delete) in Hk; auto.
    destruct Hk as [Hin Hno].
    destruct (Js.startsWith k u) eqn:E; [| reflexivity].
    exfalso. apply Hno. apply filter_In. now split.
  - intros st. split; [reflexivity |].
    unfold Alert.getActiveAlerts at 1. apply filter_none.
    intros k Hk. cbn [Alert.stopAllAlerts snd] in Hk.
    apply (keys_after_fold Alert.State Alert.activeAlerts
             Alert.close Alert.delete) in Hk; auto.
    destruct Hk as [Hin Hno].
    destruct (Js.startsWith k u) eqn:E; [| reflexivity].
    exfalso. apply Hno. apply filter_In. now split.
  - intros st. split.
    + exact (count_entries PositionAlert.State PositionAlert.close
                 PositionAlert.delete u
                 (JsMap.entries (PositionAlert.activeAlerts st)) (0, st)).
    + apply filter_none. intros k Hk.
      unfold PositionAlert.getActiveAlerts, PositionAlert.stopAllAlertsForUser in Hk.
      apply (keys_after_entries PositionAlert.State PositionAlert.activeAlerts
               PositionAlert.close PositionAlert.delete) in Hk; auto.
      destruct Hk as [Hin Hno]. cbn [snd] in Hin.
      destruct (Js.startsWith k u) eqn:E; [| reflexivity].
      exfalso. apply Hno. split; [exact Hin | reflexivity].
Qed.

Lemma spare_fold k ws l :
  forall s,
    wf s ->
    (forall id, In id l -> id <> k) ->
    JsMap.get k (StopLoss.activeStopLosses s) = Some ws ->
    let s' := fold_left
                (fun x id =>
                   StopLoss.delete id
                     match JsMap.get id (StopLoss.activeStopLosses x) with
                     | Some w => StopLoss.close w x
                     | None => x
                     end) l s in
    JsMap.get k (StopLoss.activeStopLosses s') = Some ws
    /\ nth_error (StopLoss.sockets s') ws = nth_error (StopLoss.sockets s) ws.
Proof.
  induction l as [| a r IH]; intros s Hwf Hne Hk; cbn; [auto |].
  set (s1 := StopLoss.delete a _).
  assert (Hak : a <> k) by (apply Hne; now left).
  assert (Hwf1 : wf s1).
  { subst s1. apply wf_delete.
    destruct (JsMap.get a (StopLoss.activeStopLosses s));
      [apply wf_close |]; exact Hwf. }
  assert (Hk1 : JsMap.get k (StopLoss.activeStopLosses s1) = Some ws).
  { subst s1. cbn. destruct (JsMap.get a (StopLoss.activeStopLosses s)); cbn;
      now rewrite get_delete_other. }
  assert (Hn1 : nth_error (StopLoss.sockets s1) ws
                = nth_error (StopLoss.sockets s) ws).
  { subst s1. cbn. destruct (JsMap.get a (StopLoss.activeStopLosses s)) as [w |] eqn:Ea;
      [| reflexivity].
    cbn. apply nth_error_upd_other. intros ->.
    destruct (wf_active s Hwf a ws Ea) as [sl1 [E1 E2]].
    destruct (wf_active s Hwf k ws Hk) as [sl2 [E3 E4]].
    congruence. }
  destruct (IH s1 Hwf1 (fun id H => Hne id (or_intror H)) Hk1) as [H1 H2].
  split; [exact H1 | now rewrite H2].
Qed.

(** In every state the stop-loss event loop reaches, stop-all for [u]
    leaves every watcher whose key does not start with [u] as it was: the
    key stays registered for the same socket and the socket is untouched
    (no [close()] call, same ready state, same flag). *)
Theorem stop_all_spares_other_keys :
  forall (u k : string) (st : StopLoss.State) (ws : nat),
    StopLoss.reachable st ->
    Js.startsWith k u = false ->
    JsMap.get k (StopLoss.activeStopLosses st) = Some ws ->
    JsMap.get k (StopLoss.activeStopLosses (snd (StopLoss.stopAllStopLosses u st)))
    = Some ws
    /\ nth_error (StopLoss.sockets (snd (StopLoss.stopAllStopLosses u st))) ws
       = nth_error (StopLoss.sockets st) ws.
Proof.
  intros u k st ws Hr Hu Hk.
  apply (spare_fold k ws (StopLoss.getActiveStopLosses u st) st);
    [now apply wf_reachable | | exact Hk].
  intros id Hin ->. apply filter_In in Hin. destruct Hin as [_ Hs]. congruence.
Qed.

Lemma stop_all_spares_other_keys_witness :
  JsMap.get "9-T-no"
    (StopLoss.activeStopLosses
       (snd (StopLoss.stopAllStopLosses "123"
               (after [StopLoss.Start sl_050_10 true;
                       StopLoss.Start sl_user9 true]))))
  = Some 1
  /\ nth_error
       (StopLoss.sockets
          (snd (StopLoss.stopAllStopLosses "123"
                  (after [StopLoss.Start sl_050_10 true;
                          StopLoss.Start sl_user9 true])))) 1
     = Some (StopLoss.mkWatcher sl_user9 Ws.fresh false).
Proof.
  apply (stop_all_spares_other_keys "123" "9-T-no"
           (after [StopLoss.Start sl_050_10 true; StopLoss.Start sl_user9 true]) 1).
  - exists 0, [StopLoss.Start sl_050_10 true; StopLoss.Start sl_user9 true].
    vm_compute. reflexivity.
  - vm_compute. reflexivity.
  - vm_compute. reflexivity.
Defined.

(** stopPositionAlert: when the key is registered for a socket it returns
    true, makes exactly one [close()] call on that socket (which is then
    CLOSING, or CLOSED if it was so before) and touches no other, the key
    is gone, and a second call returns false and changes nothing; when the key is not registered it returns false and changes
    nothing. *)
Theorem stopPositionAlert_once :
  forall (d t : string),
    (forall st ws w,
        JsMap.get (PositionAlert.alertKey_of d t) (PositionAlert.activeAlerts st)
        = Some ws ->
        nth_error (PositionAlert.sockets st) ws = Some w ->
        exists st',
          PositionAlert.stopPositionAlert d t st = (true, st')
          /\ closeCalls_at PositionAlert.w_ws (PositionAlert.sockets st') ws
             = S (Ws.closeCalls (PositionAlert.w_ws w))
          /\ nth_error (PositionAlert.sockets st') ws
             = Some (PositionAlert.mkWatcher (PositionAlert.w_alert w)
                       (Ws.close (PositionAlert.w_ws w))
                       (PositionAlert.w_hasTriggered w))
          /\ (forall j, j <> ws ->
                        nth_error (PositionAlert.sockets st') j
                        = nth_error (PositionAlert.sockets st) j)
          /\ ~ In (PositionAlert.alertKey_of d t) (PositionAlert.getActiveAlerts st')
          /\ PositionAlert.stopPositionAlert d t st' = (false, st'))
    /\ (forall st,
           JsMap.get (PositionAlert.alertKey_of d t) (PositionAlert.activeAlerts st)
           = None ->
           PositionAlert.stopPositionAlert d t st = (false, st)).
Proof.
  intros d t. split.
  - intros st ws w Hget Hw. unfold PositionAlert.stopPositionAlert. rewrite Hget.
    eexists. split; [reflexivity |]. cbn.
    unfold closeCalls_at. rewrite nth_error_upd_same, Hw. cbn.
    split; [reflexivity |]. split; [reflexivity |].
    split.
    { intros j Hj. apply nth_error_upd_other. congruence. }
    split.
    { unfold PositionAlert.getActiveAlerts. cbn. intros Hin.
      apply in_keys_delete in Hin. tauto. }
    rewrite get_delete_same. reflexivity.
  - intros st Hget. unfold PositionAlert.stopPositionAlert. now rewrite Hget.
Qed.

Lemma stopPositionAlert_once_witness :
  fst (PositionAlert.stopPositionAlert "1234" "T"
         (PositionAlert.startPositionAlert position_050_10 PositionAlert.init))
  = true.
Proof.
  destruct (proj1 (stopPositionAlert_once "1234" "T")
              (PositionAlert.startPositionAlert position_050_10 PositionAlert.init)
              0 (PositionAlert.mkWatcher position_050_10 Ws.fresh false)
              eq_refl eq_refl) as [st' [H _]].
  rewrite H. reflexivity.
Defined.

(** ** start, then list and stop *)

Lemma prefix_self_app (u r : string) : String.prefix u (u ++ r) = true.
Proof.
  induction u as [| c u IH]; cbn; [destruct r; reflexivity |].
  destruct (Ascii.ascii_dec c c); [exact IH | congruence].
Qed.

Lemma nth_error_snoc_upd {A} (f : A -> A) (l : list A) (x : A) :
  nth_error (upd (List.length l) f (l ++ [x])) (List.length l) = Some (f x).
Proof.
  rewrite nth_error_upd_same, nth_error_app2 by lia.
  now rewrite Nat.sub_diag.
Qed.

Lemma stoploss_start_registers st sl :
  let st' := StopLoss.startStopLoss sl true st in
  let new := List.length (StopLoss.sockets st) in
  JsMap.get (StopLoss.stopLossId sl) (StopLoss.activeStopLosses st') = Some new
  /\ exists l, StopLoss.sockets st' = (l ++ [StopLoss.mkWatcher sl Ws.fresh false])%list
               /\ List.length l = new.
Proof.
  cbn zeta. unfold StopLoss.startStopLoss.
  set (st1 := if JsMap.has _ _ then _ else st).
  assert (E : List.length (StopLoss.sockets st1) = List.length (StopLoss.sockets st)).
  { subst st1. destruct (JsMap.has _ _); [| reflexivity].
    destruct (JsMap.get _ _); [apply upd_length | reflexivity]. }
  cbn. rewrite <- E. split; [apply get_set_same |].
  exists (StopLoss.sockets st1). split; reflexivity.
Qed.

Lemma alert_start_registers st a :
  let st' := Alert.startAlert a true st in
  let new := List.length (Alert.sockets st) in
  JsMap.get (Alert.alertId a) (Alert.activeAlerts st') = Some new
  /\ exists l, Alert.sockets st' = (l ++ [Alert.mkWatcher a Ws.fresh])%list
               /\ List.length l = new.
Proof.
  cbn zeta. unfold Alert.startAlert.
  set (st1 := if JsMap.has _ _ then _ else st).
  assert (E : List.length (Alert.sockets st1) = List.length (Alert.sockets st)).
  { subst st1. destruct (JsMap.has _ _); [| reflexivity].
    destruct (JsMap.get _ _); [apply upd_length | reflexivity]. }
  cbn. rewrite <- E. split; [apply get_set_same |].
  exists (Alert.sockets st1). split; reflexivity.
Qed.

(** A watcher started with a key that signs can be listed and stopped by
    its owner: after start, from any state, the key is in the owner's list,
    and stop with the watcher's user, ticker and side returns true, makes
    one [close()] call on the socket just created and removes the key; in
    StopLossManager and in AlertManager. *)
Theorem start_then_list_and_stop :
  (forall st sl,
      let st' := StopLoss.startStopLoss sl true st in
      let new := List.length (StopLoss.sockets st) in
      In (StopLoss.stopLossId sl)
         (StopLoss.getActiveStopLosses (StopLoss.userId sl) st')
      /\ exists st'',
          StopLoss.stopStopLoss (StopLoss.userId sl) (StopLoss.marketTicker sl)
                                (side_str (StopLoss.side sl)) st'
          = (true, st'')
          /\ nth_error (StopLoss.sockets st'') new
             = Some (StopLoss.mkWatcher sl (Ws.mkWs Ws.CLOSING 1) false)
          /\ JsMap.get (StopLoss.stopLossId sl) (StopLoss.activeStopLosses st'')
             = None)
  /\ (forall st a,
         let st' := Alert.startAlert a true st in
         let new := List.length (Alert.sockets st) in
         In (Alert.alertId a) (Alert.getActiveAlerts (Alert.userId a) st')
         /\ exists st'',
             Alert.stopAlert (Alert.userId a) (Alert.marketTicker a)
                             (side_str (Alert.side a)) st'
             = (true, st'')
             /\ nth_error (Alert.sockets st'') new
                = Some (Alert.mkWatcher a (Ws.mkWs Ws.CLOSING 1))
             /\ JsMap.get (Alert.alertId a) (Alert.activeAlerts st'') = None).
Proof.
  split.
  - intros st sl. cbn zeta.
    destruct (stoploss_start_registers st sl) as [Hget [l [Hs Hl]]].
    remember (StopLoss.startStopLoss sl true st) as st' eqn:Est. clear Est.
    remember (List.length (StopLoss.sockets st)) as new eqn:En. clear En.
    split.
    + unfold StopLoss.getActiveStopLosses. apply filter_In. split.
      * apply in_keys_get. congruence.
      * unfold Js.startsWith, StopLoss.stopLossId, StopLoss.stopLossId_of.
        apply prefix_self_app.
    + unfold StopLoss.stopStopLoss.
      change (StopLoss.stopLossId_of (StopLoss.userId sl) (StopLoss.marketTicker sl)
                (side_str (StopLoss.side sl))) with (StopLoss.stopLossId sl).
      rewrite Hget. eexists. split; [reflexivity |].
      unfold StopLoss.delete, StopLoss.close, StopLoss.with_active,
        StopLoss.with_sockets.
      cbn [StopLoss.sockets StopLoss.activeStopLosses].
      split; [| apply get_delete_same].
      rewrite Hs, <- Hl. now rewrite nth_error_snoc_upd.
  - intros st a. cbn zeta.
    destruct (alert_start_registers st a) as [Hget [l [Hs Hl]]].
    remember (Alert.startAlert a true st) as st' eqn:Est. clear Est.
    remember (List.length (Alert.sockets st)) as new eqn:En. clear En.
    split.
    + unfold Alert.getActiveAlerts. apply filter_In. split.
      * apply in_keys_get. congruence.
      * unfold Js.startsWith, Alert.alertId, Alert.alertId_of.
        apply prefix_self_app.
    + unfold Alert.stopAlert.
      change (Alert.alertId_of (Alert.userId a) (Alert.marketTicker a)
                (side_str (Alert.side a))) with (Alert.alertId a).
      rewrite Hget. eexists. split; [reflexivity |].
      unfold Alert.delete, Alert.close, Alert.with_active, Alert.with_sockets.
      cbn [Alert.sockets Alert.activeAlerts].
      split; [| apply get_delete_same].
      rewrite Hs, <- Hl. now rewrite nth_error_snoc_upd.
Qed.

(** startPositionAlert keys a watcher by user and ticker only: once an
    alert of a user on a ticker has been started, a start for the same
    user and ticker changes nothing, whatever its side, base price or
    threshold, so the second alert is never watched. *)
Theorem position_alert_key_ignores_side :
  forall (a a' : PositionAlert.PositionAlert) (st : PositionAlert.State),
    PositionAlert.discordId a' = PositionAlert.discordId a ->
    PositionAlert.marketTicker a' = PositionAlert.marketTicker a ->
    PositionAlert.startPositionAlert a'
      (PositionAlert.startPositionAlert a st)
    = PositionAlert.startPositionAlert a st.
Proof.
  intros a a' st Hd Ht.
  assert (Hk : PositionAlert.alertKey a' = PositionAlert.alertKey a)
    by (unfold PositionAlert.alertKey; now rewrite Hd, Ht).
  assert (Hhas : JsMap.has (PositionAlert.alertKey a)
                   (PositionAlert.activeAlerts
                      (PositionAlert.startPositionAlert a st)) = true).
  { unfold PositionAlert.startPositionAlert.
    destruct (JsMap.has (PositionAlert.alertKey a) (PositionAlert.activeAlerts st))
      eqn:E; [exact E |].
    cbn. unfold JsMap.has. now rewrite get_set_same. }
  unfold PositionAlert.startPositionAlert at 1. now rewrite Hk, Hhas.
Qed.

Lemma position_alert_key_ignores_side_witness :
  PositionAlert.sockets
    (PositionAlert.startPositionAlert
       (PositionAlert.mkPositionAlert "1234" "T" no 0.3 0.2 1 "key" "pem")
       (PositionAlert.startPositionAlert position_050_10 PositionAlert.init))
  = [PositionAlert.mkWatcher position_050_10 Ws.fresh false].
Proof.
  rewrite (position_alert_key_ignores_side position_050_10
             (PositionAlert.mkPositionAlert "1234" "T" no 0.3 0.2 1 "key" "pem")
             PositionAlert.init eq_refl eq_refl).
  reflexivity.
Defined.

(** ** A start whose private key does not sign *)

Lemma handleClose_cfg st ws sl :
  cfg_at st ws = Some sl ->
  StopLoss.handleClose ws st = StopLoss.delete (StopLoss.stopLossId sl) st.
Proof.
  unfold cfg_at, StopLoss.handleClose.
  destruct (nth_error (StopLoss.sockets st) ws); cbn; congruence.
Qed.

(** startStopLoss with a private key that [crypto] rejects: nothing is
    created or registered.  When the key was registered, in a state the
    event loop reaches, the registered socket has nevertheless received
    its [close()] call (it is left CLOSING, or CLOSED if it was so
    before), and its ['close'] event then removes the key: the earlier
    watcher is no longer registered and none replaces it.  When the key
    was not registered the state is unchanged. *)
Theorem start_without_signature :
  forall (st : StopLoss.State) (sl : StopLoss.StopLossOrder),
    (forall old,
        StopLoss.reachable st ->
        JsMap.get (StopLoss.stopLossId sl) (StopLoss.activeStopLosses st)
        = Some old ->
        let st' := StopLoss.startStopLoss sl false st in
        StopLoss.activeStopLosses st' = StopLoss.activeStopLosses st
        /\ List.length (StopLoss.sockets st') = List.length (StopLoss.sockets st)
        /\ closes st' old = S (closes st old)
        /\ (exists w,
               nth_error (StopLoss.sockets st) old = Some w
               /\ nth_error (StopLoss.sockets st') old
                  = Some (StopLoss.mkWatcher (StopLoss.w_stopLoss w)
                            (Ws.close (StopLoss.w_ws w))
                            (StopLoss.w_hasExecuted w)))
        /\ (forall st'',
               StopLoss.step (StopLoss.OnClose old) st' = Some st'' ->
               JsMap.get (StopLoss.stopLossId sl) (StopLoss.activeStopLosses st'')
               = None))
    /\ (JsMap.get (StopLoss.stopLossId sl) (StopLoss.activeStopLosses st) = None ->
        StopLoss.startStopLoss sl false st = st).
Proof.
  intros st sl. split.
  - intros old Hr Hget. cbn zeta.
    pose proof (wf_reachable st Hr) as Hwf.
    destruct (wf_active st Hwf _ _ Hget) as [sl0 [Hcfg Hid]].
    unfold StopLoss.startStopLoss. rewrite (has_of_get _ _ _ Hget), Hget.
    split; [reflexivity |]. split; [apply upd_length |].
    split; [apply closes_close_same; congruence |].
    split.
    { cbn. rewrite nth_error_upd_same.
      unfold cfg_at in Hcfg.
      destruct (nth_error (StopLoss.sockets st) old) as [w |]; [| discriminate].
      exists w. split; reflexivity. }
    intros st'' Hstep. cbn [StopLoss.step] in Hstep.
    assert (Hc : forall r,
               StopLoss.handleClose old
                 (StopLoss.set_readyState old r (StopLoss.close old st))
               = StopLoss.delete (StopLoss.stopLossId sl0)
                   (StopLoss.set_readyState old r (StopLoss.close old st))).
    { intros r. apply handleClose_cfg.
      unfold StopLoss.set_readyState. rewrite cfg_at_upd by reflexivity.
      now rewrite cfg_at_close. }
    destruct (StopLoss.readyState_of old (StopLoss.close old st)) as [[] |];
      try discriminate; injection Hstep as <-; rewrite Hc, Hid; cbn;
      apply get_delete_same.
  - intros Hget. unfold StopLoss.startStopLoss, JsMap.has. now rewrite Hget.
Qed.

Lemma start_without_signature_witness :
  JsMap.get "1234-T-yes"
    (StopLoss.activeStopLosses
       (after [StopLoss.Start sl_050_10 true; StopLoss.Start sl_050_10 false;
               StopLoss.OnClose 0]))
  = None.
Proof.
  apply (proj1 (start_without_signature
                  (after [StopLoss.Start sl_050_10 true]) sl_050_10) 0).
  - exists 0, [StopLoss.Start sl_050_10 true]. vm_compute. reflexivity.
  - vm_compute. reflexivity.
  - vm_compute. reflexivity.
Defined.

(** ** Frames that are not for the watcher *)

(** A frame that does not parse, has a type other than market_ticker,
    carries no data or names another ticker is ignored by all three
    handlers, whatever prices it carries and whatever the watcher's flag;
    in the two managers the turn leaves the state as it was. *)
Theorem foreign_frame_ignored :
  forall (raw : Raw),
    (forall sl h, foreign (StopLoss.marketTicker sl) raw = true ->
                  StopLoss.onMessage sl h raw = NONE)
    /\ (forall a, foreign (Alert.marketTicker a) raw = true ->
                  Alert.onMessage a raw = NONE)
    /\ (forall pa h, foreign (PositionAlert.marketTicker pa) raw = true ->
                     PositionAlert.onMessage pa h raw = NONE)
    /\ (forall st ws w,
           nth_error (StopLoss.sockets st) ws = Some w ->
           foreign (StopLoss.marketTicker (StopLoss.w_stopLoss w)) raw = true ->
           StopLoss.handleMessage ws raw st = st)
    /\ (forall st ws w,
           nth_error (Alert.sockets st) ws = Some w ->
           foreign (Alert.marketTicker (Alert.w_alert w)) raw = true ->
           Alert.handleMessage ws raw st = st).
Proof.
  intros raw.
  assert (S1 : forall sl h, foreign (StopLoss.marketTicker sl) raw = true ->
                            StopLoss.onMessage sl h raw = NONE).
  { intros sl h. unfold foreign, StopLoss.onMessage.
    destruct raw as [| msg]; [reflexivity |].
    destruct (negb (msg_type msg =? "market_ticker")); [reflexivity |].
    destruct (msg_data msg) as [data |]; [| reflexivity]. cbn [orb].
    now intros ->. }
  assert (S2 : forall a, foreign (Alert.marketTicker a) raw = true ->
                         Alert.onMessage a raw = NONE).
  { intros a. unfold foreign, Alert.onMessage.
    destruct raw as [| msg]; [reflexivity |].
    destruct (negb (msg_type msg =? "market_ticker")); [reflexivity |].
    destruct (msg_data msg) as [data |]; [| reflexivity]. cbn [orb].
    now intros ->. }
  split; [exact S1 |]. split; [exact S2 |]. split.
  { intros pa h. unfold foreign, PositionAlert.onMessage.
    destruct raw as [| msg]; [reflexivity |].
    destruct (negb (msg_type msg =? "market_ticker")); [reflexivity |].
    destruct (msg_data msg) as [data |]; [| reflexivity]. cbn [orb].
    now intros ->. }
  split.
  - intros st ws w Hw Hf. unfold StopLoss.handleMessage.
    now rewrite Hw, (S1 _ _ Hf).
  - intros st ws w Hw Hf. unfold Alert.handleMessage.
    now rewrite Hw, (S2 _ Hf).
Qed.

Lemma foreign_frame_ignored_witness :
  StopLoss.onMessage sl_050_10 false (tick (mkUpdate "OTHER" (Some 0.01%float) None))
  = NONE.
Proof.
  apply (proj1 (foreign_frame_ignored
                  (tick (mkUpdate "OTHER" (Some 0.01%float) None)))).
  reflexivity.
Defined.

(** ** The pipeline without a Discord client *)

(** When no Discord client is set, a fired stop-loss fetches nothing,
    submits no order and notifies nobody, and a fired alert sends nothing;
    the handler still closes the socket and removes the key, so the
    watcher is gone and the position is not sold. *)
Theorem no_client_no_action :
  (forall st s venue w,
      StopLoss.discordClient st = None ->
      nth_error (StopLoss.sockets st) (StopLoss.s_ws s) = Some w ->
      let st' := StopLoss.resume s venue st in
      StopLoss.log st' = StopLoss.log st
      /\ JsMap.get (StopLoss.stopLossId (StopLoss.w_stopLoss w))
                   (StopLoss.activeStopLosses st') = None
      /\ closes st' (StopLoss.s_ws s) = S (closes st (StopLoss.s_ws s)))
  /\ (forall st s info w,
         Alert.discordClient st = None ->
         nth_error (Alert.sockets st) (Alert.s_ws s) = Some w ->
         let st' := Alert.resume s info st in
         Alert.log st' = Alert.log st
         /\ JsMap.get (Alert.alertId (Alert.w_alert w)) (Alert.activeAlerts st')
            = None
         /\ closeCalls_at Alert.w_ws (Alert.sockets st') (Alert.s_ws s)
            = S (closeCalls_at Alert.w_ws (Alert.sockets st) (Alert.s_ws s))).
Proof.
  split.
  - intros st s venue w Hc Hw. cbn zeta. unfold StopLoss.resume.
    rewrite Hw, Hc. cbn [StopLoss.executeSellOrder].
    split; [cbn; apply app_nil_r |]. split; [cbn; apply get_delete_same |].
    unfold closes, closeCalls_at. cbn. now rewrite nth_error_upd_same, Hw.
  - intros st s info w Hc Hw. cbn zeta. unfold Alert.resume.
    rewrite Hw, Hc. cbn [Alert.sendAlert].
    split; [cbn; apply app_nil_r |]. split; [cbn; apply get_delete_same |].
    unfold closeCalls_at. cbn. now rewrite nth_error_upd_same, Hw.
Qed.

Lemma no_client_no_action_witness :
  StopLoss.log (after_unset (fired_trace ++ [StopLoss.Resume 0 filling_venue])) = []
  /\ StopLoss.activeStopLosses
       (after_unset (fired_trace ++ [StopLoss.Resume 0 filling_venue])) = [].
Proof.
  destruct (proj1 no_client_no_action
              (StopLoss.mkState
                 (StopLoss.activeStopLosses (after_unset fired_trace)) None
                 (StopLoss.sockets (after_unset fired_trace)) [] [])
              (StopLoss.mkSuspended 0 0.45 (yes_tick 0.45)) filling_venue
              (StopLoss.mkWatcher sl_050_10 (Ws.mkWs Ws.OPEN 0) true)
              eq_refl eq_refl) as [H1 _].
  split; [exact H1 | vm_compute; reflexivity].
Defined.

(** ** The order the pipeline submits *)

Lemma sendStopLossDM_no_order dc dis sl p d o e :
  filter StopLoss.is_PostOrder (StopLoss.sendStopLossDM dc dis sl p d o e) = []
  /\ forall k payload,
      ~ In (StopLoss.PostOrder k payload)
           (StopLoss.sendStopLossDM dc dis sl p d o e).
Proof.
  unfold StopLoss.sendStopLossDM.
  destruct dc; [| cbn; split; auto].
  destruct (usersFetch dis); [| cbn; split; auto].
  destruct (embedBuilt dis); [| cbn; split; auto].
  cbn; split; auto.
  intros k payload [H | []]. discriminate.
Qed.

Lemma or_num_positive x :
  (Js.or_num x 0 <=? 0)%float = false -> Js.or_num x 0 = x.
Proof.
  unfold Js.or_num. destruct (Js.truthy x); [reflexivity |].
  intros H. exfalso. revert H. vm_compute. discriminate.
Qed.

(** What [find] returns is the first element with the ticker. *)
Lemma findPosition_some t ps pos :
  StopLoss.findPosition t ps = Some pos ->
  exists before rest,
    ps = (before ++ pos :: rest)%list
    /\ (forall x, In x before -> StopLoss.ticker x <> t)
    /\ StopLoss.ticker pos = t.
Proof.
  unfold StopLoss.findPosition. induction ps as [| x r IH]; cbn; [discriminate |].
  destruct (String.eqb_spec (StopLoss.ticker x) t) as [E | Hne].
  - intros [= <-]. exists [], r. split; [reflexivity |].
    split; [intros y [] | exact E].
  - intros H. destruct (IH H) as [before [rest [-> [Hb Ht]]]].
    exists (x :: before), rest. split; [reflexivity |].
    split; [| exact Ht].
    intros y [<- | Hy]; [exact Hne | now apply Hb].
Qed.

(** One run of executeSellOrder submits at most one order.  An order it
    submits is a market order signed with the watcher's API key, for the
    watcher's ticker and held side, and its quantity is the size of the
    first element of the fetched list that carries the watcher's ticker
    ([pos], after the elements [before], none of which carries it), which
    is not [<= 0]: the whole position is sold, never a part and never an
    empty or negative quantity. *)
Theorem pipeline_order_is_full_exit :
  forall (dc : option DiscordClient) (sl : StopLoss.StopLossOrder)
         (currentPrice : float) (marketData : MarketUpdate)
         (venue : StopLoss.Venue),
    let run := StopLoss.executeSellOrder dc sl currentPrice marketData venue in
    List.length (filter StopLoss.is_PostOrder run) <= 1
    /\ forall k payload,
        In (StopLoss.PostOrder k payload) run ->
        k = StopLoss.apiKey sl
        /\ StopLoss.op_ticker payload = StopLoss.marketTicker sl
        /\ StopLoss.op_side payload = StopLoss.side sl
        /\ StopLoss.op_type payload = "market"
        /\ (StopLoss.op_quantity payload <=? 0)%float = false
        /\ exists pd before pos rest,
            StopLoss.getPositions venue = inr pd
            /\ StopLoss.market_positions pd = Some (before ++ pos :: rest)%list
            /\ (forall x, In x before ->
                          StopLoss.ticker x <> StopLoss.marketTicker sl)
            /\ StopLoss.ticker pos = StopLoss.marketTicker sl
            /\ StopLoss.op_quantity payload = StopLoss.position_fp pos.
Proof.
  intros dc sl cp md venue run. subst run. unfold StopLoss.executeSellOrder.
  destruct dc as [c |]; [| cbn; split; [lia | intros k p []]].
  destruct (StopLoss.getPositions venue) as [err | pd] eqn:Eg.
  - destruct (sendStopLossDM_no_order (Some c) (StopLoss.discord venue)
                sl cp md None (Some (StopLoss.reason err))) as [F N].
    cbn [filter StopLoss.is_PostOrder]. rewrite F. split; [cbn; lia |].
    intros k p [H | H]; [discriminate | now apply N in H].
  - destruct (StopLoss.positionQuantity sl pd <=? 0)%float eqn:Eq.
    + destruct (sendStopLossDM_no_order (Some c) (StopLoss.discord venue)
                  sl cp md None (Some "Position not found")) as [F N].
      cbn [filter StopLoss.is_PostOrder]. rewrite F. split; [cbn; lia |].
      intros k p [H | H]; [discriminate | now apply N in H].
    + assert (Hrest : forall l,
                 (exists o e, l = StopLoss.sendStopLossDM (Some c)
                                    (StopLoss.discord venue) sl cp md o e) ->
                 filter StopLoss.is_PostOrder l = []
                 /\ forall k p, ~ In (StopLoss.PostOrder k p) l).
      { intros l [o [e ->]]. apply sendStopLossDM_no_order. }
      set (payload := StopLoss.mkOrderPayload _ _ _ _).
      destruct (Hrest (match StopLoss.postOrder venue payload with
                       | inl err =>
                           StopLoss.sendStopLossDM (Some c)
                             (StopLoss.discord venue) sl cp md None
                             (Some (StopLoss.reason err))
                       | inr res =>
                           StopLoss.sendStopLossDM (Some c)
                             (StopLoss.discord venue) sl cp md
                             (StopLoss.order res) None
                       end)) as [F N].
      { destruct (StopLoss.postOrder venue payload); eauto. }
      cbn [filter StopLoss.is_PostOrder]. rewrite F. split; [cbn; lia |].
      intros k p [H | [H | H]]; [discriminate | | now apply N in H].
      injection H as <- <-. subst payload. cbn.
      repeat (split; [reflexivity |]). split; [exact Eq |].
      unfold StopLoss.positionQuantity in Eq |- *.
      destruct (StopLoss.market_positions pd) as [ps |] eqn:Em;
        [| exfalso; revert Eq; vm_compute; discriminate].
      destruct (StopLoss.findPosition (StopLoss.marketTicker sl) ps)
        as [pos |] eqn:Ef;
        [| exfalso; revert Eq; vm_compute; discriminate].
      destruct (findPosition_some _ _ _ Ef) as [before [rest [-> [Hb Ht]]]].
      exists pd, before, pos, rest.
      split; [reflexivity |]. split; [first [reflexivity | exact Em] |].
      split; [exact Hb |]. split; [exact Ht |].
      now apply or_num_positive.
Qed.

Lemma pipeline_order_is_full_exit_witness :
  exists pos,
    In pos [StopLoss.mkPosition "OTHER" 7; StopLoss.mkPosition "T" 3]
    /\ StopLoss.ticker pos = "T"
    /\ 3%float = StopLoss.position_fp pos.
Proof.
  destruct (proj2 (pipeline_order_is_full_exit (Some 0) sl_050_10 0.45
                     (yes_tick 0.45) two_positions_venue)
              "key" (StopLoss.mkOrderPayload "T" yes "market" 3))
    as [_ [_ [_ [_ [_ [pd [before [pos [rest [Hg [Hm [_ [Ht Hq]]]]]]]]]]]]].
  - right. left. reflexivity.
  - exists pos. split; [| split; [exact Ht | exact Hq]].
    injection Hg as <-. cbn in Hm. injection Hm as Hm. rewrite Hm.
    apply in_or_app. right. left. reflexivity.
Defined.

(** A run that ends in FILLED: the positions were fetched, the quantity
    is not [<= 0] and the venue answered the order.  When Discord lets the
    sender reach user.send, the effects are the fetch, the order and one
    notification, in this order: when the answer carries an order, the
    notification is titled "Position Closed!" and shows the order id, the
    quantity and the status (PENDING when the status is missing or empty);
    when it carries none, the notification is titled "Stop Loss
    Triggered!"; in both cases it has no error field.  When users.fetch or
    the embed fails, the effects are the fetch and the order alone: the
    position is sold and the owner is not told. *)
Theorem filled_notification :
  forall (c : DiscordClient) (sl : StopLoss.StopLossOrder)
         (currentPrice : float) (marketData : MarketUpdate)
         (venue : StopLoss.Venue) (res : StopLoss.OrderResult),
    terminal sl venue = FILLED ->
    (forall payload, StopLoss.postOrder venue payload = inr res) ->
    exists payload,
      (reaches_send (StopLoss.discord venue) = false ->
       StopLoss.executeSellOrder (Some c) sl currentPrice marketData venue
       = [ StopLoss.GetPositions (StopLoss.apiKey sl);
           StopLoss.PostOrder (StopLoss.apiKey sl) payload ])
      /\ (reaches_send (StopLoss.discord venue) = true ->
          exists embed,
            StopLoss.executeSellOrder (Some c) sl currentPrice marketData venue
            = [ StopLoss.GetPositions (StopLoss.apiKey sl);
                StopLoss.PostOrder (StopLoss.apiKey sl) payload;
                StopLoss.SendDM (StopLoss.userId sl) embed ]
            /\ (forall v, ~ In ("❌ Error", v) (fields embed))
            /\ match StopLoss.order res with
               | Some o =>
                   title embed = "✅ Position Closed!"
                   /\ In ("✅ Order Executed", Code (StopLoss.order_id o))
                         (fields embed)
                   /\ In ("📈 Quantity Sold", Contracts (StopLoss.quantity o))
                         (fields embed)
                   /\ In ("💵 Order Status",
                          Code (Js.or_str (StopLoss.status o) "PENDING"))
                         (fields embed)
               | None => title embed = "🛑 Stop Loss Triggered!"
               end).
Proof.
  intros c sl cp md venue res Ht Hpost.
  unfold terminal in Ht. unfold StopLoss.executeSellOrder.
  destruct (StopLoss.getPositions venue) as [err | pd]; [discriminate |].
  destruct (StopLoss.positionQuantity sl pd <=? 0)%float; [discriminate |].
  rewrite Hpost. eexists. split.
  { intros Hd. rewrite (sendStopLossDM_silent _ _ _ _ _ _ _ Hd). reflexivity. }
  intros Hd. unfold reaches_send in Hd. apply andb_prop in Hd.
  destruct Hd as [Eu Eb].
  unfold StopLoss.sendStopLossDM. rewrite Eu, Eb. cbn [negb].
  eexists. split; [reflexivity |]. cbn [fields title].
  destruct (StopLoss.order res) as [o |].
  - split.
    + intros v Hin. apply in_app_or in Hin.
      destruct Hin as [Hin | Hin]; cbn in Hin;
        repeat (destruct Hin as [Hin | Hin]; [discriminate |]); exact Hin.
    + split; [reflexivity |].
      repeat split; apply in_or_app; right; cbn; auto.
  - split; [| reflexivity].
    intros v Hin. apply in_app_or in Hin.
    destruct Hin as [Hin | Hin]; cbn in Hin;
      repeat (destruct Hin as [Hin | Hin]; [discriminate |]); exact Hin.
Qed.

Lemma filled_notification_witness :
  exists payload embed,
    StopLoss.executeSellOrder (Some 0) sl_050_10 0.45 (yes_tick 0.45)
      pending_venue
    = [ StopLoss.GetPositions "key";
        StopLoss.PostOrder "key" payload;
        StopLoss.SendDM "1234" embed ]
    /\ In ("💵 Order Status", Code "PENDING") (fields embed).
Proof.
  destruct (filled_notification 0 sl_050_10 0.45 (yes_tick 0.45)
              pending_venue
              (StopLoss.mkOrderResult (Some (StopLoss.mkOrder "O123" 5 None)))
              eq_refl (fun _ => eq_refl))
    as [payload [_ H]].
  destruct (H eq_refl) as [embed [H1 [_ [_ [_ [_ H5]]]]]].
  exists payload, embed. split; [exact H1 | exact H5].
Defined.

(** ** Firing once, and stopping while the pipeline runs *)

(** In every run of the stop-loss event loop, a socket whose flag is set
    keeps it set and starts no further pipeline, whatever ticks, stops,
    restarts and close events follow. *)
Theorem stoploss_never_fires_again :
  forall (es : list StopLoss.Event) (st st' : StopLoss.State) (ws : nat),
    hasExecuted_at st ws = true ->
    StopLoss.run es st = Some st' ->
    hasExecuted_at st' ws = true /\ pending_of ws st' <= pending_of ws st.
Proof.
  intros es st st' ws H Hrun.
  apply (fired_run es st st' ws (pending_of ws st)); [| exact Hrun].
  split; [exact H | lia].
Qed.

Lemma stoploss_never_fires_again_witness :
  pending_of 0
    (after (fired_trace ++
            [ StopLoss.OnMessage 0 (tick (yes_tick 0.40));
              StopLoss.OnMessage 0 (tick (yes_tick 0.30)) ]))
  <= 1.
Proof.
  apply (stoploss_never_fires_again
           [ StopLoss.OnMessage 0 (tick (yes_tick 0.40));
             StopLoss.OnMessage 0 (tick (yes_tick 0.30)) ]
           (after fired_trace) _ 0); vm_compute; reflexivity.
Defined.

Lemma resume_log_ext st1 st2 s venue :
  StopLoss.discordClient st1 = StopLoss.discordClient st2 ->
  StopLoss.log st1 = StopLoss.log st2 ->
  cfg_at st1 (StopLoss.s_ws s) = cfg_at st2 (StopLoss.s_ws s) ->
  StopLoss.log (StopLoss.resume s venue st1)
  = StopLoss.log (StopLoss.resume s venue st2).
Proof.
  unfold cfg_at, StopLoss.resume. intros Hc Hl Hcfg.
  destruct (nth_error (StopLoss.sockets st1) (StopLoss.s_ws s)) as [w1 |],
           (nth_error (StopLoss.sockets st2) (StopLoss.s_ws s)) as [w2 |];
    cbn in Hcfg; try discriminate; [| exact Hl].
  injection Hcfg as Hcfg. cbn. now rewrite Hc, Hl, Hcfg.
Qed.

(** An explicit stop does not cancel a pipeline that is already running:
    when the awaited pipeline of socket [ws] can settle in [st], it can
    settle after any stop or stop-all too, and it does to the venue and to
    the user exactly what it would have done without the stop (the same
    fetch, the same order, the same notification). *)
Theorem stop_does_not_cancel_pipeline :
  forall (st st2 : StopLoss.State) (ws : nat) (venue : StopLoss.Venue),
    StopLoss.step (StopLoss.Resume ws venue) st = Some st2 ->
    (forall u t s,
        exists st2',
          StopLoss.step (StopLoss.Resume ws venue)
                        (snd (StopLoss.stopStopLoss u t s st)) = Some st2'
          /\ StopLoss.log st2' = StopLoss.log st2)
    /\ (forall u,
           exists st2',
             StopLoss.step (StopLoss.Resume ws venue)
                           (snd (StopLoss.stopAllStopLosses u st)) = Some st2'
             /\ StopLoss.log st2' = StopLoss.log st2).
Proof.
  intros st st2 ws venue Hstep. cbn [StopLoss.step] in Hstep.
  destruct (StopLoss.take_suspended ws (StopLoss.suspended st))
    as [[s rest] |] eqn:Et; [| discriminate].
  injection Hstep as <-.
  assert (K : forall st1,
             StopLoss.suspended st1 = StopLoss.suspended st ->
             StopLoss.discordClient st1 = StopLoss.discordClient st ->
             StopLoss.log st1 = StopLoss.log st ->
             (forall j, cfg_at st1 j = cfg_at st j) ->
             exists st2',
               StopLoss.step (StopLoss.Resume ws venue) st1 = Some st2'
               /\ StopLoss.log st2'
                  = StopLoss.log
                      (StopLoss.resume s venue
                         (StopLoss.mkState (StopLoss.activeStopLosses st)
                            (StopLoss.discordClient st) (StopLoss.sockets st)
                            rest (StopLoss.log st)))).
  { intros st1 Hs Hc Hl Hcfg. cbn [StopLoss.step]. rewrite Hs, Et.
    eexists. split; [reflexivity |].
    apply resume_log_ext; cbn; auto. apply Hcfg. }
  assert (P : forall st1,
             (StopLoss.suspended st1 = StopLoss.suspended st
              /\ StopLoss.discordClient st1 = StopLoss.discordClient st
              /\ StopLoss.log st1 = StopLoss.log st
              /\ forall j, cfg_at st1 j = cfg_at st j) ->
             forall i id,
               let st1' := StopLoss.delete id
                             match i with
                             | Some w => StopLoss.close w st1
                             | None => st1
                             end in
               StopLoss.suspended st1' = StopLoss.suspended st
               /\ StopLoss.discordClient st1' = StopLoss.discordClient st
               /\ StopLoss.log st1' = StopLoss.log st
               /\ forall j, cfg_at st1' j = cfg_at st j).
  { intros st1 [H1 [H2 [H3 H4]]] i id. destruct i as [w |]; cbn.
    - repeat split; auto. intros j. rewrite <- H4.
      apply (cfg_at_close st1 w j).
    - repeat split; auto. }
  split.
  - intros u t s0. unfold StopLoss.stopStopLoss.
    destruct (JsMap.get _ (StopLoss.activeStopLosses st)) as [w |]; cbn [snd].
    + destruct (P st (conj eq_refl (conj eq_refl (conj eq_refl (fun _ => eq_refl))))
                  (Some w) (StopLoss.stopLossId_of u t s0)) as [H1 [H2 [H3 H4]]].
      now apply K.
    + apply K; auto.
  - intros u. cbn [StopLoss.stopAllStopLosses snd].
    generalize (StopLoss.getActiveStopLosses u st) as l.
    assert (G : forall l st1,
               (StopLoss.suspended st1 = StopLoss.suspended st
                /\ StopLoss.discordClient st1 = StopLoss.discordClient st
                /\ StopLoss.log st1 = StopLoss.log st
                /\ forall j, cfg_at st1 j = cfg_at st j) ->
               let st1' := fold_left
                             (fun x id =>
                                StopLoss.delete id
                                  match JsMap.get id (StopLoss.activeStopLosses x) with
                                  | Some w => StopLoss.close w x
                                  | None => x
                                  end) l st1 in
               StopLoss.suspended st1' = StopLoss.suspended st
               /\ StopLoss.discordClient st1' = StopLoss.discordClient st
               /\ StopLoss.log st1' = StopLoss.log st
               /\ forall j, cfg_at st1' j = cfg_at st j).
    { induction l as [| a r IH]; intros st1 H; cbn; [exact H |].
      apply IH. apply (P st1 H). }
    intros l.
    destruct (G l st (conj eq_refl (conj eq_refl (conj eq_refl (fun _ => eq_refl)))))
      as [H1 [H2 [H3 H4]]].
    now apply K.
Qed.

Lemma stop_does_not_cancel_pipeline_witness :
  exists st2',
    StopLoss.step (StopLoss.Resume 0 filling_venue)
                  (snd (StopLoss.stopStopLoss "1234" "T" "yes" (after fired_trace)))
    = Some st2'
    /\ StopLoss.log st2'
       = StopLoss.log (after (fired_trace ++ [StopLoss.Resume 0 filling_venue])).
Proof.
  apply (proj1 (stop_does_not_cancel_pipeline
                  (after fired_trace)
                  (after (fired_trace ++ [StopLoss.Resume 0 filling_venue]))
                  0 filling_venue ltac:(vm_compute; reflexivity))
               "1234" "T" "yes").
Defined.

(** In every state the stop-loss event loop reaches, a registered key
    names a socket that exists and was started for exactly that key, so
    two different keys never share a socket. *)
Theorem registry_names_own_socket :
  forall (st : StopLoss.State),
    StopLoss.reachable st ->
    (forall k ws,
        JsMap.get k (StopLoss.activeStopLosses st) = Some ws ->
        exists w, nth_error (StopLoss.sockets st) ws = Some w
                  /\ StopLoss.stopLossId (StopLoss.w_stopLoss w) = k)
    /\ (forall k k' ws,
           JsMap.get k (StopLoss.activeStopLosses st) = Some ws ->
           JsMap.get k' (StopLoss.activeStopLosses st) = Some ws ->
           k = k').
Proof.
  intros st Hr. pose proof (wf_reachable st Hr) as Hwf.
  assert (A : forall k ws,
             JsMap.get k (StopLoss.activeStopLosses st) = Some ws ->
             exists w, nth_error (StopLoss.sockets st) ws = Some w
                       /\ StopLoss.stopLossId (StopLoss.w_stopLoss w) = k).
  { intros k ws Hk. destruct (wf_active st Hwf k ws Hk) as [sl [E1 E2]].
    unfold cfg_at in E1.
    destruct (nth_error (StopLoss.sockets st) ws) as [w |]; [| discriminate].
    exists w. split; [reflexivity |]. cbn in E1. congruence. }
  split; [exact A |].
  intros k k' ws Hk Hk'.
  destruct (A k ws Hk) as [w [E1 E2]], (A k' ws Hk') as [w' [E3 E4]].
  congruence.
Qed.

Lemma registry_names_own_socket_witness :
  exists w, nth_error (StopLoss.sockets (after restart_trace)) 2 = Some w
            /\ StopLoss.stopLossId (StopLoss.w_stopLoss w) = "1234-T-yes".
Proof.
  apply (proj1 (registry_names_own_socket (after restart_trace)
                  (ex_intro _ 0 (ex_intro _ restart_trace eq_refl)))
               "1234-T-yes" 2).
  vm_compute. reflexivity.
Defined.

(** * The slash commands *)

(** ** Keys read back by the list commands *)

Lemma split_dash_cons s : exists seg rest, Commands.split_dash s = seg :: rest.
Proof.
  induction s as [| c r [seg [rest IH]]]; cbn; [eauto |].
  destruct (Ascii.eqb c "-"); [eauto |]. rewrite IH. eauto.
Qed.

Lemma split_dash_app (x y : string) :
  Commands.split_dash (x ++ String "-" y)
  = (Commands.split_dash x ++ Commands.split_dash y)%list.
Proof.
  induction x as [| c r IH]; cbn; [reflexivity |].
  destruct (Ascii.eqb c "-"); [now rewrite IH |].
  rewrite IH. destruct (split_dash_cons r) as [seg [rest ->]]. reflexivity.
Qed.

Lemma split_dash_no_dash s : no_dash s = true -> Commands.split_dash s = [s].
Proof.
  induction s as [| c r IH]; cbn; [reflexivity |].
  destruct (Ascii.eqb c "-"); cbn; [discriminate |].
  intros H. now rewrite (IH H).
Qed.

Lemma split_key (u t s : string) :
  Commands.split_dash (u ++ "-" ++ t ++ "-" ++ s)
  = (Commands.split_dash u ++ Commands.split_dash t ++ Commands.split_dash s)%list.
Proof.
  change (u ++ "-" ++ t ++ "-" ++ s) with (u ++ String "-" (t ++ String "-" s)).
  now rewrite !split_dash_app.
Qed.

Lemma append_cons_neq (a : string) c (b : string) : a <> a ++ String c b.
Proof.
  induction a as [| x r IH]; cbn; [discriminate |].
  intros [= E]. now apply IH.
Qed.

(** The list commands read ticker and side back from the key by splitting
    it at ['-'].  For a user id without ['-']: when the ticker has no
    ['-'] either, the split gives back the ticker and the side; when the
    ticker is hyphenated, as [a-b], the list shows [a] as the ticker and
    the first part of [b] as the side, not the watcher's ticker and
    side. *)
Theorem list_reads_key_back :
  forall (u t : string) (sd : Side),
    no_dash u = true ->
    (no_dash t = true ->
     Commands.ticker_and_side (StopLoss.stopLossId_of u t (side_str sd))
     = (Some t, Some (side_str sd)))
    /\ (forall a b seg rest,
           t = a ++ "-" ++ b ->
           no_dash a = true ->
           Commands.split_dash b = seg :: rest ->
           Commands.ticker_and_side (StopLoss.stopLossId_of u t (side_str sd))
           = (Some a, Some seg)
           /\ a <> t).
Proof.
  intros u t sd Hu. unfold Commands.ticker_and_side, StopLoss.stopLossId_of.
  rewrite split_key, (split_dash_no_dash u Hu). split.
  - intros Ht. rewrite (split_dash_no_dash t Ht). cbn.
    destruct sd; reflexivity.
  - intros a b seg rest -> Ha Hb.
    change (a ++ "-" ++ b) with (a ++ String "-" b).
    rewrite split_dash_app, (split_dash_no_dash a Ha), Hb. cbn.
    split; [reflexivity | apply append_cons_neq].
Qed.

Lemma list_reads_key_back_witness :
  Commands.ticker_and_side
    (StopLoss.stopLossId_of "1234" "KXKHAMENEIOUT-AKHA-26SEP01" "yes")
  = (Some "KXKHAMENEIOUT", Some "AKHA").
Proof.
  apply (proj2 (list_reads_key_back "1234" "KXKHAMENEIOUT-AKHA-26SEP01" yes
                  eq_refl)
               "KXKHAMENEIOUT" "AKHA-26SEP01" "AKHA" ["26SEP01"]
               eq_refl eq_refl eq_refl).
Defined.




(** ** set, then stop *)





(** ** Keys and the watchers they stand for *)

Lemma length_append (a b : string) :
  String.length (a ++ b) = String.length a + String.length b.
Proof. induction a as [| c r IH]; cbn; [reflexivity | now rewrite IH]. Qed.

Lemma append_inv_tail (a b c : string) : a ++ c = b ++ c -> a = b.
Proof.
  revert b. induction a as [| x r IH]; intros [| y b] H; cbn in H.
  - reflexivity.
  - apply (f_equal String.length) in H. cbn in H. rewrite length_append in H. lia.
  - apply (f_equal String.length) in H. cbn in H. rewrite length_append in H. lia.
  - injection H as -> H. f_equal. now apply IH.
Qed.

Lemma no_dash_head (u u' r r' : string) :
  no_dash u = true -> no_dash u' = true ->
  u ++ String "-" r = u' ++ String "-" r' ->
  u = u' /\ r = r'.
Proof.
  revert u'. induction u as [| c u IH]; intros [| c' u'] Hu Hu' H; cbn in *.
  - injection H as ->. auto.
  - injection H as <- _. cbn in Hu'. discriminate.
  - injection H as -> _. cbn in Hu. discriminate.
  - injection H as -> H.
    apply andb_prop in Hu, Hu'. destruct Hu as [_ Hu], Hu' as [_ Hu'].
    destruct (IH u' Hu Hu' H) as [-> ->]. auto.
Qed.

(** For user ids without ['-'], the key of the two managers determines
    the watcher: equal keys come from the same user, ticker and side, so
    two different watchers of such users never share a registry entry.
    Without that condition keys collide: the user [a-b] on ticker [c]
    and the user [a] on ticker [b-c] have the same key. *)
Theorem key_determines_watcher :
  (forall (u u' t t' : string) (s s' : Side),
      no_dash u = true -> no_dash u' = true ->
      StopLoss.stopLossId_of u t (side_str s)
      = StopLoss.stopLossId_of u' t' (side_str s') ->
      u = u' /\ t = t' /\ s = s')
  /\ (forall (a b c s : string),
         StopLoss.stopLossId_of (a ++ "-" ++ b) c s
         = StopLoss.stopLossId_of a (b ++ "-" ++ c) s
         /\ Alert.alertId_of (a ++ "-" ++ b) c s
            = Alert.alertId_of a (b ++ "-" ++ c) s).
Proof.
  split.
  - intros u u' t t' s s' Hu Hu' H. unfold StopLoss.stopLossId_of in H.
    change (u ++ "-" ++ t ++ "-" ++ side_str s)
      with (u ++ String "-" (t ++ String "-" (side_str s))) in H.
    change (u' ++ "-" ++ t' ++ "-" ++ side_str s')
      with (u' ++ String "-" (t' ++ String "-" (side_str s'))) in H.
    destruct (no_dash_head _ _ _ _ Hu Hu' H) as [-> H2].
    split; [reflexivity |].
    assert (Hs : side_str s = side_str s').
    { apply (f_equal Commands.split_dash) in H2.
      rewrite !split_dash_app in H2.
      rewrite (split_dash_no_dash (side_str s)) in H2 by (destruct s; reflexivity).
      rewrite (split_dash_no_dash (side_str s')) in H2 by (destruct s'; reflexivity).
      apply app_inj_tail in H2. tauto. }
    rewrite Hs in H2. apply append_inv_tail in H2.
    split; [exact H2 |]. destruct s, s'; cbn in Hs; congruence.
  - intros a b c s.
    unfold StopLoss.stopLossId_of, Alert.alertId_of.
    assert (E : forall x y z : string, (x ++ y) ++ z = x ++ (y ++ z)).
    { intros x y z. induction x as [| ch x IH]; cbn; [reflexivity | now rewrite IH]. }
    rewrite !E. cbn. rewrite ?E. split; reflexivity.
Qed.

Lemma key_determines_watcher_witness :
  "1234" = "1234" /\ "KXBTC-25" = "KXBTC-25" /\ yes = yes.
Proof.
  apply (proj1 key_determines_watcher "1234" "1234" "KXBTC-25" "KXBTC-25" yes yes);
    reflexivity.
Defined.

(** ** A larger move triggers too *)

Lemma SFleb_trans a b c :
  SFleb a b = true -> SFleb b c = true -> SFleb a c = true.
Proof.
  unfold SFleb, SFcompare.
  destruct a as [sa | sa | | sa ma ea], b as [sb | sb | | sb mb eb],
           c as [sc | sc | | sc mc ec];
    try discriminate; try reflexivity;
    repeat match goal with s : bool |- _ => destruct s end;
    try discriminate; try reflexivity.
  all: destruct (BinInt.Z.compare_spec ea eb), (BinInt.Z.compare_spec eb ec),
         (BinInt.Z.compare_spec ea ec); try discriminate; try reflexivity; try lia.
  all: subst.
  all: change (PosDef.Pos.compare_cont Eq) with BinPos.Pos.compare.
  all: repeat match goal with
         | |- context [BinPos.Pos.compare ?x ?y] =>
             destruct (BinPos.Pos.compare_spec x y)
         end; cbn; try discriminate; try reflexivity; try lia.
Qed.

(** [<=] on numbers is transitive. *)
Lemma leb_trans x y z :
  (x <=? y)%float = true -> (y <=? z)%float = true -> (x <=? z)%float = true.
Proof. rewrite !leb_spec. apply SFleb_trans. Qed.

Lemma stoploss_decision sl data p :
  market_ticker data = StopLoss.marketTicker sl ->
  StopLoss.currentPrice_of (StopLoss.side sl) data = Some p ->
  StopLoss.onMessage sl false (tick data)
  = if Js.truthy p && (p <=? StopLoss.triggerPrice sl)%float
    then ARMED p data else NONE.
Proof.
  intros Ht Hp. unfold StopLoss.onMessage. open_tick Ht Hp.
  destruct (Js.truthy p); cbn [negb andb]; [| reflexivity].
  now rewrite andb_true_r.
Qed.

Lemma alert_decision a data p :
  market_ticker data = Alert.marketTicker a ->
  Alert.currentPrice_of (Alert.side a) data = Some p ->
  Alert.onMessage a (tick data)
  = if Js.truthy p && geb p (Alert.triggerPrice a)
    then ARMED p data else NONE.
Proof.
  intros Ht Hp. unfold Alert.onMessage. open_tick Ht Hp.
  destruct (Js.truthy p); reflexivity.
Qed.

Lemma truthy_of_not_zero_nan p :
  is_zero p = false -> is_nan p = false -> Js.truthy p = true.
Proof. unfold Js.truthy. now intros -> ->. Qed.

Lemma not_nan_of_leb_l x y : (x <=? y)%float = true -> is_nan x = false.
Proof.
  intros H. destruct (is_nan x) eqn:E; [| reflexivity].
  rewrite (leb_nan_l x y E) in H. discriminate.
Qed.

Lemma not_nan_of_leb_r x y : (x <=? y)%float = true -> is_nan y = false.
Proof.
  intros H. destruct (is_nan y) eqn:E; [| reflexivity].
  rewrite (leb_nan_r x y E) in H. discriminate.
Qed.

(** The decisions are monotone in the price.  When a tick at price [p]
    arms a stop-loss that has not fired, a tick for the same ticker at any
    nonzero price [p' <= p] arms it too; when a tick at [p] arms an alert,
    a tick at any nonzero [p' >= p] arms it too.  So a price that has
    crossed the trigger keeps triggering however far it moves on. *)
Theorem larger_move_also_arms :
  forall (data data' : MarketUpdate) (p p' : float),
    is_zero p' = false ->
    (forall sl,
        market_ticker data = StopLoss.marketTicker sl ->
        market_ticker data' = StopLoss.marketTicker sl ->
        StopLoss.currentPrice_of (StopLoss.side sl) data = Some p ->
        StopLoss.currentPrice_of (StopLoss.side sl) data' = Some p' ->
        (p' <=? p)%float = true ->
        StopLoss.onMessage sl false (tick data) = ARMED p data ->
        StopLoss.onMessage sl false (tick data') = ARMED p' data')
    /\ (forall a,
           market_ticker data = Alert.marketTicker a ->
           market_ticker data' = Alert.marketTicker a ->
           Alert.currentPrice_of (Alert.side a) data = Some p ->
           Alert.currentPrice_of (Alert.side a) data' = Some p' ->
           (p <=? p')%float = true ->
           Alert.onMessage a (tick data) = ARMED p data ->
           Alert.onMessage a (tick data') = ARMED p' data').
Proof.
  intros data data' p p' Hz. split.
  - intros sl Ht Ht' Hp Hp' Hle Hfire.
    rewrite (stoploss_decision sl data p Ht Hp) in Hfire.
    rewrite (stoploss_decision sl data' p' Ht' Hp').
    destruct (Js.truthy p); [| discriminate]. cbn [andb] in Hfire.
    destruct (p <=? StopLoss.triggerPrice sl)%float eqn:E; [| discriminate].
    rewrite (truthy_of_not_zero_nan p' Hz (not_nan_of_leb_l _ _ Hle)).
    now rewrite (leb_trans _ _ _ Hle E).
  - intros a Ht Ht' Hp Hp' Hle Hfire.
    rewrite (alert_decision a data p Ht Hp) in Hfire.
    rewrite (alert_decision a data' p' Ht' Hp').
    destruct (Js.truthy p); [| discriminate]. cbn [andb] in Hfire.
    unfold geb in *.
    destruct (Alert.triggerPrice a <=? p)%float eqn:E; [| discriminate].
    rewrite (truthy_of_not_zero_nan p' Hz (not_nan_of_leb_r _ _ Hle)).
    now rewrite (leb_trans _ _ _ E Hle).
Qed.

Lemma larger_move_also_arms_witness :
  StopLoss.onMessage sl_050_10 false (tick (yes_tick 0.2)) = ARMED 0.2 (yes_tick 0.2)
  /\ Alert.onMessage alert_050_10 (tick (yes_tick 0.9)) = ARMED 0.9 (yes_tick 0.9).
Proof.
  split.
  - apply (proj1 (larger_move_also_arms (yes_tick 0.45) (yes_tick 0.2) 0.45 0.2
                    eq_refl) sl_050_10); reflexivity.
  - apply (proj2 (larger_move_also_arms (yes_tick 0.55) (yes_tick 0.9) 0.55 0.9
                    eq_refl) alert_050_10); reflexivity.
Defined.

(** ** Edge cases of the notifications *)

(** startPositionAlert on a tick that triggers but carries no NO price: a
    YES alert is armed by the YES price at or above its trigger, but
    building the message throws at [data.no_price.toFixed(4)], so no
    message is sent; the handler still closes the socket and deletes the
    key.  The alert is consumed without the user being told. *)
Theorem position_alert_lost_without_no_price :
  forall (st : PositionAlert.State) (ws : nat) (w : PositionAlert.Watcher)
         (data : MarketUpdate) (p : float) (info : option MarketTickerInfo),
    nth_error (PositionAlert.sockets st) ws = Some w ->
    PositionAlert.side (PositionAlert.w_alert w) = yes ->
    market_ticker data = PositionAlert.marketTicker (PositionAlert.w_alert w) ->
    yes_price data = Some p ->
    no_price data = None ->
    geb p (PositionAlert.triggerPrice (PositionAlert.w_alert w)) = true ->
    PositionAlert.onMessage (PositionAlert.w_alert w) false (tick data)
    = ARMED p data
    /\ snd (position_resume ws p data info st) = None
    /\ JsMap.get (PositionAlert.alertKey (PositionAlert.w_alert w))
                 (PositionAlert.activeAlerts (fst (position_resume ws p data info st)))
       = None
    /\ live_at PositionAlert.w_ws
               (PositionAlert.sockets (fst (position_resume ws p data info st))) ws
       = false.
Proof.
  intros st ws w data p info Hw Hside Ht Hy Hn Hge. split.
  - unfold PositionAlert.onMessage. cbn [tick msg_type msg_data].
    rewrite String.eqb_refl. cbn [negb]. rewrite Ht, String.eqb_refl. cbn [negb].
    unfold PositionAlert.currentPrice_of. rewrite Hside, Hy, Hge. reflexivity.
  - unfold position_resume. rewrite Hw. cbn [fst snd].
    unfold position_message. rewrite Hn.
    split; [reflexivity |]. split; [cbn; apply get_delete_same |].
    unfold live_at. cbn. rewrite nth_error_upd_same, Hw. cbn.
    unfold Ws.live. cbn.
    destruct (Ws.readyState (PositionAlert.w_ws w)); reflexivity.
Qed.

Lemma position_alert_lost_without_no_price_witness :
  snd (position_resume 0 0.6 (yes_tick 0.6) None
         (PositionAlert.startPositionAlert position_050_10 PositionAlert.init))
  = None.
Proof.
  apply (position_alert_lost_without_no_price
           (PositionAlert.startPositionAlert position_050_10 PositionAlert.init)
           0 (PositionAlert.mkWatcher position_050_10 Ws.fresh false)
           (yes_tick 0.6) 0.6 None);
    reflexivity.
Defined.

(** ** A frame after stop *)

(** stop does not disarm the handler.  [stopStopLoss] calls [close()] on
    the socket and deletes the key; the ['message'] handler tests neither
    the registry nor the state of the socket.  So when an open watcher
    that has not fired is stopped, and the socket, now CLOSING, hands over
    one more frame before its ['close'] event, a tick that would have
    fired the watcher fires it: the flag is set and the handler waits for
    its pipeline, as if stop had not been called. *)
Theorem frame_after_stop_still_fires :
  forall (st : StopLoss.State) (ws : nat) (w : StopLoss.Watcher)
         (data : MarketUpdate) (p : float),
    nth_error (StopLoss.sockets st) ws = Some w ->
    JsMap.get (StopLoss.stopLossId (StopLoss.w_stopLoss w))
              (StopLoss.activeStopLosses st) = Some ws ->
    Ws.readyState (StopLoss.w_ws w) = Ws.OPEN ->
    StopLoss.onMessage (StopLoss.w_stopLoss w) (StopLoss.w_hasExecuted w)
                       (tick data) = ARMED p data ->
    let sl := StopLoss.w_stopLoss w in
    exists st1 st2,
      StopLoss.stopStopLoss (StopLoss.userId sl) (StopLoss.marketTicker sl)
                            (side_str (StopLoss.side sl)) st = (true, st1)
      /\ StopLoss.getActiveStopLosses (StopLoss.userId sl) st1
         = filter (fun key => Js.startsWith key (StopLoss.userId sl))
                  (JsMap.keys (JsMap.delete (StopLoss.stopLossId sl)
                                            (StopLoss.activeStopLosses st)))
      /\ StopLoss.readyState_of ws st1 = Some Ws.CLOSING
      /\ StopLoss.step (StopLoss.OnMessage ws (tick data)) st1 = Some st2
      /\ hasExecuted_at st2 ws = true
      /\ StopLoss.suspended st2
         = (StopLoss.suspended st ++ [StopLoss.mkSuspended ws p data])%list.
Proof.
  intros st ws w data p Hw Hget Hopen Harm. cbn zeta.
  unfold StopLoss.stopStopLoss.
  fold (StopLoss.stopLossId (StopLoss.w_stopLoss w)). rewrite Hget.
  set (st1 := StopLoss.delete _ _).
  assert (Hn : nth_error (StopLoss.sockets st1) ws
               = Some (StopLoss.mkWatcher (StopLoss.w_stopLoss w)
                         (Ws.close (StopLoss.w_ws w))
                         (StopLoss.w_hasExecuted w))).
  { subst st1. cbn. rewrite nth_error_upd_same, Hw. reflexivity. }
  assert (Hr : StopLoss.readyState_of ws st1 = Some Ws.CLOSING).
  { unfold StopLoss.readyState_of. rewrite Hn. cbn. rewrite Hopen. reflexivity. }
  exists st1. eexists. split; [reflexivity |]. split; [reflexivity |].
  split; [exact Hr |]. split.
  { cbn [StopLoss.step]. rewrite Hr. unfold StopLoss.handleMessage.
    rewrite Hn. cbn [StopLoss.w_stopLoss StopLoss.w_hasExecuted].
    rewrite Harm. reflexivity. }
  split.
  - unfold hasExecuted_at. cbn. rewrite nth_error_upd_same.
    subst st1. cbn. rewrite nth_error_upd_same, Hw. reflexivity.
  - reflexivity.
Qed.

Lemma frame_after_stop_still_fires_witness :
  (exists st1 st2,
      StopLoss.stopStopLoss "1234" "T" "yes"
        (after [StopLoss.Start sl_050_10 true; StopLoss.OnOpen 0]) = (true, st1)
      /\ StopLoss.getActiveStopLosses "1234" st1 = []
      /\ StopLoss.step (StopLoss.OnMessage 0 (tick (yes_tick 0.45))) st1
         = Some st2
      /\ StopLoss.suspended st2 = [StopLoss.mkSuspended 0 0.45 (yes_tick 0.45)])
  /\ filter StopLoss.is_PostOrder (StopLoss.log (after stop_then_tick))
     = [ StopLoss.PostOrder "key" (StopLoss.mkOrderPayload "T" yes "market" 5) ].
Proof.
  split; [| vm_compute; reflexivity].
  destruct (frame_after_stop_still_fires
              (after [StopLoss.Start sl_050_10 true; StopLoss.OnOpen 0]) 0
              (StopLoss.mkWatcher sl_050_10 (Ws.mkWs Ws.OPEN 0) false)
              (yes_tick 0.45) 0.45 eq_refl eq_refl eq_refl eq_refl)
    as [st1 [st2 [H1 [H2 [_ [H4 [_ H6]]]]]]].
  exists st1, st2. split; [exact H1 |]. split; [exact H2 |].
  split; [exact H4 | exact H6].
Defined.

(** ** An alert whose notification cannot be sent *)

(** When the awaited sendAlert of a fired alert settles, the handler
    closes the socket and removes the key whatever Discord did.  The
    market details are fetched first; when users.fetch or the embed then
    fails, nothing is sent and the alert is consumed without the user
    being told; otherwise one notification goes to the owner, after the
    fetch, carrying the price that fired the alert. *)
Theorem alert_lost_when_discord_fails :
  forall (st : Alert.State) (s : Alert.Suspended) (answers : Alert.Answers)
         (w : Alert.Watcher) (c : DiscordClient),
    Alert.discordClient st = Some c ->
    nth_error (Alert.sockets st) (Alert.s_ws s) = Some w ->
    let a := Alert.w_alert w in
    let st' := Alert.resume s answers st in
    JsMap.get (Alert.alertId a) (Alert.activeAlerts st') = None
    /\ closeCalls_at Alert.w_ws (Alert.sockets st') (Alert.s_ws s)
       = S (closeCalls_at Alert.w_ws (Alert.sockets st) (Alert.s_ws s))
    /\ (reaches_send (Alert.discord answers) = false ->
        Alert.log st'
        = (Alert.log st ++ [Alert.FetchMarket (Alert.marketTicker a)])%list)
    /\ (reaches_send (Alert.discord answers) = true ->
        exists embed,
          Alert.log st'
          = (Alert.log st ++ [ Alert.FetchMarket (Alert.marketTicker a);
                               Alert.SendDM (Alert.userId a) embed ])%list
          /\ In ("⚡ Current Price", Dollar4 (Alert.s_currentPrice s))
                (fields embed)).
Proof.
  intros st s answers w c Hc Hw. cbn zeta. unfold Alert.resume.
  rewrite Hw, Hc. unfold Alert.sendAlert.
  split; [cbn; apply get_delete_same |].
  split.
  { unfold closeCalls_at. cbn. now rewrite nth_error_upd_same, Hw. }
  split.
  - intros ->. reflexivity.
  - intros ->. cbn [negb]. eexists. split; [reflexivity |].
    cbn [fields]. cbn. tauto.
Qed.

Lemma alert_lost_when_discord_fails_witness :
  Alert.log (Alert.resume (Alert.mkSuspended 0 0.55 (yes_tick 0.55))
               (Alert.mkAnswers None discord_down)
               (after_alert [Alert.Start alert_050_10 true; Alert.OnOpen 0]))
  = [Alert.FetchMarket "T"]
  /\ JsMap.get "1234-T-yes"
       (Alert.activeAlerts
          (Alert.resume (Alert.mkSuspended 0 0.55 (yes_tick 0.55))
             (Alert.mkAnswers None discord_down)
             (after_alert [Alert.Start alert_050_10 true; Alert.OnOpen 0])))
     = None.
Proof.
  destruct (alert_lost_when_discord_fails
              (after_alert [Alert.Start alert_050_10 true; Alert.OnOpen 0])
              (Alert.mkSuspended 0 0.55 (yes_tick 0.55))
              (Alert.mkAnswers None discord_down)
              (Alert.mkWatcher alert_050_10 (Ws.mkWs Ws.OPEN 0)) 0
              eq_refl eq_refl) as [H1 [_ [H3 _]]].
  split; [exact (H3 eq_refl) | exact H1].
Defined.
